(** * 4-view body measurement: the circumference pipeline

    A shallow embedding of the measurement pipeline of
    [body_measurement_circumference_only.py] (class
    [CircumferenceOnlyReconstructor]) and of the validator of
    [circumference_utils.py] (class [CircumferenceAnalyzer]), with the
    properties of the pipeline proved over it.

    Numbers are IEEE-754 binary64 values, as Python's [float] and numpy's
    [float64] are; Python integers are [nat] or [Z]; Python dictionaries are
    finite maps or, where the iteration order is used, association lists;
    an exception is a value of the [result] type. *)

From Stdlib Require Import ZArith Floats.PrimFloat.
From Stdlib Require Numbers.Cyclic.Int63.Uint63.
From stdpp Require Import base option list strings gmap pretty.

Set Warnings "-inexact-float".
Set Default Proof Using "Type*".

(** ** Python values and exceptions *)

Module Py.

Inductive exn : Type :=
| IndexError
| ZeroDivisionError
| OverflowError
| TypeError
| AttributeError
| KeyError (key : string).

(** The outcome of evaluating a Python expression: a value or a raised
    exception. *)
Inductive result (A : Type) : Type :=
| Ok (a : A)
| Raise (e : exn).
Arguments Ok {A} a.
Arguments Raise {A} e.

#[export] Instance result_ret : MRet result := fun A a => Ok a.
#[export] Instance result_bind : MBind result := fun A B f m =>
  match m with
  | Ok a => f a
  | Raise e => Raise e
  end.

(** [l[i]] for [0 <= i]: out of range raises [IndexError]. *)
Definition index {A} (l : list A) (i : nat) : result A :=
  match l !! i with
  | Some a => Ok a
  | None => Raise IndexError
  end.

(** A [for] loop that updates an accumulator: the first exception ends
    it. *)
Fixpoint for_each {A B} (body : B → A → result B) (acc : B) (l : list A)
    : result B :=
  match l with
  | [] => mret acc
  | x :: rest => acc' ← body acc x; for_each body acc' rest
  end.

(** Truth value of a list-or-None: [None] and [[]] are false. *)
Definition truthy {A} (v : option (list A)) : bool :=
  match v with
  | Some (_ :: _) => true
  | _ => false
  end.

(** [x is not None]; also the truth value of a non-empty dict or None. *)
Definition is_not_None {A} (v : option A) : bool :=
  match v with
  | Some _ => true
  | None => false
  end.

(** An [int] operand of a float operation. *)
Definition float_of_int (n : Z) : float :=
  if (n <? 0)%Z then PrimFloat.opp (PrimFloat.of_uint63 (Uint63.of_Z (- n)))
  else PrimFloat.of_uint63 (Uint63.of_Z n).

End Py.
Import Py.

(** ** Numeric library functions

    The functions below belong to numpy and to the Python runtime, not to the
    repository: the pipeline is stated over any implementation of them. The
    basic float operations ([+], [-], [*], [/], [<], [abs], [np.sqrt]) are the
    IEEE ones and are used directly. *)

Class FloatLib : Type := {
  (** [np.mean] of a non-empty list of floats *)
  np_mean : list float -> float;
  (** the C library's [pow(x, 2.0)], which Python calls for [x ** 2] *)
  float_sq : float -> float;
  (** [round(x, 2)] on a [numpy.float64] *)
  np_round2 : float -> float;
  (** [round(x, 2)] on a Python [float] *)
  py_round2 : float -> float
}.

(** ** Data model *)

(** A 2D landmark dict: [{"x", "y", "z", "visibility"}]. The pose model's
    own landmark objects carry the same four fields. *)
Record landmark : Type := Landmark {
  lm_x : float;
  lm_y : float;
  lm_z : float;
  lm_visibility : float
}.

(** A combined 3D landmark dict: [{"x", "y", "z"}]. *)
Record point3 : Type := Point3 {
  p_x : float;
  p_y : float;
  p_z : float
}.

(** A landmark list: one optional entry per joint index. *)
Abbreviation landmarks2d := (list (option landmark)).
Abbreviation landmarks3d := (list (option point3)).

(** An entry of [CIRCUMFERENCE_POINTS]. *)
Record circ_config : Type := CircConfig {
  indices : nat * nat;
  ratio : float;
  description : string
}.

(** The attributes of a [CircumferenceOnlyReconstructor] that the pipeline
    reads. *)
Record Reconstructor : Type := {
  user_height_cm : float;
  frames_per_view : nat;
  min_visibility_score : float;
  min_joints_visible : nat;
  CIRCUMFERENCE_POINTS : list (string * circ_config)
}.

(** [__init__]: the attribute values of a fresh instance. *)
Definition init (user_height : float) : Reconstructor := {|
  user_height_cm := user_height;
  frames_per_view := 30;
  min_visibility_score := 0.75;
  min_joints_visible := 28;
  CIRCUMFERENCE_POINTS := [
    ("chest", CircConfig (11, 12) 1.30 "Chest (shoulders)");
    ("waist", CircConfig (23, 24) 1.35 "Waist (hips)");
    ("hip", CircConfig (23, 24) 1.35 "Hip/Seat");
    ("biceps_left", CircConfig (11, 13) 1.2 "Biceps (left arm)");
    ("biceps_right", CircConfig (12, 14) 1.2 "Biceps (right arm)");
    ("forearm_left", CircConfig (13, 15) 1.15 "Forearm (left)");
    ("forearm_right", CircConfig (14, 16) 1.15 "Forearm (right)");
    ("thigh_left", CircConfig (23, 25) 1.20 "Thigh (left)");
    ("thigh_right", CircConfig (24, 26) 1.20 "Thigh (right)");
    ("calf_left", CircConfig (25, 27) 1.15 "Calf (left)");
    ("calf_right", CircConfig (26, 28) 1.15 "Calf (right)")
  ]%string
|}.

(** [config.MEASUREMENTS_TO_CAPTURE]: the measurement names of the pipeline. *)
Definition MEASUREMENTS_TO_CAPTURE : list string := [
  "chest"; "waist"; "hip";
  "biceps_left"; "biceps_right"; "forearm_left"; "forearm_right";
  "thigh_left"; "thigh_right"; "calf_left"; "calf_right"
]%string.

(** The entries of a landmark list that are not [None], in order. *)
Definition not_None {A} (l : list (option A)) : list A := omap id l.

Section Pipeline.
Context {lib : FloatLib}.

(** *** Landmark extraction and pose quality *)

(** [extract_landmarks_2d]: [pose] is [results.pose_landmarks.landmark]
    ([None] when no pose was found), [shape] is [(height, width)]. *)
Definition extract_landmarks_2d (self : Reconstructor)
    (pose : option (list landmark)) (shape : Z * Z) : option landmarks2d :=
  match pose with
  | None => None
  | Some lms =>
      let '(height, width) := shape in
      Some ((fun l : landmark =>
               if PrimFloat.ltb (min_visibility_score self) (lm_visibility l)
               then Some {| lm_x := PrimFloat.mul (lm_x l) (float_of_int width);
                            lm_y := PrimFloat.mul (lm_y l) (float_of_int height);
                            lm_z := lm_z l;
                            lm_visibility := lm_visibility l |}
               else None) <$> lms)
  end.

(** The "Head not centered" check on [landmarks_2d[0]]. *)
Definition head_issue (lms : landmarks2d) : result (list string) :=
  head ← index lms 0;
  mret (match head with
        | Some h =>
            if PrimFloat.ltb (lm_x h) 100 || PrimFloat.ltb 540 (lm_x h)
            then ["Head not centered"%string]
            else []
        | None => []
        end).

(** The "Stand upright" check on [landmarks_2d[11]] and
    [landmarks_2d[23]]; the second is read only when the first is
    present. *)
Definition torso_issue (lms : landmarks2d) : result (list string) :=
  shoulder ← index lms 11;
  match shoulder with
  | None => mret []
  | Some s =>
      hip ← index lms 23;
      mret (match hip with
            | Some h =>
                if PrimFloat.ltb (PrimFloat.abs (PrimFloat.sub (lm_y s) (lm_y h))) 50
                then ["Stand upright"%string]
                else []
            | None => []
            end)
  end.

(** [assess_pose_quality]: [(is_valid, quality_score, issues)]. *)
Definition assess_pose_quality (self : Reconstructor)
    (landmarks_2d : option landmarks2d) : result (bool * float * list string) :=
  match landmarks_2d with
  | None => mret (false, 0%float, ["No landmarks detected"%string])
  | Some lms =>
      let valid_landmarks := length (not_None lms) in
      if valid_landmarks <? min_joints_visible self then
        mret (false, 0%float,
              ["Not enough joints: " +:+ pretty valid_landmarks +:+ "/"
                 +:+ pretty (min_joints_visible self)])
      else
        i1 ← head_issue lms;
        i2 ← torso_issue lms;
        let issues := i1 ++ i2 in
        let visibility_scores := lm_visibility <$> not_None lms in
        let quality_score :=
          match visibility_scores with
          | [] => 0%float
          | _ => np_mean visibility_scores
          end in
        let is_valid :=
          bool_decide (length issues = 0) && PrimFloat.ltb 0.7 quality_score in
        mret (is_valid, quality_score, issues)
  end.

(** *** Averaging a burst *)

(** [[frame[idx] for frame in landmarks_list if frame[idx] is not None]]:
    a frame shorter than [idx + 1] raises. *)
Definition valid_points (landmarks_list : list landmarks2d) (idx : nat)
    : result (list landmark) :=
  cells ← mapM (fun frame : landmarks2d => index frame idx) landmarks_list;
  mret (not_None cells).

(** The averaged entry for one joint, from the frames where it is present. *)
Definition average_point (pts : list landmark) : option landmark :=
  match pts with
  | [] => None
  | _ => Some {| lm_x := np_mean (lm_x <$> pts);
                 lm_y := np_mean (lm_y <$> pts);
                 lm_z := np_mean (lm_z <$> pts);
                 lm_visibility := np_mean (lm_visibility <$> pts) |}
  end.

(** [_average_landmarks]. *)
Definition _average_landmarks (landmarks_list : list landmarks2d)
    : result (option landmarks2d) :=
  match landmarks_list with
  | [] => mret None
  | first :: _ =>
      let num_landmarks := length first in
      averaged ← mapM (fun idx =>
                         pts ← valid_points landmarks_list idx;
                         mret (average_point pts))
                      (seq 0 num_landmarks);
      mret (Some averaged)
  end.

(** *** The capture loop of one view *)

(** What one iteration reads from the outside: [cap.read()], the pose
    model's landmarks for the frame, and [cv2.waitKey(1)]. *)
Record camera_frame : Type := CameraFrame {
  ret : bool;
  frame_shape : Z * Z;
  pose_landmarks : option (list landmark);
  wait_key : Z
}.

(** The local variables of [auto_capture_view]. *)
Record capture_state : Type := CaptureState {
  frame_count : nat;
  valid_landmarks_list : list landmarks2d;
  pose_stable_count : nat;
  auto_capture_started : bool
}.

Definition pose_stable_threshold : nat := 15.

Definition initial_state : capture_state :=
  {| frame_count := 0;
     valid_landmarks_list := [];
     pose_stable_count := 0;
     auto_capture_started := false |}.

(** "Update stability". *)
Definition update_stability (st : capture_state) (is_valid : bool) : capture_state :=
  if is_valid then
    let count := pose_stable_count st + 1 in
    {| frame_count := frame_count st;
       valid_landmarks_list := valid_landmarks_list st;
       pose_stable_count := count;
       auto_capture_started :=
         if negb (auto_capture_started st) && (pose_stable_threshold <=? count)
         then true else auto_capture_started st |}
  else
    if auto_capture_started st then
      {| frame_count := 0;
         valid_landmarks_list := [];
         pose_stable_count := 0;
         auto_capture_started := false |}
    else
      {| frame_count := frame_count st;
         valid_landmarks_list := valid_landmarks_list st;
         pose_stable_count := 0;
         auto_capture_started := auto_capture_started st |}.

(** [landmarks_2d and all(l is not None for l in landmarks_2d)]. *)
Definition all_joints_present (landmarks_2d : option landmarks2d) : bool :=
  truthy landmarks_2d &&
  match landmarks_2d with
  | Some lms => forallb is_not_None lms
  | None => false
  end.

(** "Auto-capture frames": the new state, and whether the burst is
    complete (the [break] of the block). *)
Definition capture_frame (self : Reconstructor) (st : capture_state)
    (landmarks_2d : option landmarks2d) : capture_state * bool :=
  if auto_capture_started st then
    match landmarks_2d with
    | Some lms =>
        if all_joints_present landmarks_2d then
          let st' := {| frame_count := frame_count st + 1;
                        valid_landmarks_list := valid_landmarks_list st ++ [lms];
                        pose_stable_count := pose_stable_count st;
                        auto_capture_started := auto_capture_started st |} in
          (st', frames_per_view self <=? frame_count st')
        else (st, false)
    | None => (st, false)
    end
  else (st, false).

(** Why the loop was left by [break]. *)
Inductive break_reason : Type :=
| ReadFailed      (* [if not ret: break] *)
| BurstComplete   (* [frame_count >= self.frames_per_view] *)
| StopKey.        (* [key == ord('s')] *)

(** How one iteration ends. *)
Inductive iteration : Type :=
| Next (st : capture_state)
| Break (why : break_reason) (st : capture_state)
| ReturnQuit.     (* [key == ord('q')]: [return False, None] *)

Definition ord_q : Z := 113.
Definition ord_s : Z := 115.

(** The body of [while True]. *)
Definition loop_body (self : Reconstructor) (st : capture_state)
    (f : camera_frame) : result iteration :=
  if negb (ret f) then mret (Break ReadFailed st)
  else
    let landmarks_2d := extract_landmarks_2d self (pose_landmarks f) (frame_shape f) in
    '(is_valid, _, _) ← assess_pose_quality self landmarks_2d;
    let st1 := update_stability st is_valid in
    let '(st2, complete) := capture_frame self st1 landmarks_2d in
    if complete then mret (Break BurstComplete st2)
    else
      (* "Display status": [frame_count / self.frames_per_view] *)
      _ ← (if auto_capture_started st2 && (frames_per_view self =? 0)
           then Raise ZeroDivisionError else mret ());
      let key := Z.land (wait_key f) 255 in
      if (key =? ord_q)%Z then mret ReturnQuit
      else if (key =? ord_s)%Z then mret (Break StopKey st2)
      else mret (Next st2).

(** How the loop stands after a finite run of frames. *)
Inductive loop_end : Type :=
| Waiting (st : capture_state)   (* blocked in [cap.read()] *)
| Broke (why : break_reason) (st : capture_state)
| Quit.

Fixpoint capture_loop (self : Reconstructor) (st : capture_state)
    (frames : list camera_frame) : result loop_end :=
  match frames with
  | [] => mret (Waiting st)
  | f :: rest =>
      it ← loop_body self st f;
      match it with
      | Next st' => capture_loop self st' rest
      | Break why st' => mret (Broke why st')
      | ReturnQuit => mret Quit
      end
  end.

(** What [auto_capture_view] has done after a finite run of frames:
    still looping, or returned [(success, landmarks)] with
    [self.capture_complete] as given. *)
Inductive view_outcome : Type :=
| Pending (st : capture_state)
| Returned (capture_complete : bool) (r : bool * option landmarks2d).

(** [auto_capture_view]. *)
Definition auto_capture_view (self : Reconstructor)
    (frames : list camera_frame) : result view_outcome :=
  e ← capture_loop self initial_state frames;
  match e with
  | Waiting st => mret (Pending st)
  | Quit => mret (Returned true (false, None))
  | Broke _ st =>
      match valid_landmarks_list st with
      | [] => mret (Returned false (false, None))
      | _ =>
          averaged ← _average_landmarks (valid_landmarks_list st);
          mret (Returned false (true, averaged))
      end
  end.

(** *** Combining the four views *)

(** The combined entry of one joint: present only if all four are. *)
Definition combine_point (p_front p_left p_back p_right : option landmark)
    : option point3 :=
  match p_front, p_left, p_back, p_right with
  | Some f, Some l, Some b, Some r =>
      Some {| p_x := (lm_x f + lm_x l + lm_x b + lm_x r) / 4;
              p_y := (lm_y f + lm_y l + lm_y b + lm_y r) / 4;
              p_z := (lm_z f + lm_z l + lm_z b + lm_z r) / 4 |}%float
  | _, _, _, _ => None
  end.

(** [triangulate_4view]. *)
Definition triangulate_4view (front left back right : option landmarks2d)
    : result (option landmarks3d) :=
  match front, left, back, right with
  | Some fr, Some le, Some ba, Some ri =>
      if truthy front && truthy left && truthy back && truthy right then
        let num_landmarks := length fr in
        landmarks_3d ← mapM (fun idx =>
                               p_front ← index fr idx;
                               p_left ← index le idx;
                               p_back ← index ba idx;
                               p_right ← index ri idx;
                               mret (combine_point p_front p_left p_back p_right))
                            (seq 0 num_landmarks);
        mret (Some landmarks_3d)
      else mret None
  | _, _, _, _ => mret None
  end.

(** *** Measurements *)

(** [x ** 2] on a Python float, as [float_pow] evaluates it: a NaN, an
    infinity, a zero and a one are answered at once; otherwise the C
    library's [pow] is called on the absolute value, and an infinite result
    raises [OverflowError]. The coordinates of the landmarks are Python
    floats, as [_average_landmarks] and [triangulate_4view] make them. *)
Definition float_pow2 (x : float) : result float :=
  if PrimFloat.is_nan x then mret x
  else if PrimFloat.is_infinity x then mret PrimFloat.infinity
  else if PrimFloat.is_zero x then mret 0%float
  else if PrimFloat.eqb (PrimFloat.abs x) 1 then mret 1%float
  else
    let ix := float_sq (PrimFloat.abs x) in
    if PrimFloat.is_infinity ix then Raise OverflowError else mret ix.

(** [np.sqrt((a.x - b.x)**2 + (a.y - b.y)**2 + (a.z - b.z)**2)]. *)
Definition distance3 (a b : point3) : result float :=
  dx2 ← float_pow2 (p_x a - p_x b);
  dy2 ← float_pow2 (p_y a - p_y b);
  dz2 ← float_pow2 (p_z a - p_z b);
  mret (PrimFloat.sqrt (dx2 + dy2 + dz2)).

(** "Get scale factor from height": [landmarks_3d[29]] is read only when
    [landmarks_3d[0]] is present. *)
Definition scale_factor (self : Reconstructor) (landmarks_3d : landmarks3d)
    : result float :=
  head ← index landmarks_3d 0;
  match head with
  | None => mret 1%float
  | Some h =>
      foot ← index landmarks_3d 29;
      match foot with
      | None => mret 1%float
      | Some f =>
          height_pixels ← distance3 h f;
          mret (if PrimFloat.ltb 0 height_pixels
                then (user_height_cm self / height_pixels)%float
                else 1%float)
      end
  end.

(** The body of the loop over [CIRCUMFERENCE_POINTS.items()]. *)
Definition measure_entry (landmarks_3d : landmarks3d) (scale : float)
    (measurements : gmap string float) (item : string * circ_config)
    : result (gmap string float) :=
  let '(measurement_name, config) := item in
  let '(idx1, idx2) := indices config in
  if (idx1 <? length landmarks_3d) && (idx2 <? length landmarks_3d) then
    match landmarks_3d !! idx1, landmarks_3d !! idx2 with
    | Some (Some p1), Some (Some p2) =>
        width ← distance3 p1 p2;
        let circumference := (width * ratio config * scale)%float in
        mret (<[measurement_name := np_round2 circumference]> measurements)
    | _, _ => mret measurements
    end
  else mret measurements.

(** [calculate_circumference_only]. *)
Definition calculate_circumference_only (self : Reconstructor)
    (landmarks_3d : option landmarks3d) : result (option (gmap string float)) :=
  match landmarks_3d with
  | None => mret None
  | Some lms =>
      scale ← scale_factor self lms;
      measurements ← for_each (measure_entry lms scale) ∅ (CIRCUMFERENCE_POINTS self);
      mret (Some measurements)
  end.

(** *** Validation ([CircumferenceAnalyzer]) *)

(** An entry of [CIRCUMFERENCE_STANDARDS]: [{"min", "max", "target"}]. *)
Record standard : Type := Standard {
  std_min : Z;
  std_max : Z;
  std_target : Z
}.

Definition CIRCUMFERENCE_STANDARDS : gmap string standard :=
  list_to_map [
    ("chest", Standard 75 120 95);
    ("waist", Standard 60 110 80);
    ("hip", Standard 85 130 100);
    ("arm_bicep", Standard 22 38 30);
    ("thigh_upper", Standard 40 70 55);
    ("calf", Standard 30 45 38)
  ]%string.

(** The dict [validate_circumference] returns; a key that a branch does
    not set is [None]. *)
Record validation : Type := Validation {
  valid : bool;
  message : string;
  status : option string;
  diff_from_target : option float
}.

(** [validate_circumference]. *)
Definition validate_circumference (measurement_name : string) (value_cm : float)
    : validation :=
  match CIRCUMFERENCE_STANDARDS !! measurement_name with
  | None => Validation true "No standard available" None None
  | Some std =>
      if PrimFloat.ltb value_cm (float_of_int (std_min std)) then
        Validation false ("Below minimum (" +:+ pretty (std_min std) +:+ " cm)")
                   (Some "too_small"%string) None
      else if PrimFloat.ltb (float_of_int (std_max std)) value_cm then
        Validation false ("Above maximum (" +:+ pretty (std_max std) +:+ " cm)")
                   (Some "too_large"%string) None
      else
        let diff := (value_cm - float_of_int (std_target std))%float in
        let st := if PrimFloat.ltb (PrimFloat.abs diff) 5 then "ideal"%string
                  else if PrimFloat.ltb 0 diff then "above_target"%string
                  else "below_target"%string in
        Validation true
                   ("Within range (" +:+ pretty (std_min std) +:+ "-"
                      +:+ pretty (std_max std) +:+ " cm)")
                   (Some st) (Some (py_round2 diff))
  end.

End Pipeline.

(** ** The vocabulary of the properties

    What the statements below say about joints, bursts and the loop
    variables, in terms of the data alone. *)

Section Vocabulary.
Context {lib : FloatLib}.

(** The values of joint [idx] in the frames where it is present, in frame
    order. *)
Definition present_at (idx : nat) (frames : list landmarks2d) : list landmark :=
  omap (λ frame : landmarks2d, frame !! idx ≫= id) frames.

(** The frames of a burst in which joint [idx] is present. *)
Definition frames_with (idx : nat) (frames : list landmarks2d) : list landmarks2d :=
  filter (λ frame : landmarks2d, is_Some (frame !! idx ≫= id)) frames.

(** The joint [idx] of a view: [None] when absent. *)
Definition joint {A} (view : list (option A)) (idx : nat) : option A :=
  view !! idx ≫= id.

(** The square of a coordinate difference, where it is a float. *)
Definition square (d : float) : float :=
  if PrimFloat.is_nan d then d
  else if PrimFloat.is_infinity d then PrimFloat.infinity
  else if PrimFloat.is_zero d then 0%float
  else if PrimFloat.eqb (PrimFloat.abs d) 1 then 1%float
  else float_sq (PrimFloat.abs d).

(** The square of a finite difference is in the float range. *)
Definition square_in_range (d : float) : Prop :=
  PrimFloat.is_finite d = true → PrimFloat.is_infinity (square d) = false.

(** The Euclidean distance of two points in space. *)
Definition euclidean (a b : point3) : float :=
  PrimFloat.sqrt (square (p_x a - p_x b)
                  + square (p_y a - p_y b)
                  + square (p_z a - p_z b))%float.

(** The squares of the three coordinate differences of two points are in
    the float range. *)
Definition measurable (a b : point3) : Prop :=
  square_in_range (p_x a - p_x b)
  ∧ square_in_range (p_y a - p_y b)
  ∧ square_in_range (p_z a - p_z b).

(** Every pair of joints that the measurement engine takes the distance
    of is measurable: the head-top (0) and the foot (29), and the two joints
    of each calibration entry, where both are present. *)
Definition squares_in_range (self : Reconstructor) (lms : landmarks3d) : Prop :=
  (∀ head foot,
     joint lms 0 = Some head → joint lms 29 = Some foot → measurable head foot)
  ∧ ∀ name cfg p1 p2,
      (name, cfg) ∈ CIRCUMFERENCE_POINTS self →
      joint lms (indices cfg).1 = Some p1 →
      joint lms (indices cfg).2 = Some p2 →
      measurable p1 p2.

(** The scale factor in terms of the head-top (0) and foot (29) joints. *)
Definition scale_of (height_cm : float) (lms : landmarks3d) : float :=
  match joint lms 0, joint lms 29 with
  | Some head, Some foot =>
      if PrimFloat.ltb 0 (euclidean head foot)
      then (height_cm / euclidean head foot)%float
      else 1%float
  | _, _ => 1%float
  end.

(** The value of a calibration entry, when both of its joints are present. *)
Definition measured (lms : landmarks3d) (scale : float) (cfg : circ_config)
    : option float :=
  match joint lms (indices cfg).1, joint lms (indices cfg).2 with
  | Some p1, Some p2 => Some (np_round2 (euclidean p1 p2 * ratio cfg * scale)%float)
  | _, _ => None
  end.

(** The result mapping with a calibration entry taken into account. *)
Definition with_entry (lms : landmarks3d) (scale : float)
    (measurements : gmap string float) (item : string * circ_config)
    : gmap string float :=
  match measured lms scale item.2 with
  | Some v => <[item.1 := v]> measurements
  | None => measurements
  end.

(** The state in which an iteration leaves the loop variables; a [return]
    discards them. *)
Definition state_after (it : iteration) : option capture_state :=
  match it with
  | Next st | Break _ st => Some st
  | ReturnQuit => None
  end.

(** A frame with at least one joint and no joint missing. *)
Definition full_frame (lms : landmarks2d) : Prop :=
  lms ≠ [] ∧ Forall is_Some lms.

(** The loop variables between two iterations: the frame counter counts
    the accepted frames, every accepted frame is full, nothing is held
    outside a burst, and the burst is not yet complete. *)
Definition burst_inv (self : Reconstructor) (st : capture_state) : Prop :=
  frame_count st = length (valid_landmarks_list st)
  ∧ Forall full_frame (valid_landmarks_list st)
  ∧ (auto_capture_started st = false → valid_landmarks_list st = [])
  ∧ length (valid_landmarks_list st) < frames_per_view self.

(** The loop variables when the burst has just been completed. *)
Definition burst_done (self : Reconstructor) (st : capture_state) : Prop :=
  Forall full_frame (valid_landmarks_list st)
  ∧ length (valid_landmarks_list st) = frames_per_view self.

(** What an iteration leaves behind, by the way it ends. *)
Definition iteration_inv (self : Reconstructor) (it : iteration) : Prop :=
  match it with
  | Next st => burst_inv self st
  | Break BurstComplete st => burst_done self st
  | Break _ st => burst_inv self st
  | ReturnQuit => True
  end.

(** How the loop stands, by the way it was left. *)
Definition loop_end_inv (self : Reconstructor) (e : loop_end) : Prop :=
  match e with
  | Waiting st => burst_inv self st
  | Broke BurstComplete st => burst_done self st
  | Broke _ st => burst_inv self st
  | Quit => True
  end.

End Vocabulary.

(** ** A reference implementation of the numeric library functions

    Left-to-right summation for the mean, the IEEE product for the square,
    and scaling by 100 around a round-to-nearest-integer for the rounding.
    It is used to run the pipeline on concrete inputs. *)

Module Sample.

Definition mean (xs : list float) : float :=
  (foldl PrimFloat.add 0 xs / float_of_int (Z.of_nat (length xs)))%float.

Definition square (x : float) : float := (x * x)%float.

(** Round to the nearest integer, ties to even; exact below [2^52]. *)
Definition rint (y : float) : float :=
  if PrimFloat.ltb (PrimFloat.abs y) 4503599627370496 then
    if PrimFloat.ltb y 0
    then (y - 4503599627370496 + 4503599627370496)%float
    else (y + 4503599627370496 - 4503599627370496)%float
  else y.

Definition round2 (x : float) : float := (rint (x * 100) / 100)%float.

Definition lib : FloatLib :=
  {| np_mean := mean; float_sq := square; np_round2 := round2; py_round2 := round2 |}.

(** A pose-model landmark at normalised [(x, y)] with the given
    visibility. *)
Definition raw (x y v : float) : landmark :=
  {| lm_x := x; lm_y := y; lm_z := 0; lm_visibility := v |}.

(** A full upright pose: 33 landmarks, all visible, joint [i] at height
    [i / 40] of the frame, centred. *)
Definition good_pose : list landmark :=
  (fun i : nat => raw 0.5 (float_of_int (Z.of_nat i) / 40) 0.9) <$> seq 0 33.

(** The same pose with the left wrist (15) and right wrist (16) hidden:
    31 of 33 joints are visible. *)
Definition partial_pose : list landmark :=
  (fun i : nat => raw 0.5 (float_of_int (Z.of_nat i) / 40)
                      (if bool_decide (i = 15 ∨ i = 16) then 0.5%float else 0.9%float))
    <$> seq 0 33.

(** A pose with only the first 27 of the 33 joints visible. *)
Definition poor_pose : list landmark :=
  (fun i : nat => raw 0.5 (float_of_int (Z.of_nat i) / 40)
                      (if bool_decide (i < 27) then 0.9%float else 0.5%float))
    <$> seq 0 33.

Definition no_key : Z := -1.

(** A 640x480 frame with the given pose and key. *)
Definition frame (pose : option (list landmark)) (key : Z) : camera_frame :=
  {| ret := true; frame_shape := (480, 640)%Z; pose_landmarks := pose; wait_key := key |}.

Definition good_frame : camera_frame := frame (Some good_pose) no_key.
Definition partial_frame : camera_frame := frame (Some partial_pose) no_key.
Definition empty_frame : camera_frame := frame None no_key.


Definition stop_frame : camera_frame := frame (Some good_pose) 115.
Definition good_quit_frame : camera_frame := frame (Some good_pose) 113.
Definition quit_frame : camera_frame := frame None 113.
Definition failed_read : camera_frame :=
  {| ret := false; frame_shape := (0, 0)%Z; pose_landmarks := None; wait_key := no_key |}.

Definition self : Reconstructor := init 170.

(** The landmark list of [poor_pose] in a 640x480 frame. *)
Definition poor_landmarks : landmarks2d :=
  default [] (extract_landmarks_2d self (Some poor_pose) (480, 640)%Z).

(** The landmark list that [good_frame] yields. *)
Definition good_landmarks : landmarks2d :=
  default [] (extract_landmarks_2d self (Some good_pose) (480, 640)%Z).

(** A burst in progress with two accepted frames. *)
Definition capturing_state : capture_state :=
  {| frame_count := 2;
     valid_landmarks_list := [good_landmarks; good_landmarks];
     pose_stable_count := 17;
     auto_capture_started := true |}.

(** The loop variables after sixteen good frames: the burst started on the
    fifteenth. *)
Definition sixteen_state : capture_state :=
  {| frame_count := 2;
     valid_landmarks_list := [good_landmarks; good_landmarks];
     pose_stable_count := 16;
     auto_capture_started := true |}.

(** A burst of two 2-joint frames: joint 0 is present in the first frame
    only, joint 1 in neither. *)
Definition small_burst : list landmarks2d :=
  [ [Some (raw 10 20 0.9); None]; [None; None] ].

(** Four 2-joint views: joint 0 is present in all of them, joint 1 is
    missing in the right view. *)
Definition view_front : landmarks2d := [Some (raw 1 2 0.9); Some (raw 5 5 0.9)].
Definition view_left : landmarks2d := [Some (raw 3 2 0.9); Some (raw 5 5 0.9)].
Definition view_back : landmarks2d := [Some (raw 5 2 0.9); Some (raw 5 5 0.9)].
Definition view_right : landmarks2d := [Some (raw 7 2 0.9); None].

(** A combined body of 33 joints: head-top at the origin, foot (29) 170
    units below, shoulders (11, 12) 40 units apart, every other joint on
    the vertical axis. *)
Definition body : landmarks3d :=
  (fun i : nat =>
     Some (if bool_decide (i = 11) then Point3 (-20) 30 0
           else if bool_decide (i = 12) then Point3 20 30 0
           else if bool_decide (i = 29) then Point3 0 170 0
           else Point3 0 (float_of_int (5 * Z.of_nat i)) 0)) <$> seq 0 33.

(** The same body with the left elbow (13) missing. *)
Definition body_without_elbow : landmarks3d := <[13 := None]> body.

(** The same body with the left shoulder (11) at [x = 1e200]. *)
Definition far_body : landmarks3d := <[11 := Some (Point3 1e200 30 0)]> body.

End Sample.

(** ** More vocabulary *)

(** [self.min_joints_visible = n] on an instance. *)
Definition set_min_joints_visible (self : Reconstructor) (n : nat) : Reconstructor :=
  {| user_height_cm := user_height_cm self;
     frames_per_view := frames_per_view self;
     min_visibility_score := min_visibility_score self;
     min_joints_visible := n;
     CIRCUMFERENCE_POINTS := CIRCUMFERENCE_POINTS self |}.

Section Judgements.
Context {lib : FloatLib}.

(** The head-top joint, when present, lies in the band of 100 to 540
    pixels. *)
Definition head_centered (lms : landmarks2d) : Prop :=
  ∀ h, joint lms 0 = Some h →
       PrimFloat.ltb (lm_x h) 100 = false ∧ PrimFloat.ltb 540 (lm_x h) = false.

(** The left shoulder and the left hip, when both present, are at least 50
    pixels apart vertically. *)
Definition torso_upright (lms : landmarks2d) : Prop :=
  ∀ s p, joint lms 11 = Some s → joint lms 23 = Some p →
         PrimFloat.ltb (PrimFloat.abs (lm_y s - lm_y p)) 50 = false.

(** The landmark list the loop extracts from a frame. *)
Definition frame_landmarks (self : Reconstructor) (f : camera_frame)
    : option landmarks2d :=
  extract_landmarks_2d self (pose_landmarks f) (frame_shape f).

(** Whether the loop judges a frame valid. *)
Definition frame_valid (self : Reconstructor) (f : camera_frame) : bool :=
  match assess_pose_quality self (frame_landmarks self f) with
  | Ok (is_valid, _, _) => is_valid
  | Raise _ => false
  end.

(** A landmark list accepted from one of the given frames: the frame was
    read and judged valid, and the list is what was extracted from it. *)
Definition accepted_from (self : Reconstructor) (frames : list camera_frame)
    (lms : landmarks2d) : Prop :=
  ∃ f, f ∈ frames ∧ ret f = true ∧ frame_valid self f = true
       ∧ frame_landmarks self f = Some lms.

(** A frame that is taken into the burst: it is judged valid, the view is
    capturing (it was before the frame, or the frame is the fifteenth of a
    run of valid frames), and its landmark list is full. *)
Definition frame_accepted (self : Reconstructor) (st : capture_state)
    (f : camera_frame) : Prop :=
  frame_valid self f = true
  ∧ (auto_capture_started st = true
     ∨ pose_stable_threshold ≤ pose_stable_count st + 1)
  ∧ ∃ lms, frame_landmarks self f = Some lms ∧ full_frame lms.

(** A frame that completes the burst: it is accepted, and with it the
    frame counter reaches [frames_per_view]. *)
Definition burst_completed_by (self : Reconstructor) (st : capture_state)
    (f : camera_frame) : Prop :=
  frame_accepted self st f ∧ frames_per_view self ≤ frame_count st + 1.


(** The loop variables a finished or interrupted loop leaves, if any. *)
Definition loop_end_state (e : loop_end) : option capture_state :=
  match e with
  | Waiting st | Broke _ st => Some st
  | Quit => None
  end.

End Judgements.

(** ** The session: [run_full_capture] and [_save_measurements] *)

Section Session.
Context {lib : FloatLib}.

(** [self.views], set by [__init__]. *)
Definition views : list string := ["front"; "left"; "back"; "right"]%string.

(** The capture loop on the camera stream, with the frames it leaves
    unread. *)
Fixpoint capture_loop_from (self : Reconstructor) (st : capture_state)
    (frames : list camera_frame) : result (loop_end * list camera_frame) :=
  match frames with
  | [] => mret (Waiting st, [])
  | f :: rest =>
      it ← loop_body self st f;
      match it with
      | Next st' => capture_loop_from self st' rest
      | Break why st' => mret (Broke why st', rest)
      | ReturnQuit => mret (Quit, rest)
      end
  end.

(** [auto_capture_view] on the camera stream, with the frames it leaves
    unread. *)
Definition auto_capture_view_from (self : Reconstructor)
    (frames : list camera_frame) : result (view_outcome * list camera_frame) :=
  '(e, rest) ← capture_loop_from self initial_state frames;
  match e with
  | Waiting st => mret (Pending st, rest)
  | Quit => mret (Returned true (false, None), rest)
  | Broke _ st =>
      match valid_landmarks_list st with
      | [] => mret (Returned false (false, None), rest)
      | _ =>
          averaged ← _average_landmarks (valid_landmarks_list st);
          mret (Returned false (true, averaged), rest)
      end
  end.

(** The characters [':'] and ['-']. *)
Definition colon : Ascii.ascii := Ascii.ascii_of_nat 58.
Definition hyphen : Ascii.ascii := Ascii.ascii_of_nat 45.

(** [str.replace(a, b)] for one-character [a] and [b]. *)
Fixpoint replace_char (a b : Ascii.ascii) (s : string) : string :=
  match s with
  | EmptyString => EmptyString
  | String c s' => String (if Ascii.eqb c a then b else c) (replace_char a b s')
  end.

(** The dict that [_save_measurements] dumps as JSON. *)
Record output_data : Type := OutputData {
  timestamp : string;
  saved_height_cm : float;
  measurements : gmap string float;
  capture_type : string
}.

(** [_save_measurements]: the name of the file inside [output_dir] and the
    data written to it; [now] is [datetime.now().isoformat()]. *)
Definition _save_measurements (self : Reconstructor)
    (self_measurements : gmap string float) (now : string) : string * output_data :=
  let output_data :=
    {| timestamp := now;
       saved_height_cm := user_height_cm self;
       measurements := self_measurements;
       capture_type := "4-view_auto-capture_circumference_only" |} in
  ("body_measurements_" +:+ replace_char colon hyphen now +:+ ".json", output_data).

(** How the loop over the views of [run_full_capture] ends. *)
Inductive views_end : Type :=
| ViewsWaiting                          (* blocked in [cap.read()] *)
| ViewsFailed (view : string) (capture_complete : bool)
                                        (* a view failed: [return False] *)
| ViewsDone (capture_complete : bool)
            (landmarks_dict : gmap string (option landmarks2d)).

(** "Capture all 4 views". *)
Fixpoint capture_views (self : Reconstructor) (capture_complete : bool)
    (remaining : list string) (landmarks_dict : gmap string (option landmarks2d))
    (frames : list camera_frame) : result views_end :=
  match remaining with
  | [] => mret (ViewsDone capture_complete landmarks_dict)
  | view :: remaining' =>
      if capture_complete then mret (ViewsDone capture_complete landmarks_dict)
      else
        '(outcome, rest) ← auto_capture_view_from self frames;
        match outcome with
        | Pending _ => mret ViewsWaiting
        | Returned quit (success, landmarks) =>
            if success
            then capture_views self quit remaining'
                               (<[view := landmarks]> landmarks_dict) rest
            else mret (ViewsFailed view quit)
        end
  end.

(** Why [run_full_capture] returned [False]: the line it printed. *)
Inductive failure : Type :=
| CaptureFailed (view : string)   (* "Failed to capture {view} view" *)
| CancelledByUser                 (* "Capture cancelled by user" *)
| ReconstructFailed               (* "Failed to reconstruct 3D landmarks" *)
| CalculateFailed.                (* "Failed to calculate measurements" *)

(** What [run_full_capture] has done after a finite run of frames. *)
Inductive session_outcome : Type :=
| SessionWaiting
| SessionFailed (capture_complete : bool) (why : failure)   (* [return False] *)
| SessionSaved (output_file : string) (output : output_data). (* [return True] *)

(** [landmarks_dict.get(view)]. *)
Definition dict_get_view (landmarks_dict : gmap string (option landmarks2d))
    (view : string) : option landmarks2d :=
  landmarks_dict !! view ≫= id.

(** [run_full_capture]: [capture_complete] is the attribute when the method
    is called ([False] on a fresh instance), [now] the time of saving. *)
Definition run_full_capture (self : Reconstructor) (capture_complete : bool)
    (now : string) (frames : list camera_frame) : result session_outcome :=
  e ← capture_views self capture_complete views ∅ frames;
  match e with
  | ViewsWaiting => mret SessionWaiting
  | ViewsFailed view quit => mret (SessionFailed quit (CaptureFailed view))
  | ViewsDone quit landmarks_dict =>
      if quit then mret (SessionFailed quit CancelledByUser)
      else
        landmarks_3d ← triangulate_4view (dict_get_view landmarks_dict "front")
                                         (dict_get_view landmarks_dict "left")
                                         (dict_get_view landmarks_dict "back")
                                         (dict_get_view landmarks_dict "right");
        match landmarks_3d with
        | None => mret (SessionFailed quit ReconstructFailed)
        | Some _ =>
            self_measurements ← calculate_circumference_only self landmarks_3d;
            match self_measurements with
            | None => mret (SessionFailed quit CalculateFailed)
            | Some m =>
                if decide (m = ∅) then mret (SessionFailed quit CalculateFailed)
                else
                  let '(output_file, output) := _save_measurements self m now in
                  mret (SessionSaved output_file output)
            end
        end
  end.

(** A view result with at least 28 joints, none missing. *)
Definition full_view (averaged : option landmarks2d) : Prop :=
  ∃ lms, averaged = Some lms ∧ 28 ≤ length lms ∧ Forall is_Some lms.

(** A view result with exactly [N] joints, none missing. *)
Definition full_view_of (N : nat) (averaged : option landmarks2d) : Prop :=
  ∃ lms, averaged = Some lms ∧ length lms = N ∧ Forall is_Some lms.

(** The pose model gives [N] landmarks whenever it finds a pose. *)
Definition pose_size (N : nat) (f : camera_frame) : Prop :=
  ∀ pose, pose_landmarks f = Some pose → length pose = N.

(** Whether a character occurs in a string. *)
Fixpoint has_char (c : Ascii.ascii) (s : string) : bool :=
  match s with
  | EmptyString => false
  | String c' s' => Ascii.eqb c' c || has_char c s'
  end.

End Session.

(** ** The analyzer: [CircumferenceAnalyzer]

    [np.log10] belongs to numpy, as the functions of [FloatLib] do. *)

Class LogLib : Type := {
  np_log10 : float -> float
}.

(** A dict of floats: its items, in order; the keys of a dict are
    distinct. *)
Abbreviation float_dict := (list (string * float)).

(** The JSON value of a measurement: a number, taken as the float of its
    value, or a value that is no number (null, a string, an array or an
    object). Booleans, which Python counts as integers, and integers that no
    float represents exactly are outside the model. *)
Inductive measurement_value : Type :=
| Number (x : float)
| NotNumber.

(** The JSON value under the key "circumferences": null, a boolean or a
    number, of which only the truth value matters, or an object. A string
    or an array under that key is outside the model. *)
Inductive circumferences_value : Type :=
| Scalar (truthy : bool)
| Measurements (items : list (string * measurement_value)).

(** A JSON object as [load_circumference_data] returns it: the keys the
    analyzer reads, each present or not. *)
Record session_file : Type := SessionFile {
  file_timestamp : option string;
  file_circumferences : option circumferences_value
}.

(** What [load_circumference_data] returns: the JSON value of the file, an
    object or not. *)
Inductive loaded_json : Type :=
| NotObject
| Session (file : session_file).

Section Analyzer.
Context {lib : FloatLib} {loglib : LogLib}.

(** [d.get(k)], and [k in d] and [d[k]] on a dict. *)
Fixpoint dict_get {V} (d : list (string * V)) (k : string) : option V :=
  match d with
  | [] => None
  | (k', v) :: d' => if decide (k' = k) then Some v else dict_get d' k
  end.

(** An entry of the lists of [compare_circumferences]. *)
Record change : Type := Change {
  ch_measurement : string;
  ch_previous : float;
  ch_current : float;
  ch_change : float;
  ch_change_percent : float
}.

(** The dict [compare_circumferences] returns. *)
Record comparison : Type := Comparison {
  improvements : list change;
  deterioration : list change;
  stable : list change
}.

(** The body of the loop of [compare_circumferences] from [change] on,
    when both values are floats. *)
Definition compare_entry (cmp : comparison) (measurement_name : string)
    (current_val previous_val : float) : comparison :=
  let change := (current_val - previous_val)%float in
  let result :=
    {| ch_measurement := measurement_name;
       ch_previous := py_round2 previous_val;
       ch_current := py_round2 current_val;
       ch_change := py_round2 change;
       ch_change_percent :=
         if negb (PrimFloat.eqb previous_val 0)
         then py_round2 (change / previous_val * 100)%float
         else 0%float |} in
  if PrimFloat.ltb (PrimFloat.abs change) 1 then
    {| improvements := improvements cmp; deterioration := deterioration cmp;
       stable := stable cmp ++ [result] |}
  else if PrimFloat.ltb change 0 then
    {| improvements := improvements cmp ++ [result];
       deterioration := deterioration cmp; stable := stable cmp |}
  else
    {| improvements := improvements cmp;
       deterioration := deterioration cmp ++ [result]; stable := stable cmp |}.

(** The body of the loop of [compare_circumferences]:
    [previous.get("circumferences", {})] is evaluated at each item, the
    membership test needs a container, and the subtraction needs two
    numbers. *)
Definition compare_item (previous : loaded_json) (cmp : comparison)
    (item : string * measurement_value) : result comparison :=
  let '(measurement_name, current_val) := item in
  match previous with
  | NotObject => Raise AttributeError
  | Session previous_file =>
      match file_circumferences previous_file with
      | None => mret cmp
      | Some (Scalar _) => Raise TypeError
      | Some (Measurements previous_items) =>
          match dict_get previous_items measurement_name with
          | None => mret cmp
          | Some previous_val =>
              match current_val, previous_val with
              | Number c, Number p => mret (compare_entry cmp measurement_name c p)
              | _, _ => Raise TypeError
              end
          end
      end
  end.

(** [compare_circumferences]. *)
Definition compare_circumferences (current previous : loaded_json)
    : result comparison :=
  let comparison := {| improvements := []; deterioration := []; stable := [] |} in
  match current with
  | NotObject => Raise AttributeError
  | Session current_file =>
      match file_circumferences current_file with
      | None => mret comparison
      | Some (Scalar _) => Raise TypeError
      | Some (Measurements items) => for_each (compare_item previous) comparison items
      end
  end.

(** An entry of the results of [batch_compare_measurements]. *)
Record session_comparison : Type := SessionComparison {
  sc_session : nat;
  sc_timestamp_previous : option string;
  sc_timestamp_current : option string;
  sc_comparison : comparison
}.

(** [data.get("timestamp")]. *)
Definition get_timestamp (data : loaded_json) : result (option string) :=
  match data with
  | NotObject => Raise AttributeError
  | Session file => mret (file_timestamp file)
  end.

(** [batch_compare_measurements]: [loads] is, file by file, what
    [load_circumference_data] returned, or [None] when it raised. The result
    is the error message or the list under "results". *)
Definition batch_compare_measurements (loads : list (option loaded_json))
    : result (string + list session_comparison) :=
  let measurements := not_None loads in
  if length measurements <? 2 then mret (inl "Need at least 2 measurements"%string)
  else
    comparison_results ←
      mapM (fun i =>
              current ← index measurements i;
              previous ← index measurements (i - 1);
              comparison ← compare_circumferences current previous;
              timestamp_previous ← get_timestamp previous;
              timestamp_current ← get_timestamp current;
              mret {| sc_session := i;
                      sc_timestamp_previous := timestamp_previous;
                      sc_timestamp_current := timestamp_current;
                      sc_comparison := comparison |})
           (seq 1 (length measurements - 1));
    mret (inr comparison_results).

(** [validate_circumference] on a loaded value: a name without a standard
    is answered before the value is looked at; with a standard the value is
    compared with the minimum, which needs a number. *)
Definition validate_loaded (measurement_name : string) (value : measurement_value)
    : result validation :=
  match CIRCUMFERENCE_STANDARDS !! measurement_name, value with
  | Some _, NotNumber => Raise TypeError
  | _, Number value_cm => mret (validate_circumference measurement_name value_cm)
  | None, NotNumber => mret (Validation true "No standard available" None None)
  end.

(** The colours of the second chart of [plot_circumferences], from the
    status of each measurement ([validation["status"]]). *)
Definition status_color (status : string) : string :=
  if decide (status = "ideal"%string) then "green"
  else if decide (status = "above_target"%string) then "orange"
  else if decide (status = "below_target"%string) then "lightblue"
  else "red".

(** The loop that fills [validation_status], and the colours made of it. *)
Fixpoint validation_colors (circumferences : list (string * measurement_value))
    : result (list string) :=
  match circumferences with
  | [] => mret []
  | (name, value) :: rest =>
      validation ← validate_loaded name value;
      match status validation with
      | None => Raise (KeyError "status")
      | Some st =>
          colors ← validation_colors rest;
          mret (status_color st :: colors)
      end
  end.

(** What [plot_circumferences] does: it returns at once, with nothing to
    plot, or it hands the names and the values to matplotlib for the bar
    chart and, when that is drawn, goes on with the loop over the statuses,
    which gives the colours of the second chart or raises. What matplotlib
    does with the values is outside the model. *)
Inductive plot_outcome : Type :=
| NothingToPlot
| BarChart (names : list string) (values : list measurement_value)
           (colors : result (list string)).

(** [plot_circumferences]: [circumferences.keys()] needs a dict. *)
Definition plot_circumferences (data : loaded_json) : result plot_outcome :=
  match data with
  | NotObject => Raise AttributeError
  | Session file =>
      match file_circumferences file with
      | None => mret NothingToPlot
      | Some (Scalar truthy) =>
          if truthy then Raise AttributeError else mret NothingToPlot
      | Some (Measurements []) => mret NothingToPlot
      | Some (Measurements circumferences) =>
          mret (BarChart circumferences.*1 circumferences.*2
                         (validation_colors circumferences))
      end
  end.

(** [str.upper] on ASCII letters. *)
Definition upper_char (c : Ascii.ascii) : Ascii.ascii :=
  let n := Ascii.nat_of_ascii c in
  if (97 <=? n) && (n <=? 122) then Ascii.ascii_of_nat (n - 32) else c.

Fixpoint upper (s : string) : string :=
  match s with
  | EmptyString => EmptyString
  | String c s' => String (upper_char c) (upper s')
  end.

(** The dict [calculate_body_fat_proxy] returns. *)
Inductive body_fat : Type :=
| BodyFatError (error : string)
| BodyFat (body_fat_percentage : float) (method accuracy_note : string).

(** [round(max(0, min(100, x)), 2)] on a [numpy.float64]: [0] and [100] are
    integers, which [round] leaves as they are. *)
Definition clamp_percentage (x : float) : float :=
  if PrimFloat.ltb x 100 then
    if PrimFloat.ltb 0 x then np_round2 x else 0%float
  else 100%float.

(** [calculate_body_fat_proxy]. *)
Definition calculate_body_fat_proxy (circumferences : float_dict)
    (height_cm : float) (gender : string) : body_fat :=
  let waist := default 0%float (dict_get circumferences "waist") in
  let hip := default 0%float (dict_get circumferences "hip") in
  let neck := (default 0%float (dict_get circumferences "arm_bicep") * 0.85)%float in
  if PrimFloat.eqb waist 0 || PrimFloat.eqb hip 0 then
    BodyFatError "Missing required measurements"
  else
    let bf_percentage :=
      if decide (upper gender = "M"%string) then
        (495 / (1.0324 - 0.19077 * np_log10 (waist - neck)
                + 0.15456 * np_log10 height_cm) - 450)%float
      else
        (495 / (1.29579 - 0.35004 * np_log10 (waist + hip - neck)
                + 0.22100 * np_log10 height_cm) - 450)%float in
    BodyFat (clamp_percentage bf_percentage)
            "circumference_based_estimation" "±5-10% accuracy".

End Analyzer.

(** ** The vocabulary of the analyzer's properties *)

Section AnalyzerVocabulary.
Context {lib : FloatLib}.

(** The items of a dict whose values are all numbers. *)
Definition numbers (items : list (string * measurement_value)) : option float_dict :=
  mapM (λ item, match item.2 with
                | Number x => Some (item.1, x)
                | NotNumber => None
                end) items.

(** The measurements of a loaded file that has the types the analyzer
    expects: an object whose "circumferences", when the key is present, is an
    object of numbers. *)
Definition float_items (data : loaded_json) : option float_dict :=
  match data with
  | NotObject => None
  | Session file =>
      match file_circumferences file with
      | None => Some []
      | Some (Scalar _) => None
      | Some (Measurements items) => numbers items
      end
  end.

(** A dict of floats as the items of a loaded object. *)
Definition loaded_items (cs : float_dict) : list (string * measurement_value) :=
  (λ item, (item.1, Number item.2)) <$> cs.


(** The names in the three lists of a comparison. *)
Definition compared_names (cmp : comparison) : list string :=
  ch_measurement <$> (improvements cmp ++ deterioration cmp ++ stable cmp).

(** The names of [current] that [previous] has too, in the order of
    [current]. *)
Definition common_names (current previous : float_dict) : list string :=
  filter (λ name, is_Some (dict_get previous name)) current.*1.

(** [r] is the entry of an item of [current] that [previous] has too, and
    the difference of the two values satisfies [P]. *)
Definition compared (current previous : float_dict) (P : float → Prop)
    (r : change) : Prop :=
  ∃ current_val previous_val,
    (ch_measurement r, current_val) ∈ current
    ∧ dict_get previous (ch_measurement r) = Some previous_val
    ∧ P (current_val - previous_val)%float.

(** The statuses of a value out of range. *)
Definition out_of_range (st : string) : Prop :=
  st = "too_small"%string ∨ st = "too_large"%string.

(** The statuses of a value in range. *)
Definition in_range (st : string) : Prop :=
  st = "ideal"%string ∨ st = "above_target"%string ∨ st = "below_target"%string.

(** A value that [not v] takes for missing: the key is absent, or the
    value is zero. *)
Definition absent_or_zero (v : option float) : Prop :=
  match v with
  | None => True
  | Some x => PrimFloat.eqb x 0 = true
  end.

End AnalyzerVocabulary.

(** ** Sample sessions *)

Module SampleSessions.

Definition first_session : loaded_json :=
  Session {| file_timestamp := Some "2024-01-01T10:00:00"%string;
             file_circumferences :=
               Some (Measurements [("chest", Number 96); ("waist", Number 84);
                                   ("hip", Number 100)]%string) |}.

Definition second_session : loaded_json :=
  Session {| file_timestamp := Some "2024-02-01T10:00:00"%string;
             file_circumferences :=
               Some (Measurements [("chest", Number 96.5); ("waist", Number 81);
                                   ("calf", Number 38)]%string) |}.

(** A file whose "circumferences" is null. *)
Definition null_session : loaded_json :=
  Session {| file_timestamp := Some "2024-03-01T10:00:00"%string;
             file_circumferences := Some (Scalar false) |}.

End SampleSessions.

(** * Properties *)

Section Properties.
Context {lib : FloatLib}.

(** *** The result monad *)

Lemma bind_Ok {A B} (f : A → result B) (a : A) : (Ok a ≫= f) = f a.
Proof. reflexivity. Qed.

Lemma Ok_inj {A} (a b : A) : Ok a = Ok b → a = b.
Proof. by intros [= ->]. Qed.

Lemma bind_Ok_inv {A B} (f : A → result B) (m : result A) (b : B) :
  (m ≫= f) = Ok b → ∃ a, m = Ok a ∧ f a = Ok b.
Proof. destruct m as [a|e]; [eauto | discriminate]. Qed.

Lemma index_Ok {A} (l : list A) (i : nat) (a : A) :
  l !! i = Some a → index l i = Ok a.
Proof. unfold index. intros ->. reflexivity. Qed.

Lemma index_lt {A} (l : list A) (i : nat) :
  i < length l → ∃ a, l !! i = Some a ∧ index l i = Ok a.
Proof.
  intros Hi. destruct (lookup_lt_is_Some_2 l i Hi) as [a Ha].
  exists a. split; [exact Ha | by apply index_Ok].
Qed.

(** A loop that appends one computed entry per element never raises when
    no entry does. *)
Lemma mapM_Ok {A B} (f : A → result B) (g : A → B) (l : list A) :
  (∀ x, x ∈ l → f x = Ok (g x)) → mapM f l = Ok (g <$> l).
Proof.
  induction l as [|x l IH]; intros Hf; [reflexivity|].
  simpl. rewrite (Hf x) by set_solver. rewrite bind_Ok.
  rewrite IH by (intros y Hy; apply Hf; set_solver). reflexivity.
Qed.

Lemma not_None_length_le {A} (l : list (option A)) :
  length (not_None l) ≤ length l.
Proof.
  induction l as [|[a|] l IH]; simpl; [lia| |].
  - unfold not_None in *. simpl. lia.
  - unfold not_None in *. simpl. lia.
Qed.

(** *** Pose quality *)

Lemma extract_not_None (self : Reconstructor) (pose : list landmark) (shape : Z * Z) :
  ∃ lms, extract_landmarks_2d self (Some pose) shape = Some lms
    ∧ length lms = length pose
    ∧ lm_visibility <$> not_None lms
        = filter (λ v, PrimFloat.ltb (min_visibility_score self) v = true)
                 (lm_visibility <$> pose).
Proof.
  destruct shape as [h w]. eexists. split; [reflexivity|]. split.
  - by rewrite length_fmap.
  - induction pose as [|l pose IH]; [reflexivity|].
    rewrite !fmap_cons. rewrite filter_cons.
    destruct (PrimFloat.ltb (min_visibility_score self) (lm_visibility l)) eqn:Hv.
    + rewrite decide_True by done. unfold not_None in *. simpl.
      f_equal. exact IH.
    + rewrite decide_False by (intros ?; congruence). unfold not_None in *. simpl.
      exact IH.
Qed.

Lemma assess_enough (self : Reconstructor) (lms : landmarks2d) :
  24 ≤ min_joints_visible self →
  min_joints_visible self ≤ length (not_None lms) →
  ∃ issues,
    assess_pose_quality self (Some lms)
    = Ok (bool_decide (issues = [])
            && PrimFloat.ltb 0.7 (np_mean (lm_visibility <$> not_None lms)),
          np_mean (lm_visibility <$> not_None lms), issues).
Proof.
  intros Hmin Hcount. unfold assess_pose_quality.
  pose proof (not_None_length_le lms) as Hle.
  destruct (Nat.ltb_spec (length (not_None lms)) (min_joints_visible self)) as [?|_];
    [lia|].
  destruct (index_lt lms 0 ltac:(lia)) as (h & _ & Hh).
  destruct (index_lt lms 11 ltac:(lia)) as (s & _ & Hs).
  destruct (index_lt lms 23 ltac:(lia)) as (p & _ & Hp).
  assert (∃ i1, head_issue lms = Ok i1) as [i1 ->].
  { unfold head_issue. rewrite Hh. eexists. reflexivity. }
  assert (∃ i2, torso_issue lms = Ok i2) as [i2 ->].
  { unfold torso_issue. rewrite Hs, bind_Ok. destruct s; [rewrite Hp|]; eexists; reflexivity. }
  rewrite !bind_Ok. exists (i1 ++ i2).
  destruct (lm_visibility <$> not_None lms) as [|v vs] eqn:Hvs.
  - apply (f_equal length) in Hvs. rewrite length_fmap in Hvs. simpl in Hvs. lia.
  - unfold mret, result_ret. do 3 f_equal.
    f_equal. apply bool_decide_ext. destruct (i1 ++ i2); simpl; split; intros; try done; lia.
Qed.

(** C8. Pose quality: with fewer than 28 landmarks present the assessment
    fails at once with score 0 and the single issue "Not enough joints:
    k/28"; otherwise the score is the mean of the visibility of the present
    landmarks and the pose is valid exactly when no issue was raised and
    the score is above 0.7. The present landmarks of an extracted frame are
    those whose visibility is above 0.75. *)
Theorem assess_pose_quality_report (H : float) (lms : landmarks2d) :
  let present := not_None lms in
  let score := np_mean (lm_visibility <$> present) in
  (if bool_decide (length present < 28) then
     assess_pose_quality (init H) (Some lms)
     = Ok (false, 0%float,
           ["Not enough joints: " +:+ pretty (length present) +:+ "/28"])
   else
     ∃ issues,
       assess_pose_quality (init H) (Some lms)
       = Ok (bool_decide (issues = []) && PrimFloat.ltb 0.7 score, score, issues))
  ∧ (∀ (pose : list landmark) (shape : Z * Z),
       ∃ extracted,
         extract_landmarks_2d (init H) (Some pose) shape = Some extracted
         ∧ length extracted = length pose
         ∧ lm_visibility <$> not_None extracted
             = filter (λ v, PrimFloat.ltb 0.75 v = true) (lm_visibility <$> pose)).
Proof.
  intros present score. split.
  - case_bool_decide as Hk.
    + unfold assess_pose_quality. simpl min_joints_visible.
      destruct (Nat.ltb_spec (length (not_None lms)) 28) as [_|?]; [|subst present; lia].
      reflexivity.
    + apply assess_enough; simpl; subst present; lia.
  - intros pose shape. apply (extract_not_None (init H)).
Qed.

(** *** Averaging a burst *)

Lemma not_None_fmap {A B} (g : A → option B) (l : list A) :
  not_None (g <$> l) = omap g l.
Proof.
  unfold not_None. induction l as [|a l IH]; [reflexivity|].
  rewrite fmap_cons. cbn [omap list_omap]. rewrite IH. reflexivity.
Qed.

Lemma valid_points_Ok (frames : list landmarks2d) (N idx : nat) :
  Forall (λ frame, length frame = N) frames → idx < N →
  valid_points frames idx = Ok (present_at idx frames).
Proof.
  intros Hlen Hidx. unfold valid_points.
  rewrite (mapM_Ok _ (λ frame : landmarks2d, frame !! idx ≫= id)).
  - rewrite bind_Ok, not_None_fmap. reflexivity.
  - intros frame Hin. rewrite Forall_forall in Hlen.
    destruct (index_lt frame idx) as (c & Hc & ->); [rewrite (Hlen _ Hin); lia|].
    rewrite Hc. reflexivity.
Qed.

Lemma present_at_nil (idx : nat) (frames : list landmarks2d) :
  (∀ frame, frame ∈ frames → frame !! idx = Some None) → present_at idx frames = [].
Proof.
  unfold present_at. induction frames as [|f frames IH]; intros Habs; [reflexivity|].
  simpl. rewrite (Habs f) by set_solver. simpl.
  apply IH. intros g Hg. apply Habs. set_solver.
Qed.

Lemma present_at_frames_with (idx : nat) (frames : list landmarks2d) :
  Some <$> present_at idx frames
  = (λ frame : landmarks2d, frame !! idx ≫= id) <$> frames_with idx frames.
Proof.
  unfold present_at, frames_with. induction frames as [|f frames IH]; [reflexivity|].
  rewrite filter_cons. cbn [omap list_omap].
  destruct (f !! idx ≫= id) as [p|] eqn:Hp.
  - rewrite decide_True by eauto. rewrite !fmap_cons, Hp, IH. reflexivity.
  - rewrite decide_False by (intros [? ?]; discriminate). exact IH.
Qed.

(** C3. Averaging a non-empty burst of frames of length [N] gives a
    landmark list of length [N]; joint by joint, the entry is absent when
    the joint is absent in every frame, and otherwise each of x, y, z and
    visibility is the mean of that field over exactly the frames in which
    the joint is present. *)
Theorem average_landmarks_per_joint (landmarks_list : list landmarks2d) (N : nat) :
  landmarks_list ≠ [] →
  Forall (λ frame, length frame = N) landmarks_list →
  ∃ averaged,
    _average_landmarks landmarks_list = Ok (Some averaged)
    ∧ length averaged = N
    ∧ ∀ idx, idx < N →
        let pts := present_at idx landmarks_list in
        Some <$> pts
          = (λ frame : landmarks2d, frame !! idx ≫= id) <$> frames_with idx landmarks_list
        ∧ ((∀ frame, frame ∈ landmarks_list → frame !! idx = Some None) →
           averaged !! idx = Some None)
        ∧ (0 < length (frames_with idx landmarks_list) →
           length pts = length (frames_with idx landmarks_list)
           ∧ averaged !! idx
             = Some (Some {| lm_x := np_mean (lm_x <$> pts);
                             lm_y := np_mean (lm_y <$> pts);
                             lm_z := np_mean (lm_z <$> pts);
                             lm_visibility := np_mean (lm_visibility <$> pts) |})).
Proof.
  intros Hne Hlen. destruct landmarks_list as [|first rest]; [done|].
  assert (length first = N) as HN by (by inversion Hlen).
  set (frames := first :: rest) in *.
  exists ((λ idx, average_point (present_at idx frames)) <$> seq 0 N).
  assert (∀ idx, idx < N →
            ((λ idx, average_point (present_at idx frames)) <$> seq 0 N) !! idx
            = Some (average_point (present_at idx frames))) as Hlook.
  { intros idx Hidx. rewrite list_lookup_fmap, lookup_seq_lt by done. reflexivity. }
  split; [|split].
  - unfold _average_landmarks. subst frames. cbv iota beta. rewrite HN.
    rewrite (mapM_Ok _ (λ idx, average_point (present_at idx (first :: rest)))).
    + reflexivity.
    + intros idx Hin. apply elem_of_seq in Hin.
      rewrite (valid_points_Ok _ N) by (done || lia). reflexivity.
  - by rewrite length_fmap, length_seq.
  - intros idx Hidx pts. pose proof (present_at_frames_with idx frames) as Hpts.
    split; [exact Hpts|]. split.
    + intros Habs. rewrite Hlook by done. subst pts.
      rewrite present_at_nil by done. reflexivity.
    + intros Hk. apply (f_equal length) in Hpts. rewrite !length_fmap in Hpts.
      split; [exact Hpts|]. rewrite Hlook by done. subst pts.
      destruct (present_at idx frames); [simpl in Hpts; lia|reflexivity].
Qed.

(** *** Combining the four views *)

Lemma index_joint {A} (view : list (option A)) (idx : nat) :
  idx < length view → index view idx = Ok (joint view idx).
Proof.
  intros Hidx. destruct (index_lt view idx Hidx) as (c & Hc & ->).
  unfold joint. rewrite Hc. reflexivity.
Qed.

Lemma truthy_nonempty {A} (l : list A) : 0 < length l → truthy (Some l) = true.
Proof. destruct l; simpl; [lia | reflexivity]. Qed.

(** C4. Combining the views fails (returns [None]) when any view is
    missing; with four views of the same non-zero length the result has
    that length and, joint by joint, is the mean [(f + l + b + r) / 4] of
    the x, y and z of the four views, without a visibility, when the joint
    is present in all four, and is absent when it is missing in any view. *)
Theorem triangulate_4view_all_four (fr le ba ri : landmarks2d) (N : nat) :
  0 < N →
  length fr = N → length le = N → length ba = N → length ri = N →
  (∀ a b c : option landmarks2d,
     triangulate_4view None a b c = Ok None
     ∧ triangulate_4view a None b c = Ok None
     ∧ triangulate_4view a b None c = Ok None
     ∧ triangulate_4view a b c None = Ok None)
  ∧ ∃ landmarks_3d,
      triangulate_4view (Some fr) (Some le) (Some ba) (Some ri) = Ok (Some landmarks_3d)
      ∧ length landmarks_3d = N
      ∧ ∀ idx, idx < N →
          (∀ f l b r,
             joint fr idx = Some f → joint le idx = Some l →
             joint ba idx = Some b → joint ri idx = Some r →
             landmarks_3d !! idx
             = Some (Some {| p_x := (lm_x f + lm_x l + lm_x b + lm_x r) / 4;
                             p_y := (lm_y f + lm_y l + lm_y b + lm_y r) / 4;
                             p_z := (lm_z f + lm_z l + lm_z b + lm_z r) / 4 |}%float))
          ∧ (joint fr idx = None ∨ joint le idx = None
             ∨ joint ba idx = None ∨ joint ri idx = None →
             landmarks_3d !! idx = Some None).
Proof.
  intros HN Hfr Hle Hba Hri. split.
  - intros a b c. repeat split; destruct a, b, c; reflexivity.
  - set (g := λ idx, combine_point (joint fr idx) (joint le idx)
                                   (joint ba idx) (joint ri idx)).
    exists (g <$> seq 0 N). split; [|split].
    + unfold triangulate_4view.
      rewrite !truthy_nonempty by lia. cbn [andb]. rewrite Hfr.
      rewrite (mapM_Ok _ g); [reflexivity|].
      intros idx Hin. apply elem_of_seq in Hin.
      rewrite !index_joint by lia. reflexivity.
    + by rewrite length_fmap, length_seq.
    + intros idx Hidx.
      rewrite list_lookup_fmap, lookup_seq_lt by done. simpl. unfold g. split.
      * intros f l b r -> -> -> ->. reflexivity.
      * intros Habs. do 2 f_equal.
        destruct (joint fr idx), (joint le idx), (joint ba idx), (joint ri idx);
          try reflexivity; destruct Habs as [?|[?|[?|?]]]; discriminate.
Qed.

(** *** Measurements *)

Lemma float_pow2_cases (d : float) :
  (square_in_range d ∧ float_pow2 d = Ok (square d))
  ∨ (¬ square_in_range d ∧ float_pow2 d = Raise OverflowError).
Proof.
  unfold float_pow2, square_in_range, square, PrimFloat.is_finite.
  destruct (PrimFloat.is_nan d); [left; split; [discriminate | reflexivity]|].
  destruct (PrimFloat.is_infinity d); [left; split; [discriminate | reflexivity]|].
  destruct (PrimFloat.is_zero d); [left; split; [reflexivity | reflexivity]|].
  destruct (PrimFloat.eqb (PrimFloat.abs d) 1); [left; split; reflexivity|].
  destruct (PrimFloat.is_infinity (float_sq (PrimFloat.abs d))) eqn:Hinf.
  - right. split; [|reflexivity]. intros Hrange. by specialize (Hrange eq_refl).
  - left. split; [done | reflexivity].
Qed.

Lemma distance3_cases (a b : point3) :
  (measurable a b ∧ distance3 a b = Ok (euclidean a b))
  ∨ (¬ measurable a b ∧ distance3 a b = Raise OverflowError).
Proof.
  unfold distance3, measurable, euclidean.
  destruct (float_pow2_cases (p_x a - p_x b)) as [[Hx ->]|[Hx ->]];
    [|right; split; [tauto | reflexivity]].
  rewrite bind_Ok.
  destruct (float_pow2_cases (p_y a - p_y b)) as [[Hy ->]|[Hy ->]];
    [|right; split; [tauto | reflexivity]].
  rewrite bind_Ok.
  destruct (float_pow2_cases (p_z a - p_z b)) as [[Hz ->]|[Hz ->]];
    [|right; split; [tauto | reflexivity]].
  left. done.
Qed.

(** The scale factor on a landmark list with the head-top and foot indices
    in range. *)
Lemma scale_factor_cases (self : Reconstructor) (lms : landmarks3d) :
  29 < length lms →
  ((∀ head foot,
      joint lms 0 = Some head → joint lms 29 = Some foot → measurable head foot)
   ∧ scale_factor self lms = Ok (scale_of (user_height_cm self) lms))
  ∨ ((∃ head foot,
        joint lms 0 = Some head ∧ joint lms 29 = Some foot ∧ ¬ measurable head foot)
     ∧ scale_factor self lms = Raise OverflowError).
Proof.
  intros Hlen. unfold scale_factor, scale_of.
  rewrite (index_joint lms 0), (index_joint lms 29) by lia. rewrite bind_Ok.
  destruct (joint lms 0) as [h|]; [|left; split; [discriminate | reflexivity]].
  rewrite bind_Ok.
  destruct (joint lms 29) as [f|]; [|left; split; [discriminate | reflexivity]].
  destruct (distance3_cases h f) as [[Hm ->]|[Hm ->]].
  - left. split; [by intros ?? [= <-] [= <-] | reflexivity].
  - right. split; [by exists h, f | reflexivity].
Qed.

Lemma measure_entry_joints (lms : landmarks3d) (scale : float)
    (m : gmap string float) (name : string) (cfg : circ_config) :
  measure_entry lms scale m (name, cfg)
  = match joint lms (indices cfg).1, joint lms (indices cfg).2 with
    | Some p1, Some p2 =>
        width ← distance3 p1 p2;
        mret (<[name := np_round2 (width * ratio cfg * scale)%float]> m)
    | _, _ => mret m
    end.
Proof.
  unfold measure_entry, joint. destruct (indices cfg) as [i1 i2]. cbn [fst snd].
  destruct (Nat.ltb_spec i1 (length lms)) as [H1|H1]; cbn [andb].
  - destruct (Nat.ltb_spec i2 (length lms)) as [H2|H2].
    + destruct (lms !! i1) as [[p1|]|]; try reflexivity.
      destruct (lms !! i2) as [[p2|]|]; reflexivity.
    + rewrite (lookup_ge_None_2 lms i2) by lia.
      destruct (lms !! i1 ≫= id); reflexivity.
  - rewrite (lookup_ge_None_2 lms i1) by lia. reflexivity.
Qed.

Lemma measure_entry_cases (lms : landmarks3d) (scale : float)
    (m : gmap string float) (name : string) (cfg : circ_config) :
  ((∀ p1 p2, joint lms (indices cfg).1 = Some p1 →
             joint lms (indices cfg).2 = Some p2 → measurable p1 p2)
   ∧ measure_entry lms scale m (name, cfg) = Ok (with_entry lms scale m (name, cfg)))
  ∨ ((∃ p1 p2, joint lms (indices cfg).1 = Some p1
               ∧ joint lms (indices cfg).2 = Some p2 ∧ ¬ measurable p1 p2)
     ∧ measure_entry lms scale m (name, cfg) = Raise OverflowError).
Proof.
  rewrite measure_entry_joints. unfold with_entry, measured. cbn [fst snd].
  destruct (joint lms (indices cfg).1) as [p1|];
    [|left; split; [discriminate | reflexivity]].
  destruct (joint lms (indices cfg).2) as [p2|];
    [|left; split; [discriminate | reflexivity]].
  destruct (distance3_cases p1 p2) as [[Hm ->]|[Hm ->]].
  - left. split; [by intros ?? [= <-] [= <-] | reflexivity].
  - right. split; [by exists p1, p2 | reflexivity].
Qed.

Lemma for_each_measure_cases (lms : landmarks3d) (scale : float)
    (pts : list (string * circ_config)) (m : gmap string float) :
  ((∀ name cfg p1 p2,
      (name, cfg) ∈ pts →
      joint lms (indices cfg).1 = Some p1 →
      joint lms (indices cfg).2 = Some p2 → measurable p1 p2)
   ∧ for_each (measure_entry lms scale) m pts = Ok (foldl (with_entry lms scale) m pts))
  ∨ ((∃ name cfg p1 p2,
        (name, cfg) ∈ pts
        ∧ joint lms (indices cfg).1 = Some p1
        ∧ joint lms (indices cfg).2 = Some p2 ∧ ¬ measurable p1 p2)
     ∧ for_each (measure_entry lms scale) m pts = Raise OverflowError).
Proof.
  revert m. induction pts as [|[name cfg] pts IH]; intros m.
  - left. split; [|reflexivity]. intros ???? Hin. by apply elem_of_nil in Hin.
  - cbn [for_each foldl].
    destruct (measure_entry_cases lms scale m name cfg) as [[Hhere ->]|[Hhere ->]].
    + rewrite bind_Ok.
      destruct (IH (with_entry lms scale m (name, cfg))) as [[Hrest ->]|[Hrest ->]].
      * left. split; [|reflexivity]. intros n c p1 p2 Hin H1 H2.
        apply elem_of_cons in Hin as [[= -> ->]|Hin]; [by apply Hhere | by eapply Hrest].
      * right. split; [|reflexivity].
        destruct Hrest as (n & c & p1 & p2 & Hin & H1 & H2 & Hm).
        exists n, c, p1, p2. split; [by apply list_elem_of_further | done].
    + right. split; [|reflexivity]. destruct Hhere as (p1 & p2 & H1 & H2 & Hm).
      exists name, cfg, p1, p2. split; [apply list_elem_of_here | done].
Qed.

Lemma foldl_with_entry_lookup (lms : landmarks3d) (scale : float)
    (pts : list (string * circ_config)) (m : gmap string float) (name : string) :
  NoDup pts.*1 →
  foldl (with_entry lms scale) m pts !! name
  = match (list_to_map pts : gmap string circ_config) !! name ≫= measured lms scale with
    | Some v => Some v
    | None => m !! name
    end.
Proof.
  revert m. induction pts as [|[k c] pts IH]; intros m Hnd; [reflexivity|].
  rewrite fmap_cons, NoDup_cons in Hnd. destruct Hnd as [Hk Hnd].
  cbn [foldl]. rewrite list_to_map_cons, IH by done. unfold with_entry. cbn [fst snd].
  destruct (decide (name = k)) as [->|Hne].
  - rewrite (not_elem_of_list_to_map_1 pts k) by done. rewrite lookup_insert_eq.
    simpl. destruct (measured lms scale c); [apply lookup_insert_eq | reflexivity].
  - rewrite lookup_insert_ne by done.
    destruct (_ ≫= _); [reflexivity|].
    destruct (measured lms scale c); [by apply lookup_insert_ne | reflexivity].
Qed.

Lemma CIRCUMFERENCE_POINTS_NoDup (H : float) :
  NoDup (CIRCUMFERENCE_POINTS (init H)).*1.
Proof. apply (bool_decide_unpack _). vm_compute. reflexivity. Qed.

(** The measurement engine on a landmark list with the head-top and foot
    indices in range: either every distance it takes is in the float range,
    and the result has one value per calibration entry whose joints are both
    present, or one is not, and [OverflowError] is raised. *)
Lemma calculate_cases (H : float) (lms : landmarks3d) :
  29 < length lms →
  (squares_in_range (init H) lms
   ∧ ∃ measurements,
       scale_factor (init H) lms = Ok (scale_of H lms)
       ∧ calculate_circumference_only (init H) (Some lms) = Ok (Some measurements)
       ∧ ∀ name,
           measurements !! name
           = (list_to_map (CIRCUMFERENCE_POINTS (init H)) : gmap string circ_config) !! name
               ≫= measured lms (scale_of H lms))
  ∨ (¬ squares_in_range (init H) lms
     ∧ calculate_circumference_only (init H) (Some lms) = Raise OverflowError).
Proof.
  intros Hlen. unfold calculate_circumference_only, squares_in_range.
  destruct (scale_factor_cases (init H) lms Hlen) as [[Hscale Hs]|[Hscale Hs]];
    rewrite Hs.
  - rewrite bind_Ok. cbn [user_height_cm init].
    destruct (for_each_measure_cases lms (scale_of H lms)
                (CIRCUMFERENCE_POINTS (init H)) ∅) as [[Hpts Hf]|[Hpts Hf]];
      cbn [CIRCUMFERENCE_POINTS init] in Hf |- *; rewrite Hf.
    + left. split; [by split|]. eexists. split; [reflexivity|]. split; [reflexivity|].
      intros name. rewrite (foldl_with_entry_lookup lms _ _ ∅ name)
        by apply (CIRCUMFERENCE_POINTS_NoDup H).
      destruct (_ ≫= _); [reflexivity | apply lookup_empty].
    + right. split; [|reflexivity]. intros [_ Hall].
      destruct Hpts as (n & c & p1 & p2 & Hin & H1 & H2 & Hm). by eapply Hm, Hall.
  - right. split; [|reflexivity]. intros [Hall _].
    destruct Hscale as (h & f & Hh & Hf & Hm). by eapply Hm, Hall.
Qed.

Lemma calculate_lookup (H : float) (lms : landmarks3d) :
  29 < length lms →
  squares_in_range (init H) lms →
  ∃ measurements,
    calculate_circumference_only (init H) (Some lms) = Ok (Some measurements)
    ∧ ∀ name,
        measurements !! name
        = (list_to_map (CIRCUMFERENCE_POINTS (init H)) : gmap string circ_config) !! name
            ≫= measured lms (scale_of H lms).
Proof.
  intros Hlen Hrange.
  destruct (calculate_cases H lms Hlen) as [(_ & m & _ & Hcalc & Hm)|[Hn _]]; [|done].
  by exists m.
Qed.

Lemma calibration_entry (H : float) (name : string) (cfg : circ_config) :
  (name, cfg) ∈ CIRCUMFERENCE_POINTS (init H)
  ↔ (list_to_map (CIRCUMFERENCE_POINTS (init H)) : gmap string circ_config) !! name
    = Some cfg.
Proof. apply elem_of_list_to_map, CIRCUMFERENCE_POINTS_NoDup. Qed.

Lemma measured_entry (H : float) (lms : landmarks3d) (scale : float)
    (name : string) (v : float) :
  (list_to_map (CIRCUMFERENCE_POINTS (init H)) : gmap string circ_config) !! name
    ≫= measured lms scale = Some v
  ↔ ∃ cfg p1 p2,
      (name, cfg) ∈ CIRCUMFERENCE_POINTS (init H)
      ∧ joint lms (indices cfg).1 = Some p1
      ∧ joint lms (indices cfg).2 = Some p2
      ∧ v = np_round2 (euclidean p1 p2 * ratio cfg * scale)%float.
Proof.
  split.
  - intros Hv. apply bind_Some in Hv as (cfg & Hcfg & Hv).
    apply calibration_entry in Hcfg. unfold measured in Hv.
    destruct (joint lms (indices cfg).1) as [p1|] eqn:H1; [|discriminate].
    destruct (joint lms (indices cfg).2) as [p2|] eqn:H2; [|discriminate].
    exists cfg, p1, p2. split; [done|]. split; [done|]. split; [done|]. congruence.
  - intros (cfg & p1 & p2 & Hcfg & H1 & H2 & ->).
    apply calibration_entry in Hcfg. rewrite Hcfg. simpl.
    unfold measured. rewrite H1, H2. reflexivity.
Qed.

(** C1. With user height [H], whenever the measurement engine returns a
    result, the scale it used is [H / d] when the head-top joint (0) and the
    foot joint (29) are both present and their Euclidean distance [d] is
    strictly positive, and [1.0] otherwise, and the measurements are exactly,
    for each calibration entry whose two joints are present at Euclidean
    distance [w], the value [round(w * ratio * scale, 2)]. It returns a
    result when the squares of the coordinate differences are in the float
    range, and raises [OverflowError] when one is not. *)
Theorem circumference_scaled_by_height (H : float) (lms : landmarks3d) :
  29 < length lms →
  (∀ measurements,
     calculate_circumference_only (init H) (Some lms) = Ok (Some measurements) →
     ∃ scale,
       scale_factor (init H) lms = Ok scale
       ∧ (∀ head foot,
            joint lms 0 = Some head → joint lms 29 = Some foot →
            scale = if PrimFloat.ltb 0 (euclidean head foot)
                    then (H / euclidean head foot)%float
                    else 1%float)
       ∧ (joint lms 0 = None ∨ joint lms 29 = None → scale = 1%float)
       ∧ ∀ name v,
           measurements !! name = Some v
           ↔ ∃ cfg p1 p2,
               (name, cfg) ∈ CIRCUMFERENCE_POINTS (init H)
               ∧ joint lms (indices cfg).1 = Some p1
               ∧ joint lms (indices cfg).2 = Some p2
               ∧ v = np_round2 (euclidean p1 p2 * ratio cfg * scale)%float)
  ∧ (squares_in_range (init H) lms →
     ∃ measurements,
       calculate_circumference_only (init H) (Some lms) = Ok (Some measurements))
  ∧ (¬ squares_in_range (init H) lms →
     calculate_circumference_only (init H) (Some lms) = Raise OverflowError).
Proof.
  intros Hlen.
  destruct (calculate_cases H lms Hlen)
    as [(Hrange & m & Hscale & Hcalc & Hm)|[Hrange Hcalc]].
  - split; [|split; [by exists m | done]].
    intros m' Hcalc'. rewrite Hcalc in Hcalc'. apply Ok_inj, (inj Some) in Hcalc'.
    subst m'. exists (scale_of H lms). split; [exact Hscale|]. split; [|split].
    + intros head foot Hh Hf. unfold scale_of. rewrite Hh, Hf. reflexivity.
    + intros Habs. unfold scale_of.
      destruct Habs as [-> | Hf]; [reflexivity|]. rewrite Hf.
      destruct (joint lms 0); reflexivity.
    + intros name v. rewrite Hm. apply measured_entry.
  - split; [|split; [done | by intros _]].
    intros m' Hcalc'. rewrite Hcalc in Hcalc'. discriminate.
Qed.

(** C7. When either joint of a calibration entry is absent, the entry is
    passed over without an error, and the entry's name is not a key of any
    result the measurement engine returns. The engine returns a result when
    the squares of the coordinate differences of the joints that are present
    are in the float range; the only error it raises otherwise is the
    [OverflowError] of such a square. *)
Theorem circumference_absent_joint_omitted (H : float) (lms : landmarks3d)
    (name : string) (cfg : circ_config) :
  29 < length lms →
  (name, cfg) ∈ CIRCUMFERENCE_POINTS (init H) →
  joint lms (indices cfg).1 = None ∨ joint lms (indices cfg).2 = None →
  (∀ scale m, measure_entry lms scale m (name, cfg) = Ok m)
  ∧ (∀ measurements,
       calculate_circumference_only (init H) (Some lms) = Ok (Some measurements) →
       measurements !! name = None ∧ name ∉ dom measurements)
  ∧ (squares_in_range (init H) lms →
     ∃ measurements,
       calculate_circumference_only (init H) (Some lms) = Ok (Some measurements))
  ∧ (∀ e, calculate_circumference_only (init H) (Some lms) = Raise e →
          e = OverflowError ∧ ¬ squares_in_range (init H) lms).
Proof.
  intros Hlen Hcfg Habs. split; [|split; [|split]].
  - intros scale m. rewrite measure_entry_joints.
    destruct Habs as [-> | ->]; [reflexivity|].
    destruct (joint lms (indices cfg).1); reflexivity.
  - intros m Hcalc.
    destruct (calculate_cases H lms Hlen) as [(_ & m' & _ & Hcalc' & Hm)|[_ Hraise]];
      [|rewrite Hraise in Hcalc; discriminate].
    rewrite Hcalc' in Hcalc. apply Ok_inj, (inj Some) in Hcalc. subst m'.
    assert (m !! name = None) as Hnone.
    { rewrite Hm. apply calibration_entry in Hcfg. rewrite Hcfg. simpl.
      unfold measured. destruct Habs as [-> | ->]; [reflexivity|].
      destruct (joint lms (indices cfg).1); reflexivity. }
    split; [exact Hnone | by apply not_elem_of_dom].
  - intros Hrange. destruct (calculate_lookup H lms Hlen Hrange) as (m & Hcalc & _).
    by exists m.
  - intros e Hraise.
    destruct (calculate_cases H lms Hlen) as [(_ & m & _ & Hcalc & _)|[Hrange Hcalc]];
      rewrite Hcalc in Hraise; [discriminate|].
    injection Hraise as <-. done.
Qed.

(** C9. The "waist" and "hip" entries have the same joint pair (23, 24)
    and the same ratio 1.35: in every result the measurement engine returns,
    "waist" is present exactly when "hip" is, with the same value; and it
    returns a result when the squares of the coordinate differences are in
    the float range. *)
Theorem waist_equals_hip (H : float) (lms : landmarks3d) :
  29 < length lms →
  (∃ waist hip,
     ("waist"%string, waist) ∈ CIRCUMFERENCE_POINTS (init H)
     ∧ ("hip"%string, hip) ∈ CIRCUMFERENCE_POINTS (init H)
     ∧ indices waist = (23, 24) ∧ indices hip = (23, 24)
     ∧ ratio waist = 1.35%float ∧ ratio hip = 1.35%float)
  ∧ (∀ measurements,
       calculate_circumference_only (init H) (Some lms) = Ok (Some measurements) →
       (is_Some (measurements !! "waist") ↔ is_Some (measurements !! "hip"))
       ∧ (is_Some (measurements !! "waist") ↔
          is_Some (joint lms 23) ∧ is_Some (joint lms 24))
       ∧ ∀ a b, measurements !! "waist" = Some a →
                measurements !! "hip" = Some b → a = b)
  ∧ (squares_in_range (init H) lms →
     ∃ measurements,
       calculate_circumference_only (init H) (Some lms) = Ok (Some measurements)).
Proof.
  intros Hlen.
  assert (("waist"%string, CircConfig (23, 24) 1.35 "Waist (hips)")
            ∈ CIRCUMFERENCE_POINTS (init H)) as Hwaist.
  { cbn [CIRCUMFERENCE_POINTS init]. apply list_elem_of_further, list_elem_of_here. }
  assert (("hip"%string, CircConfig (23, 24) 1.35 "Hip/Seat")
            ∈ CIRCUMFERENCE_POINTS (init H)) as Hhip.
  { cbn [CIRCUMFERENCE_POINTS init].
    apply list_elem_of_further, list_elem_of_further, list_elem_of_here. }
  split; [|split].
  - exists (CircConfig (23, 24) 1.35 "Waist (hips)"),
           (CircConfig (23, 24) 1.35 "Hip/Seat"). done.
  - intros m Hcalc.
    destruct (calculate_cases H lms Hlen) as [(_ & m' & _ & Hcalc' & Hm)|[_ Hraise]];
      [|rewrite Hraise in Hcalc; discriminate].
    rewrite Hcalc' in Hcalc. apply Ok_inj, (inj Some) in Hcalc. subst m'.
    assert (m !! "waist" = m !! "hip") as Heq.
    { rewrite !Hm.
      rewrite (proj1 (calibration_entry H _ _) Hwaist).
      rewrite (proj1 (calibration_entry H _ _) Hhip).
      reflexivity. }
    split; [by rewrite Heq|]. split; [|intros a b Ha Hb; congruence].
    rewrite Hm, (proj1 (calibration_entry H _ _) Hwaist). simpl. unfold measured.
    cbn [indices fst snd].
    destruct (joint lms 23), (joint lms 24); split;
      first [ by intros [? [=]] | by intros [[? [=]] _] | by intros [_ [? [=]]]
            | by eauto ].
  - intros Hrange. destruct (calculate_lookup H lms Hlen Hrange) as (m & Hcalc & _).
    by exists m.
Qed.

(** *** Validation *)

(** C10. A name that is not a key of the standards table is accepted with
    the message "No standard available", whatever the value; the keys of
    the table are chest, waist, hip, arm_bicep, thigh_upper and calf, so
    every sided name the pipeline produces is accepted unconditionally. *)
Theorem validate_without_standard (measurement_name : string) (value_cm : float) :
  measurement_name ∉ dom CIRCUMFERENCE_STANDARDS →
  validate_circumference measurement_name value_cm
  = {| valid := true; message := "No standard available";
       status := None; diff_from_target := None |}
  ∧ dom CIRCUMFERENCE_STANDARDS
    = list_to_set ["chest"; "waist"; "hip"; "arm_bicep"; "thigh_upper"; "calf"]%string
  ∧ Forall (λ sided, sided ∈ MEASUREMENTS_TO_CAPTURE
                     ∧ ∀ v, validate_circumference sided v
                            = {| valid := true; message := "No standard available";
                                 status := None; diff_from_target := None |})
           ["biceps_left"; "biceps_right"; "forearm_left"; "forearm_right";
            "thigh_left"; "thigh_right"; "calf_left"; "calf_right"]%string.
Proof.
  intros Hkey. split; [|split].
  - apply not_elem_of_dom in Hkey. unfold validate_circumference.
    rewrite Hkey. reflexivity.
  - unfold CIRCUMFERENCE_STANDARDS. rewrite dom_list_to_map_L. reflexivity.
  - repeat apply Forall_cons_2; try apply Forall_nil_2;
      (split;
       [ apply list_elem_of_In; simpl; tauto
       | intros v; unfold validate_circumference;
         match goal with
         | |- context [CIRCUMFERENCE_STANDARDS !! ?n] =>
             replace (CIRCUMFERENCE_STANDARDS !! n) with (@None standard)
               by (vm_compute; reflexivity)
         end; reflexivity ]).
Qed.

(** *** The capture loop *)

Lemma assess_init_Ok (H : float) (landmarks_2d : option landmarks2d) :
  ∃ is_valid score issues,
    assess_pose_quality (init H) landmarks_2d = Ok (is_valid, score, issues).
Proof.
  destruct landmarks_2d as [lms|]; [|by eexists _, _, _].
  destruct (decide (length (not_None lms) < 28)) as [Hk|Hk].
  - unfold assess_pose_quality. simpl min_joints_visible.
    destruct (Nat.ltb_spec (length (not_None lms)) 28); [|lia]. by eexists _, _, _.
  - destruct (assess_enough (init H) lms) as [issues Hi]; [simpl; lia..|].
    by eexists _, _, _.
Qed.

Lemma capture_frame_keeps (self : Reconstructor) (st : capture_state)
    (landmarks_2d : option landmarks2d) :
  pose_stable_count (capture_frame self st landmarks_2d).1 = pose_stable_count st
  ∧ auto_capture_started (capture_frame self st landmarks_2d).1
    = auto_capture_started st.
Proof.
  unfold capture_frame. destruct (auto_capture_started st) eqn:Hs; [|done].
  destruct landmarks_2d as [lms|]; [|done].
  destruct (all_joints_present (Some lms)); done.
Qed.

Lemma capture_frame_idle (self : Reconstructor) (st : capture_state)
    (landmarks_2d : option landmarks2d) :
  auto_capture_started st = false → capture_frame self st landmarks_2d = (st, false).
Proof. intros Hs. unfold capture_frame. by rewrite Hs. Qed.

(** An iteration on a frame that was read, in terms of its three blocks. *)
Lemma loop_body_read (H : float) (st : capture_state) (f : camera_frame) :
  ret f = true →
  ∃ is_valid score issues,
    let landmarks_2d :=
      extract_landmarks_2d (init H) (pose_landmarks f) (frame_shape f) in
    let captured := capture_frame (init H) (update_stability st is_valid) landmarks_2d in
    assess_pose_quality (init H) landmarks_2d = Ok (is_valid, score, issues)
    ∧ loop_body (init H) st f
      = Ok (if captured.2 then Break BurstComplete captured.1
            else if (Z.land (wait_key f) 255 =? ord_q)%Z then ReturnQuit
            else if (Z.land (wait_key f) 255 =? ord_s)%Z then Break StopKey captured.1
            else Next captured.1).
Proof.
  intros Hret.
  destruct (assess_init_Ok H
              (extract_landmarks_2d (init H) (pose_landmarks f) (frame_shape f)))
    as (v & sc & iss & Hq).
  exists v, sc, iss. cbv zeta. split; [exact Hq|].
  unfold loop_body. rewrite Hret. cbn [negb]. rewrite Hq, bind_Ok.
  destruct (capture_frame _ _ _) as [st2 complete]. cbn [fst snd].
  destruct complete; [reflexivity|].
  cbn [frames_per_view init Nat.eqb]. rewrite andb_false_r, bind_Ok.
  repeat case_match; reflexivity.
Qed.

Lemma all_joints_present_full (lms : landmarks2d) :
  all_joints_present (Some lms) = true ↔ full_frame lms.
Proof.
  unfold all_joints_present, full_frame. rewrite andb_true_iff, forallb_forall.
  rewrite Forall_forall. split.
  - intros [Hne Hall]. split; [by destruct lms|].
    intros j Hj. apply list_elem_of_In, Hall in Hj. by destruct j.
  - intros [Hne Hall]. split; [by destruct lms|].
    intros j Hj. apply list_elem_of_In, Hall in Hj. by destruct Hj as [? ->].
Qed.

Lemma update_stability_started (st : capture_state) (v : bool) :
  auto_capture_started (update_stability st v) = true
  ↔ v = true ∧ (auto_capture_started st = true
                ∨ pose_stable_threshold ≤ pose_stable_count st + 1).
Proof.
  unfold update_stability. destruct v.
  - destruct (auto_capture_started st) eqn:Hs.
    + cbn [auto_capture_started negb andb]. split; [intros _; split; [done | by left] | done].
    + destruct (Nat.leb_spec pose_stable_threshold (pose_stable_count st + 1)) as [Hle|Hlt].
      * cbn [auto_capture_started negb andb]. split; [intros _; split; [done | by right] | done].
      * cbn [auto_capture_started negb andb].
        split; [done | intros [_ [?|?]]; [done | lia]].
  - destruct (auto_capture_started st); cbn [auto_capture_started];
      split; (done || by intros [? _]).
Qed.

Lemma capture_frame_cases (self : Reconstructor) (st : capture_state)
    (landmarks_2d : option landmarks2d) :
  (auto_capture_started st = true
   ∧ ∃ lms, landmarks_2d = Some lms ∧ full_frame lms
       ∧ capture_frame self st landmarks_2d
         = ({| frame_count := frame_count st + 1;
               valid_landmarks_list := valid_landmarks_list st ++ [lms];
               pose_stable_count := pose_stable_count st;
               auto_capture_started := true |},
            frames_per_view self <=? frame_count st + 1))
  ∨ (¬ (auto_capture_started st = true
        ∧ ∃ lms, landmarks_2d = Some lms ∧ full_frame lms)
     ∧ capture_frame self st landmarks_2d = (st, false)).
Proof.
  unfold capture_frame. destruct (auto_capture_started st) eqn:Hs;
    [|right; split; [by intros [? _] | reflexivity]].
  destruct landmarks_2d as [lms|];
    [|right; split; [by intros [_ (? & ? & _)] | reflexivity]].
  destruct (all_joints_present (Some lms)) eqn:Hfull.
  - left. split; [reflexivity|]. exists lms. split; [reflexivity|].
    split; [by apply all_joints_present_full | reflexivity].
  - right. split; [|reflexivity]. intros [_ (l & [= <-] & Hl)].
    apply all_joints_present_full in Hl. congruence.
Qed.

(** An iteration on a frame that was read: the frame is accepted, and the
    loop is left if the burst is complete, or it is not, and the loop
    variables are those of the stability update; in both cases the key is
    looked at unless the burst is complete. *)
Lemma loop_body_step (H : float) (st : capture_state) (f : camera_frame) :
  ret f = true →
  ∃ score issues,
    assess_pose_quality (init H) (frame_landmarks (init H) f)
    = Ok (frame_valid (init H) f, score, issues)
    ∧ ((frame_accepted (init H) st f
        ∧ ∃ lms, frame_landmarks (init H) f = Some lms
            ∧ loop_body (init H) st f
              = Ok (let st2 := {| frame_count := frame_count st + 1;
                                  valid_landmarks_list := valid_landmarks_list st ++ [lms];
                                  pose_stable_count := pose_stable_count st + 1;
                                  auto_capture_started := true |} in
                    if 30 <=? frame_count st + 1 then Break BurstComplete st2
                    else if (Z.land (wait_key f) 255 =? ord_q)%Z then ReturnQuit
                    else if (Z.land (wait_key f) 255 =? ord_s)%Z then Break StopKey st2
                    else Next st2))
       ∨ (¬ frame_accepted (init H) st f
          ∧ loop_body (init H) st f
            = Ok (let st1 := update_stability st (frame_valid (init H) f) in
                  if (Z.land (wait_key f) 255 =? ord_q)%Z then ReturnQuit
                  else if (Z.land (wait_key f) 255 =? ord_s)%Z then Break StopKey st1
                  else Next st1))).
Proof.
  intros Hret. destruct (loop_body_read H st f Hret) as (v & sc & iss & Hq & Hbody).
  cbv zeta in Hbody.
  assert (frame_valid (init H) f = v) as Hv.
  { unfold frame_valid, frame_landmarks. by rewrite Hq. }
  exists sc, iss. split; [unfold frame_landmarks; by rewrite Hv|].
  unfold frame_accepted. rewrite Hv. fold (frame_landmarks (init H) f) in Hbody.
  cbv zeta.
  destruct (capture_frame_cases (init H) (update_stability st v)
              (frame_landmarks (init H) f))
    as [(Hs & lms & Hlms & Hfull & Hcap)|[Hnot Hcap]]; rewrite Hcap in Hbody;
    cbn [fst snd] in Hbody.
  - apply update_stability_started in Hs as [-> Hrun].
    left. split; [split; [reflexivity | split; [exact Hrun | by exists lms]]|].
    exists lms. split; [exact Hlms|]. rewrite Hbody.
    cbn [frames_per_view init update_stability frame_count valid_landmarks_list
         pose_stable_count].
    reflexivity.
  - right. split; [|exact Hbody].
    intros (-> & Hrun & lms & Hlms & Hfull). apply Hnot.
    split; [by apply update_stability_started | by exists lms].
Qed.

(** C2. On every frame read, an iteration of the loop leaves the loop
    variables updated, unless it returns for the key 'q': a valid quality
    report increments [pose_stable_count], and the view is capturing from
    then on exactly when it was before or the count has reached 15; an
    invalid one resets the count to 0, leaves the view not capturing and,
    when a burst was in progress, empties [valid_landmarks_list] and zeroes
    [frame_count]. *)
Theorem stability_update_per_frame (H : float) (st : capture_state) (f : camera_frame) :
  ret f = true →
  ∃ is_valid score issues it,
    assess_pose_quality (init H)
      (extract_landmarks_2d (init H) (pose_landmarks f) (frame_shape f))
    = Ok (is_valid, score, issues)
    ∧ loop_body (init H) st f = Ok it
    ∧ (state_after it = None
       ↔ Z.land (wait_key f) 255 = ord_q ∧ ¬ burst_completed_by (init H) st f)
    ∧ ∀ st', state_after it = Some st' →
        if is_valid then
          pose_stable_count st' = pose_stable_count st + 1
          ∧ (auto_capture_started st' = true
             ↔ auto_capture_started st = true
               ∨ pose_stable_threshold ≤ pose_stable_count st + 1)
        else
          pose_stable_count st' = 0
          ∧ auto_capture_started st' = false
          ∧ (auto_capture_started st = true →
             valid_landmarks_list st' = [] ∧ frame_count st' = 0).
Proof.
  intros Hret. destruct (loop_body_step H st f Hret) as (sc & iss & Hq & Hstep).
  exists (frame_valid (init H) f), sc, iss. unfold burst_completed_by.
  cbn [frames_per_view init].
  destruct Hstep as [(Hacc & lms & Hlms & Hbody)|[Hacc Hbody]]; cbv zeta in Hbody.
  - eexists. split; [exact Hq|]. split; [exact Hbody|].
    pose proof Hacc as Hacc'. destruct Hacc as (Hv & Hrun & _). rewrite Hv.
    destruct (Nat.leb_spec 30 (frame_count st + 1)) as [Hdone|Hmore].
    + split; [split; [discriminate | intros [_ Hn]; exfalso; by apply Hn]|].
      intros st' [= <-]. cbn [pose_stable_count auto_capture_started]. done.
    + destruct (Z.eqb_spec (Z.land (wait_key f) 255) ord_q) as [Hkey|Hkey].
      * split; [split; [intros _; split; [done | intros [_ ?]; lia] | done]|].
        discriminate.
      * split; [split; [|by intros [? _]]|].
        { destruct (Z.land (wait_key f) 255 =? ord_s)%Z; discriminate. }
        intros st' Hst'.
        assert (st' = {| frame_count := frame_count st + 1;
                         valid_landmarks_list := valid_landmarks_list st ++ [lms];
                         pose_stable_count := pose_stable_count st + 1;
                         auto_capture_started := true |}) as ->.
        { destruct (Z.land (wait_key f) 255 =? ord_s)%Z; by injection Hst' as <-. }
        cbn [pose_stable_count auto_capture_started]. done.
  - eexists. split; [exact Hq|]. split; [exact Hbody|].
    set (st1 := update_stability st (frame_valid (init H) f)).
    assert (if frame_valid (init H) f
            then pose_stable_count st1 = pose_stable_count st + 1
                 ∧ (auto_capture_started st1 = true
                    ↔ auto_capture_started st = true
                      ∨ pose_stable_threshold ≤ pose_stable_count st + 1)
            else pose_stable_count st1 = 0
                 ∧ auto_capture_started st1 = false
                 ∧ (auto_capture_started st = true →
                    valid_landmarks_list st1 = [] ∧ frame_count st1 = 0)) as Hst1.
    { pose proof (update_stability_started st (frame_valid (init H) f)) as Hs.
      fold st1 in Hs. subst st1. destruct (frame_valid (init H) f).
      - split; [reflexivity|]. rewrite Hs. split; [by intros [_ ?] | done].
      - unfold update_stability. destruct (auto_capture_started st); done. }
    destruct (Z.eqb_spec (Z.land (wait_key f) 255) ord_q) as [Hkey|Hkey].
    + split; [split; [intros _; split; [done | by intros [? _]] | done]|].
      discriminate.
    + split; [split; [|by intros [? _]]|].
      { destruct (Z.land (wait_key f) 255 =? ord_s)%Z; discriminate. }
      intros st' Hst'. assert (st' = st1) as ->; [|exact Hst1].
      destruct (Z.land (wait_key f) 255 =? ord_s)%Z; by injection Hst' as <-.
Qed.

Lemma initial_inv (self : Reconstructor) :
  0 < frames_per_view self → burst_inv self initial_state.
Proof. intros Hf. repeat split; simpl; done || lia. Qed.

Lemma update_stability_inv (self : Reconstructor) (st : capture_state) (v : bool) :
  burst_inv self st → burst_inv self (update_stability st v).
Proof.
  intros (Hc & Hall & Hidle & Hlt). unfold update_stability.
  destruct v; [|destruct (auto_capture_started st) eqn:Hs].
  - repeat split; simpl; try done.
    destruct (auto_capture_started st) eqn:Hs; simpl; [done|].
    case_match; [done | auto].
  - repeat split; simpl; try done; lia.
  - repeat split; simpl; try done; auto.
Qed.

Lemma capture_frame_inv (self : Reconstructor) (st : capture_state)
    (landmarks_2d : option landmarks2d) :
  burst_inv self st →
  let captured := capture_frame self st landmarks_2d in
  if captured.2 then burst_done self captured.1 else burst_inv self captured.1.
Proof.
  intros Hinv. pose proof Hinv as (Hc & Hall & Hidle & Hlt).
  unfold capture_frame. destruct (auto_capture_started st) eqn:Hs; [|done].
  destruct landmarks_2d as [lms|]; [|done].
  destruct (all_joints_present (Some lms)) eqn:Hfull; [|done].
  apply all_joints_present_full in Hfull. cbn [fst snd frame_count].
  destruct (Nat.leb_spec (frames_per_view self) (frame_count st + 1)) as [Hge|Hlt'].
  - split; simpl.
    + apply Forall_app; split; [done | by apply Forall_singleton].
    + rewrite length_app. simpl. lia.
  - repeat split; simpl.
    + rewrite length_app. simpl. lia.
    + apply Forall_app; split; [done | by apply Forall_singleton].
    + discriminate.
    + rewrite length_app. simpl. lia.
Qed.

Lemma loop_body_Ok (H : float) (st : capture_state) (f : camera_frame) :
  burst_inv (init H) st →
  ∃ it, loop_body (init H) st f = Ok it ∧ iteration_inv (init H) it.
Proof.
  intros Hinv. destruct (ret f) eqn:Hret.
  - destruct (loop_body_read H st f Hret) as (v & sc & iss & _ & Hbody).
    cbv zeta in Hbody. eexists. split; [exact Hbody|].
    pose proof (capture_frame_inv (init H) (update_stability st v)
                  (extract_landmarks_2d (init H) (pose_landmarks f) (frame_shape f))
                  (update_stability_inv _ _ v Hinv)) as Hcap.
    cbv zeta in Hcap. destruct (capture_frame _ _ _).2; [exact Hcap|].
    repeat case_match; simpl; done.
  - exists (Break ReadFailed st). unfold loop_body. rewrite Hret. done.
Qed.

Lemma capture_loop_Ok (H : float) (frames : list camera_frame) (st : capture_state) :
  burst_inv (init H) st →
  ∃ e, capture_loop (init H) st frames = Ok e ∧ loop_end_inv (init H) e.
Proof.
  revert st. induction frames as [|f frames IH]; intros st Hinv.
  - exists (Waiting st). done.
  - destruct (loop_body_Ok H st f Hinv) as (it & Hit & Hinv').
    cbn [capture_loop]. rewrite Hit, bind_Ok.
    destruct it as [st'|why st'|].
    + apply IH, Hinv'.
    + exists (Broke why st'). done.
    + exists Quit. done.
Qed.

Lemma capture_loop_app (self : Reconstructor) (st : capture_state)
    (before after : list camera_frame) :
  capture_loop self st (before ++ after)
  = e ← capture_loop self st before;
    match e with
    | Waiting st' => capture_loop self st' after
    | _ => mret e
    end.
Proof.
  revert st. induction before as [|f before IH]; intros st; [reflexivity|].
  cbn [app capture_loop]. destruct (loop_body self st f) as [[st'|why st'|]|err];
    try reflexivity.
  rewrite !bind_Ok. apply IH.
Qed.


(** C6 (amended). In any state, a frame read with the key 'q' ends the
    view capture, unless the frame completes the burst: the loop returns,
    and [auto_capture_view] gives the pair [(False, None)], without a
    reason, and sets [capture_complete]. When the frame completes the burst,
    the key is not looked at, and the loop is left by completion, with 30
    frames counted. *)
Theorem quit_key_cancels (H : float) (st : capture_state) (f : camera_frame)
    (rest : list camera_frame) :
  ret f = true →
  Z.land (wait_key f) 255 = ord_q →
  (¬ burst_completed_by (init H) st f →
   loop_body (init H) st f = Ok ReturnQuit
   ∧ capture_loop (init H) st (f :: rest) = Ok Quit
   ∧ ∀ before,
       capture_loop (init H) initial_state before = Ok (Waiting st) →
       auto_capture_view (init H) (before ++ f :: rest)
       = Ok (Returned true (false, None)))
  ∧ (burst_completed_by (init H) st f →
     ∃ st',
       capture_loop (init H) st (f :: rest) = Ok (Broke BurstComplete st')
       ∧ frame_count st' = frame_count st + 1
       ∧ 30 ≤ frame_count st').
Proof.
  intros Hret Hkey. destruct (loop_body_step H st f Hret) as (sc & iss & _ & Hstep).
  unfold burst_completed_by. cbn [frames_per_view init].
  rewrite Hkey in Hstep. cbn [Z.eqb ord_q Pos.eqb] in Hstep.
  destruct Hstep as [(Hacc & lms & Hlms & Hbody)|[Hacc Hbody]]; cbv zeta in Hbody.
  - destruct (Nat.leb_spec 30 (frame_count st + 1)) as [Hdone|Hmore].
    + split; [intros Hn; exfalso; by apply Hn|]. intros _.
      eexists. cbn [capture_loop]. rewrite Hbody, bind_Ok.
      split; [reflexivity|]. cbn [frame_count]. split; [reflexivity | lia].
    + split; [|intros [_ ?]; lia]. intros _. split; [exact Hbody|].
      assert (capture_loop (init H) st (f :: rest) = Ok Quit) as Hquit.
      { cbn [capture_loop]. rewrite Hbody. reflexivity. }
      split; [exact Hquit|]. intros before Hbefore. unfold auto_capture_view.
      rewrite capture_loop_app, Hbefore, bind_Ok, Hquit. reflexivity.
  - split; [|by intros [? _]]. intros _. split; [exact Hbody|].
    assert (capture_loop (init H) st (f :: rest) = Ok Quit) as Hquit.
    { cbn [capture_loop]. rewrite Hbody. reflexivity. }
    split; [exact Hquit|]. intros before Hbefore. unfold auto_capture_view.
    rewrite capture_loop_app, Hbefore, bind_Ok, Hquit. reflexivity.
Qed.

End Properties.

(** * The properties on concrete runs *)

Section Runs.
Import Sample.
Local Existing Instance Sample.lib.

(** The squares of the sample bodies are in the float range. *)
Lemma sample_in_range (H : float) (lms : landmarks3d) :
  lms = body ∨ lms = body_without_elbow → squares_in_range (init H) lms.
Proof.
  intros Hlms. split.
  - intros head foot Hh Hf.
    destruct Hlms as [-> | ->]; vm_compute in Hh, Hf;
      injection Hh as <-; injection Hf as <-;
      repeat split; intros _; vm_compute; reflexivity.
  - intros name cfg p1 p2 Hin H1 H2. cbn [CIRCUMFERENCE_POINTS init] in Hin.
    repeat (apply elem_of_cons in Hin as [[= -> ->]|Hin];
            [destruct Hlms as [-> | ->]; vm_compute in H1, H2; try discriminate;
             injection H1 as <-; injection H2 as <-;
             repeat split; intros _; vm_compute; reflexivity|]).
    by apply elem_of_nil in Hin.
Qed.

(** For a user of 85 cm, the scale of the sample body, 170 units tall, is
    85 / 170, and its chest, 40 units wide, is 40 * 1.30 / 2 = 26.00. *)
Lemma circumference_scaled_witness :
  29 < length body
  ∧ ∃ measurements,
      calculate_circumference_only (init 85) (Some body) = Ok (Some measurements)
      ∧ scale_factor (init 85) body = Ok 0.5%float
      ∧ measurements !! "chest" = Some 26%float.
Proof.
  assert (29 < length body) as Hlen by (vm_compute; lia).
  split; [exact Hlen|].
  destruct (circumference_scaled_by_height 85 body Hlen) as (Hresult & Hreturns & _).
  destruct (Hreturns (sample_in_range 85 body (or_introl eq_refl))) as [m Hcalc].
  exists m. split; [exact Hcalc|].
  destruct (Hresult m Hcalc) as (scale & Hfactor & Hscale & _ & Hm).
  assert (scale = 0.5%float) as ->.
  { rewrite (Hscale (Point3 0 0 0) (Point3 0 170 0)) by (vm_compute; reflexivity).
    vm_compute. reflexivity. }
  split; [exact Hfactor|]. apply Hm.
  exists (CircConfig (11, 12) 1.30 "Chest (shoulders)"),
         (Point3 (-20) 30 0), (Point3 20 30 0).
  split; [cbn [CIRCUMFERENCE_POINTS init]; apply list_elem_of_here|].
  split; [vm_compute; reflexivity|]. split; [vm_compute; reflexivity|].
  vm_compute. reflexivity.
Defined.

(** An empty frame during a burst of two accepted frames discards them;
    a good frame after sixteen good ones is counted as the seventeenth. *)
Lemma stability_update_witness :
  ret empty_frame = true
  ∧ ret good_frame = true
  ∧ (∃ it st',
       loop_body self capturing_state empty_frame = Ok it
       ∧ state_after it = Some st'
       ∧ pose_stable_count st' = 0
       ∧ valid_landmarks_list st' = []
       ∧ frame_count st' = 0
       ∧ auto_capture_started st' = false)
  ∧ ∃ it st',
      loop_body self sixteen_state good_frame = Ok it
      ∧ state_after it = Some st'
      ∧ pose_stable_count st' = 17
      ∧ auto_capture_started st' = true.
Proof.
  split; [reflexivity|]. split; [reflexivity|]. split.
  - destruct (stability_update_per_frame 170 capturing_state empty_frame eq_refl)
      as (v & sc & iss & it & Hq & Hbody & Hleft & Hst).
    vm_compute in Hq. injection Hq as <- _ _.
    destruct (state_after it) as [st'|] eqn:Hafter.
    + exists it, st'. destruct (Hst st' eq_refl) as (Hcount & Hstarted & Hreset).
      destruct (Hreset eq_refl) as (Hlist & Hframes). done.
    + destruct (proj1 Hleft eq_refl) as [Hkey _]. vm_compute in Hkey.
      discriminate Hkey.
  - destruct (stability_update_per_frame 170 sixteen_state good_frame eq_refl)
      as (v & sc & iss & it & Hq & Hbody & Hleft & Hst).
    vm_compute in Hq. injection Hq as <- _ _.
    destruct (state_after it) as [st'|] eqn:Hafter.
    + exists it, st'. destruct (Hst st' eq_refl) as (Hcount & Hstarted).
      split; [exact Hbody|]. split; [exact Hafter|]. split; [exact Hcount|].
      apply Hstarted. by left.
    + destruct (proj1 Hleft eq_refl) as [Hkey _]. vm_compute in Hkey.
      discriminate Hkey.
Defined.

(** Joint 0 of the small burst is averaged over the one frame that has
    it; joint 1, absent in both frames, is absent. *)
Lemma average_landmarks_witness :
  small_burst ≠ []
  ∧ Forall (λ frame, length frame = 2) small_burst
  ∧ ∃ averaged,
      _average_landmarks small_burst = Ok (Some averaged)
      ∧ length averaged = 2
      ∧ averaged !! 0 = Some (Some (raw 10 20 0.9))
      ∧ averaged !! 1 = Some None.
Proof.
  assert (small_burst ≠ []) as Hne by done.
  assert (Forall (λ frame : landmarks2d, length frame = 2) small_burst) as Hlen
    by (repeat constructor).
  split; [exact Hne|]. split; [exact Hlen|].
  destruct (average_landmarks_per_joint small_burst 2 Hne Hlen)
    as (averaged & Havg & Hlength & Hjoint).
  exists averaged. split; [exact Havg|]. split; [exact Hlength|]. split.
  - destruct (Hjoint 0 ltac:(lia)) as (_ & _ & Hpresent).
    destruct (Hpresent ltac:(vm_compute; lia)) as (_ & ->).
    vm_compute. reflexivity.
  - destruct (Hjoint 1 ltac:(lia)) as (_ & Habsent & _).
    apply Habsent. intros frame Hin.
    apply list_elem_of_In in Hin. simpl in Hin.
    destruct Hin as [<-|[<-|[]]]; reflexivity.
Defined.

(** Joint 0, present in the four sample views, is their mean; joint 1,
    missing in the right view, is absent. *)
Lemma triangulate_4view_witness :
  0 < 2
  ∧ ∃ landmarks_3d,
      triangulate_4view (Some view_front) (Some view_left)
                        (Some view_back) (Some view_right)
      = Ok (Some landmarks_3d)
      ∧ landmarks_3d !! 0 = Some (Some (Point3 4 2 0))
      ∧ landmarks_3d !! 1 = Some None.
Proof.
  split; [lia|].
  destruct (triangulate_4view_all_four view_front view_left view_back view_right 2
              ltac:(lia) eq_refl eq_refl eq_refl eq_refl)
    as (_ & out & Hout & _ & Hjoint).
  exists out. split; [exact Hout|]. split.
  - destruct (Hjoint 0 ltac:(lia)) as (Hall & _).
    rewrite (Hall (raw 1 2 0.9) (raw 3 2 0.9) (raw 5 2 0.9) (raw 7 2 0.9))
      by reflexivity.
    vm_compute. reflexivity.
  - destruct (Hjoint 1 ltac:(lia)) as (_ & Hmissing).
    apply Hmissing. do 3 right. reflexivity.
Defined.

(** Without the left elbow, "biceps_left" is not a key of the result. *)
Lemma circumference_absent_joint_witness :
  29 < length body_without_elbow
  ∧ ∃ measurements,
      calculate_circumference_only self (Some body_without_elbow)
      = Ok (Some measurements)
      ∧ measurements !! "biceps_left" = None
      ∧ "biceps_left"%string ∉ dom measurements.
Proof.
  assert (29 < length body_without_elbow) as Hlen by (vm_compute; lia).
  split; [exact Hlen|].
  destruct (circumference_absent_joint_omitted 170 body_without_elbow "biceps_left"
              (CircConfig (11, 13) 1.2 "Biceps (left arm)") Hlen)
    as (_ & Hresult & Hreturns & _).
  - cbn [CIRCUMFERENCE_POINTS init].
    do 3 apply list_elem_of_further. apply list_elem_of_here.
  - right. vm_compute. reflexivity.
  - destruct (Hreturns (sample_in_range 170 body_without_elbow (or_intror eq_refl)))
      as [m Hcalc].
    exists m. split; [exact Hcalc | exact (Hresult m Hcalc)].
Defined.

(** The waist and the hip of the sample body. *)
Lemma waist_equals_hip_witness :
  29 < length body
  ∧ ∃ measurements,
      calculate_circumference_only self (Some body) = Ok (Some measurements)
      ∧ is_Some (measurements !! "waist")
      ∧ is_Some (measurements !! "hip")
      ∧ ∀ a b, measurements !! "waist" = Some a → measurements !! "hip" = Some b → a = b.
Proof.
  assert (29 < length body) as Hlen by (vm_compute; lia).
  split; [exact Hlen|].
  destruct (waist_equals_hip 170 body Hlen) as (_ & Hresult & Hreturns).
  destruct (Hreturns (sample_in_range 170 body (or_introl eq_refl))) as [m Hcalc].
  destruct (Hresult m Hcalc) as (Hiff & Hjoints & Heq).
  assert (is_Some (m !! "waist")) as Hwaist.
  { apply Hjoints. split; vm_compute; eauto. }
  exists m. split; [exact Hcalc|]. split; [exact Hwaist|].
  split; [by apply Hiff | exact Heq].
Defined.

(** "biceps_left" has no standard: 12.5 cm is accepted. *)
Lemma validate_without_standard_witness :
  ("biceps_left"%string ∉ dom CIRCUMFERENCE_STANDARDS)
  ∧ validate_circumference "biceps_left" 12.5
    = {| valid := true; message := "No standard available";
         status := None; diff_from_target := None |}.
Proof.
  assert ("biceps_left"%string ∉ dom CIRCUMFERENCE_STANDARDS) as Hkey.
  { apply not_elem_of_dom. vm_compute. reflexivity. }
  split; [exact Hkey|].
  exact (proj1 (validate_without_standard "biceps_left" 12.5 Hkey)).
Defined.

(** With 27 joints visible the assessment fails at once; with all 33
    visible at 0.9 the score is their mean and the pose is valid. *)
Lemma assess_pose_quality_witness :
  assess_pose_quality self (Some poor_landmarks)
  = Ok (false, 0%float, ["Not enough joints: 27/28"%string])
  ∧ ∃ score,
      assess_pose_quality self (Some good_landmarks) = Ok (true, score, [])
      ∧ score = np_mean (lm_visibility <$> not_None good_landmarks).
Proof.
  split.
  - destruct (assess_pose_quality_report 170 poor_landmarks) as [Hreport _].
    rewrite bool_decide_true in Hreport by (vm_compute; lia).
    unfold self at 1. rewrite Hreport. vm_compute. reflexivity.
  - destruct (assess_pose_quality_report 170 good_landmarks) as [Hreport _].
    rewrite bool_decide_false in Hreport by (vm_compute; lia).
    destruct Hreport as [issues Hreport]. eexists. split; [|reflexivity].
    assert (issues = []) as ->.
    { assert (∃ v sc, assess_pose_quality self (Some good_landmarks) = Ok (v, sc, []))
        as (v & sc & Hrun) by (vm_compute; eauto).
      unfold self in Hrun. congruence. }
    unfold self at 1. rewrite Hreport. vm_compute. reflexivity.
Defined.


(** The key 'q' on the seventeenth good frame, during a burst of two
    accepted frames. *)
Lemma quit_key_witness :
  ret good_quit_frame = true
  ∧ Z.land (wait_key good_quit_frame) 255 = ord_q
  ∧ capture_loop self initial_state (replicate 16 good_frame) = Ok (Waiting sixteen_state)
  ∧ loop_body self sixteen_state good_quit_frame = Ok ReturnQuit
  ∧ auto_capture_view self (replicate 16 good_frame ++ [good_quit_frame])
    = Ok (Returned true (false, None)).
Proof.
  assert (capture_loop self initial_state (replicate 16 good_frame)
          = Ok (Waiting sixteen_state)) as Hbefore by (vm_compute; reflexivity).
  split; [reflexivity|]. split; [reflexivity|]. split; [exact Hbefore|].
  destruct (quit_key_cancels 170 sixteen_state good_quit_frame [] eq_refl eq_refl)
    as [Hquit _].
  destruct Hquit as (Hbody & _ & Hview).
  { intros [_ Hn]. vm_compute in Hn. lia. }
  split; [exact Hbody | exact (Hview _ Hbefore)].
Defined.


(** C6, counterexample. After 3600 frames without a pose (two minutes at
    30 frames per second) and without a key, the view capture is still
    waiting in its initial state; and a capture cancelled by 'q' returns the
    same pair [(False, None)] as a capture whose first read fails: the
    returned value carries no reason, the cancellation shows only in
    [capture_complete]. *)
Lemma no_timeout_no_reason :
  auto_capture_view self (replicate 3600 empty_frame) = Ok (Pending initial_state)
  ∧ auto_capture_view self [quit_frame] = Ok (Returned true (false, None))
  ∧ auto_capture_view self [failed_read] = Ok (Returned false (false, None)).
Proof. repeat split; vm_compute; reflexivity. Qed.

End Runs.


(** * Further properties *)

Section Further.
Context {lib : FloatLib}.

(** *** Loops over a list *)

Lemma mapM_Raise {A B} (f : A → result B) (l : list A) (e : exn) :
  mapM f l = Raise e → ∃ x, x ∈ l ∧ f x = Raise e.
Proof.
  induction l as [|x l IH]; [discriminate|]. simpl.
  destruct (f x) as [y|e'] eqn:Hx.
  - rewrite bind_Ok. destruct (mapM f l) as [ys|e'']; [discriminate|].
    intros [= ->]. destruct (IH eq_refl) as (z & Hz & Hfz).
    exists z. split; [by apply list_elem_of_further | done].
  - intros [= ->]. exists x. split; [apply list_elem_of_here | done].
Qed.

Lemma mapM_Ok_inv {A B} (f : A → result B) (l : list A) (ys : list B) :
  mapM f l = Ok ys → Forall2 (λ x y, f x = Ok y) l ys.
Proof.
  revert ys. induction l as [|x l IH]; intros ys.
  - intros [= <-]. constructor.
  - simpl. destruct (f x) as [y|e] eqn:Hx; [|discriminate]. rewrite bind_Ok.
    destruct (mapM f l) as [zs|e]; [|discriminate]. intros [= <-].
    constructor; [done | by apply IH].
Qed.

(** *** Pose quality *)

Lemma head_issue_joint (lms : landmarks2d) :
  0 < length lms →
  head_issue lms
  = Ok (match joint lms 0 with
        | Some h =>
            if PrimFloat.ltb (lm_x h) 100 || PrimFloat.ltb 540 (lm_x h)
            then ["Head not centered"%string] else []
        | None => []
        end).
Proof. intros Hlen. unfold head_issue. rewrite index_joint by done. reflexivity. Qed.

Lemma torso_issue_joint (lms : landmarks2d) :
  23 < length lms →
  torso_issue lms
  = Ok (match joint lms 11, joint lms 23 with
        | Some s, Some p =>
            if PrimFloat.ltb (PrimFloat.abs (lm_y s - lm_y p)) 50
            then ["Stand upright"%string] else []
        | _, _ => []
        end).
Proof.
  intros Hlen. unfold torso_issue.
  rewrite (index_joint lms 11), (index_joint lms 23) by lia. rewrite bind_Ok.
  destruct (joint lms 11); reflexivity.
Qed.

(** X1. With the thresholds of [__init__] the quality check never raises,
    whatever the length of the landmark list, and reports at most two
    issues; without landmarks it reports the pose as invalid. The count of
    present joints is what protects the reads of joints 0, 11 and 23: an
    instance whose [min_joints_visible] is lowered to 10 raises [IndexError]
    on a list of 10 landmarks. *)
Theorem assess_pose_quality_never_raises (H : float) (landmarks_2d : option landmarks2d) :
  (∃ is_valid score issues,
     assess_pose_quality (init H) landmarks_2d = Ok (is_valid, score, issues)
     ∧ length issues ≤ 2
     ∧ (landmarks_2d = None →
        is_valid = false ∧ score = 0%float ∧ issues = ["No landmarks detected"%string]))
  ∧ ∀ l : landmark,
      assess_pose_quality (set_min_joints_visible (init H) 10)
                          (Some (replicate 10 (Some l)))
      = Raise IndexError.
Proof.
  split; [|reflexivity].
  destruct landmarks_2d as [lms|].
  - destruct (decide (length (not_None lms) < 28)) as [Hk|Hk].
    + unfold assess_pose_quality. simpl min_joints_visible.
      destruct (Nat.ltb_spec (length (not_None lms)) 28); [|lia].
      eexists _, _, _. split; [reflexivity|]. split; [simpl; lia | discriminate].
    + pose proof (not_None_length_le lms) as Hle.
      unfold assess_pose_quality. simpl min_joints_visible.
      destruct (Nat.ltb_spec (length (not_None lms)) 28); [lia|].
      rewrite head_issue_joint, torso_issue_joint by lia. rewrite !bind_Ok.
      eexists _, _, _. split; [reflexivity|]. split; [|discriminate].
      rewrite length_app.
      destruct (joint lms 0) as [h|]; [destruct (_ || _)|];
        (destruct (joint lms 11) as [s|]; [destruct (joint lms 23) as [p|];
           [destruct (PrimFloat.ltb _ _)|]|]); simpl; lia.
  - eexists _, _, _. split; [reflexivity|]. split; [simpl; lia | done].
Qed.

(** X2. What a valid report means: at least 28 joints are present, the
    head-top joint (if present) is within the band, the left shoulder and
    hip (if both present) are far enough apart, and the mean visibility of
    the present joints is above 0.7 -- and nothing else. *)
Theorem valid_pose_meaning (H : float) (lms : landmarks2d) :
  ∃ is_valid score issues,
    assess_pose_quality (init H) (Some lms) = Ok (is_valid, score, issues)
    ∧ (is_valid = true ↔
         28 ≤ length (not_None lms)
         ∧ head_centered lms
         ∧ torso_upright lms
         ∧ PrimFloat.ltb 0.7 (np_mean (lm_visibility <$> not_None lms)) = true).
Proof.
  destruct (decide (length (not_None lms) < 28)) as [Hk|Hk].
  - unfold assess_pose_quality. simpl min_joints_visible.
    destruct (Nat.ltb_spec (length (not_None lms)) 28); [|lia].
    eexists _, _, _. split; [reflexivity|]. split; [discriminate | lia].
  - pose proof (not_None_length_le lms) as Hle.
    unfold assess_pose_quality. simpl min_joints_visible.
    destruct (Nat.ltb_spec (length (not_None lms)) 28); [lia|].
    rewrite head_issue_joint, torso_issue_joint by lia. rewrite !bind_Ok.
    eexists _, _, _. split; [reflexivity|].
    destruct (lm_visibility <$> not_None lms) as [|v vs] eqn:Hvs.
    { apply (f_equal length) in Hvs. rewrite length_fmap in Hvs. simpl in Hvs. lia. }
    rewrite andb_true_iff, bool_decide_eq_true, length_zero_iff_nil, app_nil.
    unfold head_centered, torso_upright. split.
    + intros ((Hhead & Htorso) & Hscore). split; [lia|]. split; [|split; [|done]].
      * intros h Hh. rewrite Hh in Hhead.
        destruct (PrimFloat.ltb (lm_x h) 100), (PrimFloat.ltb 540 (lm_x h));
          simpl in Hhead; done.
      * intros s p Hs Hp. rewrite Hs, Hp in Htorso.
        destruct (PrimFloat.ltb _ _); done.
    + intros (_ & Hhead & Htorso & Hscore). split; [split|done].
      * destruct (joint lms 0) as [h|]; [|done].
        destruct (Hhead h eq_refl) as [-> ->]. done.
      * destruct (joint lms 11) as [s|]; [|done].
        destruct (joint lms 23) as [p|]; [|done].
        rewrite (Htorso s p) by done. done.
Qed.

(** *** Averaging and combining: lengths *)

Lemma valid_points_in_range (frames : list landmarks2d) (idx : nat) :
  Forall (λ frame, idx < length frame) frames →
  valid_points frames idx = Ok (present_at idx frames).
Proof.
  intros Hlen. unfold valid_points.
  rewrite (mapM_Ok _ (λ frame : landmarks2d, frame !! idx ≫= id)).
  - rewrite bind_Ok, not_None_fmap. reflexivity.
  - intros frame Hin. rewrite Forall_forall in Hlen.
    rewrite index_joint by (by apply Hlen). reflexivity.
Qed.

Lemma index_Raise {A} (l : list A) (i : nat) (e : exn) :
  index l i = Raise e → e = IndexError ∧ length l ≤ i.
Proof.
  unfold index. destruct (l !! i) eqn:Hi; [discriminate|].
  intros [= <-]. split; [reflexivity | by apply lookup_ge_None].
Qed.

Lemma valid_points_Raise (frames : list landmarks2d) (idx : nat) (e : exn) :
  valid_points frames idx = Raise e →
  e = IndexError ∧ Exists (λ frame, length frame ≤ idx) frames.
Proof.
  unfold valid_points. destruct (mapM _ frames) as [cells|e'] eqn:Hm; [discriminate|].
  intros [= ->]. apply mapM_Raise in Hm as (frame & Hin & Hraise).
  apply index_Raise in Hraise as [-> Hle]. split; [reflexivity|].
  apply Exists_exists. eauto.
Qed.

(** X3. Averaging takes the number of joints from the first frame: frames
    at least as long as the first give a list of that length (longer frames
    are cut), a frame shorter than the first raises [IndexError], and an
    empty burst gives [None]. *)
Theorem average_landmarks_frame_lengths (first : landmarks2d) (rest : list landmarks2d) :
  _average_landmarks [] = Ok None
  ∧ if bool_decide (Forall (λ frame, length first ≤ length frame) rest)
    then ∃ averaged,
           _average_landmarks (first :: rest) = Ok (Some averaged)
           ∧ length averaged = length first
    else _average_landmarks (first :: rest) = Raise IndexError.
Proof.
  split; [reflexivity|]. case_bool_decide as Hlen.
  - exists ((λ idx, average_point (present_at idx (first :: rest))) <$> seq 0 (length first)).
    split; [|by rewrite length_fmap, length_seq].
    unfold _average_landmarks.
    rewrite (mapM_Ok _ (λ idx, average_point (present_at idx (first :: rest))));
      [reflexivity|].
    intros idx Hin. apply elem_of_seq in Hin.
    rewrite valid_points_in_range; [reflexivity|].
    constructor; [lia|]. eapply Forall_impl; [exact Hlen|]. simpl. lia.
  - unfold _average_landmarks.
    destruct (mapM _ (seq 0 (length first))) as [averaged|e] eqn:Hm.
    + exfalso. apply Hlen. apply Forall_forall. intros frame Hin.
      destruct (decide (length first ≤ length frame)) as [|Hshort]; [done|].
      apply mapM_Ok_inv in Hm.
      destruct (Forall2_lookup_l _ _ _ (length frame) (length frame) Hm)
        as (pt & _ & Hpt); [apply lookup_seq_lt; lia|].
      apply bind_Ok_inv in Hpt as (pts & Hpts & _).
      unfold valid_points in Hpts. apply bind_Ok_inv in Hpts as (cells & Hcells & _).
      apply mapM_Ok_inv in Hcells.
      assert (frame ∈ first :: rest) as Hin' by (by apply list_elem_of_further).
      apply list_elem_of_lookup in Hin' as [i Hi].
      destruct (Forall2_lookup_l _ _ _ i frame Hcells Hi) as (cell & _ & Hcell).
      unfold index in Hcell. rewrite (lookup_ge_None_2 frame (length frame)) in Hcell by lia.
      discriminate.
    + apply mapM_Raise in Hm as (idx & _ & Hraise).
      destruct (valid_points (first :: rest) idx) as [pts|e'] eqn:Hv; [discriminate|].
      injection Hraise as ->. apply valid_points_Raise in Hv as [-> _]. reflexivity.
Qed.

(** X4. Combining takes the number of joints from the front view: an empty
    view counts as missing; with four non-empty views the result has the
    length of the front view when no other view is shorter (joints beyond it
    are ignored), and a view shorter than the front one raises
    [IndexError]. *)
Theorem triangulate_4view_lengths (fr le ba ri : landmarks2d) :
  if bool_decide (fr = [] ∨ le = [] ∨ ba = [] ∨ ri = [])
  then triangulate_4view (Some fr) (Some le) (Some ba) (Some ri) = Ok None
  else if bool_decide (length fr ≤ length le ∧ length fr ≤ length ba
                       ∧ length fr ≤ length ri)
  then ∃ landmarks_3d,
         triangulate_4view (Some fr) (Some le) (Some ba) (Some ri) = Ok (Some landmarks_3d)
         ∧ length landmarks_3d = length fr
  else triangulate_4view (Some fr) (Some le) (Some ba) (Some ri) = Raise IndexError.
Proof.
  case_bool_decide as Hempty.
  - unfold triangulate_4view.
    destruct fr; [reflexivity|]. destruct le; [reflexivity|].
    destruct ba; [reflexivity|]. destruct ri; [reflexivity|].
    destruct Hempty as [?|[?|[?|?]]]; discriminate.
  - assert (0 < length fr ∧ 0 < length le ∧ 0 < length ba ∧ 0 < length ri)
      as (Hfr & Hle & Hba & Hri).
    { destruct fr, le, ba, ri; simpl; try lia; exfalso; apply Hempty; tauto. }
    unfold triangulate_4view. rewrite !truthy_nonempty by done. cbn [andb].
    case_bool_decide as Hlen.
    + set (g := λ idx, combine_point (joint fr idx) (joint le idx)
                                     (joint ba idx) (joint ri idx)).
      exists (g <$> seq 0 (length fr)).
      split; [|by rewrite length_fmap, length_seq].
      rewrite (mapM_Ok _ g); [reflexivity|].
      intros idx Hin. apply elem_of_seq in Hin.
      rewrite !index_joint by lia. reflexivity.
    + destruct (mapM _ (seq 0 (length fr))) as [out|e] eqn:Hm.
      * exfalso. apply Hlen. apply mapM_Ok_inv in Hm.
        assert (∀ other : landmarks2d,
                  (∀ idx, idx < length fr → ∃ c, index other idx = Ok c) →
                  length fr ≤ length other) as Hother.
        { intros other Hok. destruct (decide (length fr ≤ length other)); [done|].
          destruct (Hok (length other)) as [c Hc]; [lia|].
          unfold index in Hc. rewrite (lookup_ge_None_2 other (length other)) in Hc by lia.
          discriminate. }
        assert (∀ idx, idx < length fr →
                  ∃ c1 c2 c3, index le idx = Ok c1 ∧ index ba idx = Ok c2
                              ∧ index ri idx = Ok c3) as Hall.
        { intros idx Hidx.
          destruct (Forall2_lookup_l _ _ _ idx idx Hm) as (pt & _ & Hpt);
            [by apply lookup_seq_lt|].
          apply bind_Ok_inv in Hpt as (c0 & _ & Hpt).
          apply bind_Ok_inv in Hpt as (c1 & H1 & Hpt).
          apply bind_Ok_inv in Hpt as (c2 & H2 & Hpt).
          apply bind_Ok_inv in Hpt as (c3 & H3 & _). eauto 6. }
        repeat split; apply Hother; intros idx Hidx;
          destruct (Hall idx Hidx) as (c1 & c2 & c3 & H1 & H2 & H3); eauto.
      * apply mapM_Raise in Hm as (idx & _ & Hraise).
        assert (e = IndexError) as ->; [|reflexivity].
        destruct (index fr idx) eqn:H0; [|by apply index_Raise in H0 as [-> _]; injection Hraise as <-].
        rewrite bind_Ok in Hraise.
        destruct (index le idx) eqn:H1; [|by apply index_Raise in H1 as [-> _]; injection Hraise as <-].
        rewrite bind_Ok in Hraise.
        destruct (index ba idx) eqn:H2; [|by apply index_Raise in H2 as [-> _]; injection Hraise as <-].
        rewrite bind_Ok in Hraise.
        destruct (index ri idx) eqn:H3; [|by apply index_Raise in H3 as [-> _]; injection Hraise as <-].
        discriminate.
Qed.

(** *** Measurements: errors and names *)

(** X5. The measurement engine raises [IndexError] exactly when it reads
    the head-top or the foot joint out of range: on an empty list, and on a
    list of at most 29 joints whose head-top joint is present. On any other
    list it returns a result when the squares of the coordinate differences
    are in the float range, and raises [OverflowError] when one is not; a
    short list whose head-top joint is absent is measured at scale 1.0.
    [None] gives [None]. *)
Theorem calculate_circumference_index_error (self : Reconstructor) (lms : landmarks3d) :
  calculate_circumference_only self None = Ok None
  ∧ if bool_decide (lms = [] ∨ (is_Some (joint lms 0) ∧ length lms ≤ 29))
    then calculate_circumference_only self (Some lms) = Raise IndexError
    else (squares_in_range self lms →
          ∃ measurements,
            calculate_circumference_only self (Some lms) = Ok (Some measurements)
            ∧ (joint lms 0 = None →
               measurements
               = foldl (with_entry lms 1) ∅ (CIRCUMFERENCE_POINTS self)))
         ∧ (¬ squares_in_range self lms →
            calculate_circumference_only self (Some lms) = Raise OverflowError).
Proof.
  split; [reflexivity|]. unfold calculate_circumference_only.
  case_bool_decide as Hbad.
  - unfold scale_factor. destruct Hbad as [-> | [[h Hh] Hlen]]; [reflexivity|].
    assert (0 < length lms) by (destruct lms; [discriminate | simpl; lia]).
    rewrite (index_joint lms 0), Hh by done. rewrite bind_Ok.
    unfold index. rewrite (lookup_ge_None_2 lms 29) by lia. reflexivity.
  - assert (0 < length lms) as Hpos.
    { destruct lms; [exfalso; apply Hbad; by left | simpl; lia]. }
    assert ((∀ head foot, joint lms 0 = Some head → joint lms 29 = Some foot →
                          measurable head foot)
            ∧ (∃ scale, scale_factor self lms = Ok scale
                        ∧ (joint lms 0 = None → scale = 1%float))
            ∨ (¬ (∀ head foot, joint lms 0 = Some head → joint lms 29 = Some foot →
                               measurable head foot)
               ∧ scale_factor self lms = Raise OverflowError)) as Hscale.
    { destruct (joint lms 0) as [h|] eqn:Hh.
      - assert (29 < length lms) as Hlen.
        { destruct (decide (29 < length lms)); [done|].
          exfalso. apply Hbad. right. split; [eauto | lia]. }
        destruct (scale_factor_cases self lms Hlen) as [[Hm Hs]|[Hm Hs]].
        + left. rewrite Hh in Hm. split; [exact Hm|]. eexists. split; [exact Hs | done].
        + right. split; [|exact Hs]. intros Hall.
          destruct Hm as (head & foot & Hhead & Hfoot & Hm). rewrite Hh in Hhead.
          by eapply Hm, Hall.
      - left. split; [discriminate|]. exists 1%float. split; [|done].
        unfold scale_factor. rewrite (index_joint lms 0), Hh by done. reflexivity. }
    unfold squares_in_range.
    destruct Hscale as [(Hm & scale & Hs & Hone)|[Hm Hs]]; rewrite Hs.
    + rewrite bind_Ok.
      destruct (for_each_measure_cases lms scale (CIRCUMFERENCE_POINTS self) ∅)
        as [[Hpts ->]|[Hpts ->]].
      * split; [|intros Hnot; exfalso; by apply Hnot].
        intros _. eexists. split; [reflexivity|]. intros Hh. by rewrite (Hone Hh).
      * assert (¬ ∀ name cfg p1 p2,
                    (name, cfg) ∈ CIRCUMFERENCE_POINTS self →
                    joint lms (indices cfg).1 = Some p1 →
                    joint lms (indices cfg).2 = Some p2 → measurable p1 p2) as Hnot.
        { intros Hall. destruct Hpts as (n & c & p1 & p2 & Hin & H1 & H2 & Hp).
          by eapply Hp, Hall. }
        split; [intros [_ Hall]; done | reflexivity].
    + split; [intros [Hall _]; done | reflexivity].
Qed.

Lemma calibration_names (H : float) :
  Forall (λ item : string * circ_config,
            item.1 ∈ MEASUREMENTS_TO_CAPTURE
            ∧ (indices item.2).1 < 29 ∧ (indices item.2).2 < 29)
         (CIRCUMFERENCE_POINTS (init H))
  ∧ (CIRCUMFERENCE_POINTS (init H)).*1 = MEASUREMENTS_TO_CAPTURE.
Proof.
  split; [|reflexivity]. cbn [CIRCUMFERENCE_POINTS init].
  repeat (apply Forall_cons_2 || apply Forall_nil_2);
    (split; [apply list_elem_of_In; simpl; tauto | simpl; lia]).
Qed.

Lemma measurement_keys (H : float) (lms : landmarks3d) (measurements : gmap string float) :
  calculate_circumference_only (init H) (Some lms) = Ok (Some measurements) →
  (CIRCUMFERENCE_POINTS (init H)).*1 = MEASUREMENTS_TO_CAPTURE
  ∧ (∀ name, is_Some (measurements !! name) → name ∈ MEASUREMENTS_TO_CAPTURE)
  ∧ (Forall is_Some lms →
     ∀ name, name ∈ MEASUREMENTS_TO_CAPTURE → is_Some (measurements !! name)).
Proof.
  intros Hcalc. destruct (calibration_names H) as [Htable Hnames].
  split; [exact Hnames|].
  unfold calculate_circumference_only in Hcalc.
  destruct (scale_factor (init H) lms) as [scale|e] eqn:Hscale; [|discriminate Hcalc].
  rewrite bind_Ok in Hcalc.
  destruct (for_each_measure_cases lms scale (CIRCUMFERENCE_POINTS (init H)) ∅)
    as [[_ Hf]|[_ Hf]]; rewrite Hf in Hcalc; [|discriminate Hcalc].
  rewrite bind_Ok in Hcalc. apply Ok_inj, (inj Some) in Hcalc. subst measurements.
  assert (∀ name,
            foldl (with_entry lms scale) ∅ (CIRCUMFERENCE_POINTS (init H)) !! name
            = (list_to_map (CIRCUMFERENCE_POINTS (init H)) : gmap string circ_config) !! name
                ≫= measured lms scale) as Hlook.
  { intros name. rewrite foldl_with_entry_lookup by apply CIRCUMFERENCE_POINTS_NoDup.
    destruct (_ ≫= _); [reflexivity | apply lookup_empty]. }
  rewrite Forall_forall in Htable. split.
  - intros name [v Hv]. rewrite Hlook in Hv.
    apply bind_Some in Hv as (cfg & Hcfg & _). apply calibration_entry in Hcfg.
    apply (Htable (name, cfg) Hcfg).
  - intros Hfull name Hname. rewrite <- Hnames in Hname.
    apply list_elem_of_fmap in Hname as ([name' cfg] & -> & Hcfg). cbn [fst].
    rewrite Hlook. rewrite (proj1 (calibration_entry H name' cfg) Hcfg).
    cbn [mbind option_bind].
    destruct (Htable _ Hcfg) as (_ & H1 & H2). cbn [fst snd] in H1, H2.
    assert (29 ≤ length lms) as Hlen.
    { unfold scale_factor in Hscale. destruct lms as [|[h|] lms'].
      - discriminate.
      - cbn in Hscale. destruct (index (Some h :: lms') 29) eqn:Hfoot; [|discriminate].
        unfold index in Hfoot. destruct (_ !! 29) eqn:H29; [|discriminate].
        apply lookup_lt_Some in H29. lia.
      - apply Forall_cons in Hfull as [[? ?] _]. discriminate. }
    assert (∀ i, i < 29 → is_Some (joint lms i)) as Hjoint.
    { intros i Hi. unfold joint.
      destruct (lookup_lt_is_Some_2 lms i ltac:(lia)) as [c Hc]. rewrite Hc.
      rewrite Forall_forall in Hfull. apply Hfull. by eapply list_elem_of_lookup_2. }
    unfold measured.
    destruct (Hjoint _ H1) as [p1 ->], (Hjoint _ H2) as [p2 ->]. eauto.
Qed.

(** X6. The keys of a result are always among the eleven names of
    [MEASUREMENTS_TO_CAPTURE], the names of the calibration table in its
    order; and when no joint of the landmark list is missing, the result has
    all eleven. *)
Theorem measurement_names (H : float) (lms : landmarks3d) (measurements : gmap string float) :
  calculate_circumference_only (init H) (Some lms) = Ok (Some measurements) →
  (CIRCUMFERENCE_POINTS (init H)).*1 = MEASUREMENTS_TO_CAPTURE
  ∧ dom measurements ⊆ list_to_set MEASUREMENTS_TO_CAPTURE
  ∧ (Forall is_Some lms → dom measurements = list_to_set MEASUREMENTS_TO_CAPTURE).
Proof.
  intros Hcalc. destruct (measurement_keys H lms measurements Hcalc) as (Ht & Hsub & Hall).
  split; [exact Ht|]. split.
  - intros name Hname. apply elem_of_dom in Hname. apply elem_of_list_to_set. auto.
  - intros Hfull. apply set_eq. intros name.
    rewrite elem_of_dom, elem_of_list_to_set. split; [apply Hsub | by apply Hall].
Qed.

(** *** The capture loop: stable runs and bursts *)

(** An iteration that goes on to the next frame. *)
Lemma loop_body_Next (H : float) (st st' : capture_state) (f : camera_frame) :
  loop_body (init H) st f = Ok (Next st') →
  ret f = true
  ∧ st' = (capture_frame (init H) (update_stability st (frame_valid (init H) f))
                         (frame_landmarks (init H) f)).1.
Proof.
  intros Hbody. destruct (ret f) eqn:Hret.
  - split; [reflexivity|].
    destruct (loop_body_read H st f Hret) as (v & sc & iss & Hq & Hrun).
    cbv zeta in Hrun. unfold frame_valid, frame_landmarks. rewrite Hq.
    rewrite Hrun in Hbody. destruct (capture_frame _ _ _).2; [discriminate|].
    repeat case_match; congruence.
  - unfold loop_body in Hbody. rewrite Hret in Hbody. discriminate.
Qed.



Lemma capture_loop_snoc (self : Reconstructor) (st0 st' : capture_state)
    (frames : list camera_frame) (f : camera_frame) :
  capture_loop self st0 (frames ++ [f]) = Ok (Waiting st') →
  ∃ st, capture_loop self st0 frames = Ok (Waiting st)
        ∧ loop_body self st f = Ok (Next st').
Proof.
  rewrite capture_loop_app. intros Hrun.
  apply bind_Ok_inv in Hrun as (e & He & Hlast).
  destruct e as [st|why st|]; [|discriminate..].
  exists st. split; [exact He|]. cbn [capture_loop] in Hlast.
  apply bind_Ok_inv in Hlast as (it & Hit & Hend).
  destruct it; [|discriminate..]. injection Hend as <-. exact Hit.
Qed.

(** The stable count and the capturing flag after one more frame. *)
Lemma stability_step (self : Reconstructor) (st : capture_state) (v : bool)
    (landmarks_2d : option landmarks2d) :
  let st' := (capture_frame self (update_stability st v) landmarks_2d).1 in
  pose_stable_count st' = (if v then pose_stable_count st + 1 else 0)
  ∧ auto_capture_started st'
    = (if v then auto_capture_started st || (15 <=? pose_stable_count st + 1)
       else false).
Proof.
  cbv zeta. destruct (capture_frame_keeps self (update_stability st v) landmarks_2d)
    as [-> ->].
  unfold update_stability, pose_stable_threshold.
  destruct v, (auto_capture_started st); cbn [pose_stable_count auto_capture_started negb andb orb];
    try done.
  split; [reflexivity|]. by destruct (15 <=? pose_stable_count st + 1).
Qed.

Lemma stable_run_waiting (H : float) (frames : list camera_frame)
    (st : capture_state) :
  capture_loop (init H) initial_state frames = Ok (Waiting st) →
  let n := pose_stable_count st in
  n ≤ length frames
  ∧ Forall (λ f, frame_valid (init H) f = true) (drop (length frames - n) frames)
  ∧ (n < length frames →
     ∃ f, frames !! (length frames - n - 1) = Some f ∧ frame_valid (init H) f = false)
  ∧ (auto_capture_started st = true ↔ 15 ≤ n).
Proof.
  revert st. induction frames as [|f frames IH] using rev_ind; intros st Hrun.
  - injection Hrun as <-. cbv zeta. simpl. repeat split; try done; lia.
  - apply capture_loop_snoc in Hrun as (st0 & Hrun & Hbody).
    destruct (IH st0 Hrun) as (Hle & Hvalid & Hbefore & Hstarted).
    apply loop_body_Next in Hbody as (_ & ->).
    destruct (stability_step (init H) st0 (frame_valid (init H) f)
                (frame_landmarks (init H) f)) as [Hcount Hflag].
    cbv zeta. rewrite Hcount, Hflag, length_app. cbn [length].
    destruct (frame_valid (init H) f) eqn:Hv.
    + split; [lia|]. split; [|split].
      * replace (length frames + 1 - (pose_stable_count st0 + 1))
          with (length frames - pose_stable_count st0) by lia.
        rewrite drop_app_le by lia. apply Forall_app. split; [exact Hvalid|].
        by apply Forall_singleton.
      * intros Hlt. destruct Hbefore as (g & Hg & Hgv); [lia|].
        exists g. split; [|exact Hgv].
        replace (length frames + 1 - (pose_stable_count st0 + 1) - 1)
          with (length frames - pose_stable_count st0 - 1) by lia.
        rewrite lookup_app_l by lia. exact Hg.
      * rewrite orb_true_iff, Nat.leb_le, Hstarted. lia.
    + split; [lia|]. split; [|split].
      * rewrite Nat.sub_0_r, drop_ge by (rewrite length_app; simpl; lia). constructor.
      * intros _. exists f. split; [|exact Hv].
        replace (length frames + 1 - 0 - 1) with (length frames) by lia.
        apply list_lookup_middle. reflexivity.
      * split; [discriminate | lia].
Qed.

(** X7. While the loop is running, [pose_stable_count] is the length of
    the run of valid frames that ends the stream so far, and the view is
    capturing exactly when that run has 15 frames or more. *)
Theorem capturing_after_stable_run (H : float) (frames : list camera_frame)
    (st : capture_state) :
  capture_loop (init H) initial_state frames = Ok (Waiting st) →
  let n := pose_stable_count st in
  n ≤ length frames
  ∧ Forall (λ f, frame_valid (init H) f = true) (drop (length frames - n) frames)
  ∧ (n < length frames →
     ∃ f, frames !! (length frames - n - 1) = Some f ∧ frame_valid (init H) f = false)
  ∧ (auto_capture_started st = true ↔ 15 ≤ n).
Proof. exact (stable_run_waiting H frames st). Qed.






(** *** Where the frames of a burst come from *)

Lemma full_frame_not_None (lms : landmarks2d) :
  full_frame lms → length (not_None lms) = length lms.
Proof.
  intros [_ Hall]. unfold not_None. induction Hall as [|j lms [x ->] _ IH]; [reflexivity|].
  cbn. by rewrite IH.
Qed.

Lemma frame_valid_count (H : float) (f : camera_frame) (lms : landmarks2d) :
  frame_valid (init H) f = true → frame_landmarks (init H) f = Some lms →
  28 ≤ length (not_None lms).
Proof.
  unfold frame_valid. intros Hv Hlms. rewrite Hlms in Hv.
  unfold assess_pose_quality in Hv.
  cbn [min_joints_visible init] in Hv.
  destruct (Nat.ltb_spec (length (not_None lms)) 28); [discriminate | done].
Qed.

Lemma accepted_step (H : float) (F : list camera_frame) (st : capture_state)
    (f : camera_frame) :
  f ∈ F → ret f = true →
  Forall (accepted_from (init H) F) (valid_landmarks_list st) →
  Forall (accepted_from (init H) F)
         (valid_landmarks_list
            (capture_frame (init H) (update_stability st (frame_valid (init H) f))
                           (frame_landmarks (init H) f)).1).
Proof.
  intros Hin Hret Hall. destruct (frame_valid (init H) f) eqn:Hv.
  - unfold capture_frame.
    assert (valid_landmarks_list (update_stability st true) = valid_landmarks_list st)
      as Hlist by reflexivity.
    destruct (auto_capture_started (update_stability st true));
      [|by cbn [fst]; rewrite Hlist].
    destruct (frame_landmarks (init H) f) as [lms|] eqn:Hlms;
      [|by cbn [fst]; rewrite Hlist].
    destruct (all_joints_present (Some lms)); [|by cbn [fst]; rewrite Hlist].
    cbn [fst valid_landmarks_list]. rewrite Hlist. apply Forall_app. split; [done|].
    apply Forall_singleton. exists f. done.
  - rewrite capture_frame_idle.
    + unfold update_stability. destruct (auto_capture_started st); [constructor | done].
    + unfold update_stability. by destruct (auto_capture_started st) eqn:Hs.
Qed.

Lemma capture_loop_accepted (H : float) (F frames : list camera_frame)
    (st st' : capture_state) (e : loop_end) :
  (∀ f, f ∈ frames → f ∈ F) →
  Forall (accepted_from (init H) F) (valid_landmarks_list st) →
  capture_loop (init H) st frames = Ok e →
  loop_end_state e = Some st' →
  Forall (accepted_from (init H) F) (valid_landmarks_list st').
Proof.
  revert st. induction frames as [|f frames IH]; intros st Hsub Hall Hrun Hend.
  - apply Ok_inj in Hrun. subst e. injection Hend as <-. exact Hall.
  - cbn [capture_loop] in Hrun. apply bind_Ok_inv in Hrun as (it & Hit & Hrun).
    assert (f ∈ F) as Hf by (apply Hsub, list_elem_of_here).
    destruct it as [st1|why st1|].
    + apply loop_body_Next in Hit as (Hret & ->).
      apply (IH _ (λ g Hg, Hsub g (list_elem_of_further _ _ _ Hg))
               (accepted_step H F st f Hf Hret Hall) Hrun Hend).
    + apply Ok_inj in Hrun. subst e. injection Hend as <-.
      destruct (ret f) eqn:Hret.
      * destruct (loop_body_read H st f Hret) as (v & sc & iss & Hq & Hbody).
        cbv zeta in Hbody. rewrite Hbody in Hit.
        pose proof (accepted_step H F st f Hf Hret Hall) as Hstep.
        unfold frame_valid, frame_landmarks in Hstep. rewrite Hq in Hstep.
        destruct (capture_frame _ _ _).2;
          repeat case_match; apply Ok_inj in Hit; try discriminate;
          injection Hit as _ <-; exact Hstep.
      * unfold loop_body in Hit. rewrite Hret in Hit.
        apply Ok_inj in Hit. injection Hit as _ <-. exact Hall.
    + apply Ok_inj in Hrun. subst e. discriminate.
Qed.

(** X9. Every frame of a burst, at any moment, is the landmark list of a
    frame of the stream that was read and judged valid, and it has all its
    joints, at least 28 of them. *)
Theorem burst_from_valid_frames (H : float) (frames : list camera_frame)
    (e : loop_end) (st : capture_state) :
  capture_loop (init H) initial_state frames = Ok e →
  loop_end_state e = Some st →
  Forall (λ lms, accepted_from (init H) frames lms
                 ∧ Forall is_Some lms
                 ∧ 28 ≤ length lms)
         (valid_landmarks_list st).
Proof.
  intros Hrun Hend.
  pose proof (capture_loop_accepted H frames frames initial_state st e
                (λ f Hf, Hf) (Forall_nil_2 _) Hrun Hend) as Hfrom.
  destruct (capture_loop_Ok H frames initial_state) as (e' & He' & Hinv).
  { apply initial_inv. simpl. lia. }
  rewrite Hrun in He'. apply Ok_inj in He'. subst e'.
  assert (Forall full_frame (valid_landmarks_list st)) as Hfull.
  { destruct e as [?|[] ?|]; simpl in Hend; try discriminate; injection Hend as ->;
      simpl in Hinv; unfold burst_inv, burst_done in Hinv; tauto. }
  rewrite Forall_forall in Hfrom, Hfull. apply Forall_forall. intros lms Hin.
  split; [by apply Hfrom|]. destruct (Hfull lms Hin) as [Hne Hall]. split; [exact Hall|].
  destruct (Hfrom lms Hin) as (f & _ & _ & Hv & Hlms).
  rewrite <- (full_frame_not_None lms) by done. by eapply frame_valid_count.
Qed.

Lemma average_full_frames (first : landmarks2d) (rest : list landmarks2d)
    (averaged : option landmarks2d) :
  Forall (λ lms : landmarks2d, Forall is_Some lms) (first :: rest) →
  _average_landmarks (first :: rest) = Ok averaged →
  ∃ lms, averaged = Some lms ∧ length lms = length first ∧ Forall is_Some lms.
Proof.
  intros Hfull Havg. unfold _average_landmarks in Havg.
  apply bind_Ok_inv in Havg as (lms & Hm & Hret). apply Ok_inj in Hret. subst averaged.
  exists lms. split; [reflexivity|]. apply mapM_Ok_inv in Hm.
  split; [by rewrite <- (Forall2_length _ _ _ Hm), length_seq|].
  apply Forall_forall. intros pt Hpt. apply list_elem_of_lookup in Hpt as [i Hi].
  destruct (Forall2_lookup_r _ _ _ i pt Hm Hi) as (idx & _ & Hpts).
  apply bind_Ok_inv in Hpts as (pts & Hpts & Hret). apply Ok_inj in Hret. subst pt.
  unfold valid_points in Hpts. apply bind_Ok_inv in Hpts as (cells & Hcells & Hret).
  apply Ok_inj in Hret. subst pts. apply mapM_Ok_inv in Hcells.
  inversion Hcells as [|frame cell frames' cells' Hcell Hcells' Ha Hb]; subst.
  assert (is_Some cell) as [p ->].
  { apply Forall_cons in Hfull as [Hfirst _]. rewrite Forall_forall in Hfirst.
    apply Hfirst. unfold index in Hcell. destruct (first !! idx) eqn:Hl; [|discriminate].
    apply Ok_inj in Hcell. subst. by eapply list_elem_of_lookup_2. }
  unfold not_None. cbn. eauto.
Qed.

(** A successful view capture: its result is the average of a burst whose
    first frame was accepted from the stream, and has no missing joint. *)
Lemma view_success_full (H : float) (frames : list camera_frame)
    (capture_complete : bool) (averaged : option landmarks2d) :
  auto_capture_view (init H) frames = Ok (Returned capture_complete (true, averaged)) →
  capture_complete = false
  ∧ ∃ lms first,
      averaged = Some lms ∧ length lms = length first ∧ Forall is_Some lms
      ∧ accepted_from (init H) frames first ∧ full_frame first.
Proof.
  intros Hview. unfold auto_capture_view in Hview.
  apply bind_Ok_inv in Hview as (e & He & Hview).
  destruct e as [st|why st|]; [discriminate| |discriminate].
  pose proof (capture_loop_accepted H frames frames initial_state st (Broke why st)
                (λ f Hf, Hf) (Forall_nil_2 _) He eq_refl) as Hfrom.
  destruct (capture_loop_Ok H frames initial_state) as (e' & He' & Hinv).
  { apply initial_inv. simpl. lia. }
  rewrite He in He'. apply Ok_inj in He'. subst e'.
  assert (Forall full_frame (valid_landmarks_list st)) as Hfull.
  { destruct why; simpl in Hinv; unfold burst_inv, burst_done in Hinv; tauto. }
  destruct (valid_landmarks_list st) as [|first rest] eqn:Hlist; [discriminate|].
  apply bind_Ok_inv in Hview as (avg & Havg & Hret).
  apply Ok_inj in Hret. injection Hret as <- <-. split; [reflexivity|].
  destruct (average_full_frames first rest avg) as (lms & -> & Hlen & Hall).
  { eapply Forall_impl; [exact Hfull|]. by intros ? [_ ?]. }
  { exact Havg. }
  exists lms, first. split; [reflexivity|]. split; [exact Hlen|]. split; [exact Hall|].
  apply Forall_cons in Hfrom as [Hfirst _]. apply Forall_cons in Hfull as [Hff _]. done.
Qed.

(** X10. A successful view capture always returns a landmark list, never
    [None], and the list has at least 28 joints, none of them missing. *)
Theorem view_result_has_all_joints (H : float) (frames : list camera_frame)
    (capture_complete : bool) (averaged : option landmarks2d) :
  auto_capture_view (init H) frames = Ok (Returned capture_complete (true, averaged)) →
  ∃ lms, averaged = Some lms ∧ 28 ≤ length lms ∧ Forall is_Some lms.
Proof.
  intros Hview.
  destruct (view_success_full H frames capture_complete averaged Hview)
    as (_ & lms & first & -> & Hlen & Hall & (f & _ & _ & Hv & Hlms) & Hfull).
  exists lms. split; [reflexivity|]. split; [|exact Hall]. rewrite Hlen.
  rewrite <- (full_frame_not_None first) by done. by eapply frame_valid_count.
Qed.

(** *** The session *)

Lemma capture_loop_from_fst (self : Reconstructor) (st : capture_state)
    (frames : list camera_frame) :
  capture_loop self st frames = (r ← capture_loop_from self st frames; mret r.1).
Proof.
  revert st. induction frames as [|f frames IH]; intros st; [reflexivity|].
  cbn [capture_loop capture_loop_from].
  destruct (loop_body self st f) as [[st'|why st'|]|e]; try reflexivity.
  rewrite !bind_Ok. apply IH.
Qed.

Lemma capture_loop_from_suffix (self : Reconstructor) (st : capture_state)
    (frames rest : list camera_frame) (e : loop_end) :
  capture_loop_from self st frames = Ok (e, rest) → rest `suffix_of` frames.
Proof.
  revert st. induction frames as [|f frames IH]; intros st Hrun.
  - apply Ok_inj in Hrun. injection Hrun as _ <-. done.
  - cbn [capture_loop_from] in Hrun. apply bind_Ok_inv in Hrun as (it & _ & Hrun).
    destruct it as [st'|why st'|].
    + apply suffix_cons_r. by eapply IH.
    + apply Ok_inj in Hrun. injection Hrun as _ <-. apply suffix_cons_r. done.
    + apply Ok_inj in Hrun. injection Hrun as _ <-. apply suffix_cons_r. done.
Qed.

Lemma auto_capture_view_from_fst (self : Reconstructor) (frames : list camera_frame) :
  auto_capture_view self frames = (r ← auto_capture_view_from self frames; mret r.1).
Proof.
  unfold auto_capture_view, auto_capture_view_from. rewrite capture_loop_from_fst.
  destruct (capture_loop_from self initial_state frames) as [[e rest]|err];
    [|reflexivity].
  rewrite !bind_Ok. cbn [fst].
  destruct e as [st|why st|]; try reflexivity.
  destruct (valid_landmarks_list st); [reflexivity|].
  destruct (_average_landmarks _); reflexivity.
Qed.

Lemma auto_capture_view_from_Ok (self : Reconstructor) (frames rest : list camera_frame)
    (outcome : view_outcome) :
  auto_capture_view_from self frames = Ok (outcome, rest) →
  auto_capture_view self frames = Ok outcome ∧ rest `suffix_of` frames.
Proof.
  intros Hview. split; [by rewrite auto_capture_view_from_fst, Hview|].
  unfold auto_capture_view_from in Hview.
  apply bind_Ok_inv in Hview as ([e rest'] & Hloop & Hview).
  apply capture_loop_from_suffix in Hloop.
  destruct e as [st|why st|].
  - apply Ok_inj in Hview. by injection Hview as _ <-.
  - destruct (valid_landmarks_list st).
    + apply Ok_inj in Hview. by injection Hview as _ <-.
    + apply bind_Ok_inv in Hview as (avg & _ & Hview).
      apply Ok_inj in Hview. by injection Hview as _ <-.
  - apply Ok_inj in Hview. by injection Hview as _ <-.
Qed.

Lemma view_success_full_view (H : float) (frames : list camera_frame)
    (quit : bool) (averaged : option landmarks2d) :
  auto_capture_view (init H) frames = Ok (Returned quit (true, averaged)) →
  quit = false ∧ full_view averaged.
Proof.
  intros Hview.
  destruct (view_success_full H frames quit averaged Hview)
    as (-> & lms & first & -> & Hlen & Hall & (f & _ & _ & Hv & Hlms) & Hfull).
  split; [reflexivity|]. exists lms. split; [reflexivity|]. split; [|exact Hall].
  rewrite Hlen. rewrite <- (full_frame_not_None first) by done.
  by eapply frame_valid_count.
Qed.

Lemma capture_views_fresh (H : float) (remaining : list string)
    (landmarks_dict : gmap string (option landmarks2d)) (frames : list camera_frame)
    (e : views_end) :
  (∀ v avg, landmarks_dict !! v = Some avg → full_view avg) →
  capture_views (init H) false remaining landmarks_dict frames = Ok e →
  match e with
  | ViewsWaiting => True
  | ViewsFailed view _ => view ∈ remaining
  | ViewsDone quit dict' =>
      quit = false
      ∧ (∀ v avg, dict' !! v = Some avg → full_view avg)
      ∧ (∀ v, v ∈ remaining → is_Some (dict' !! v))
      ∧ (∀ v, is_Some (landmarks_dict !! v) → is_Some (dict' !! v))
  end.
Proof.
  revert landmarks_dict frames.
  induction remaining as [|view remaining IH]; intros dict frames Hdict Hrun.
  - apply Ok_inj in Hrun. subst e. repeat split; try done.
    intros v Hv. by apply elem_of_nil in Hv.
  - cbn [capture_views] in Hrun.
    apply bind_Ok_inv in Hrun as ([outcome rest] & Hview & Hrun).
    apply auto_capture_view_from_Ok in Hview as [Hview _].
    destruct outcome as [st|quit [success landmarks]].
    + apply Ok_inj in Hrun. by subst e.
    + destruct success.
      * apply view_success_full_view in Hview as [-> Hfull].
        apply IH in Hrun.
        -- destruct e as [|v q|q dict']; [done| |].
           ++ by apply list_elem_of_further.
           ++ destruct Hrun as (-> & Hd & Hrem & Hkeep).
              split; [reflexivity|]. split; [exact Hd|]. split.
              ** intros v Hv. apply elem_of_cons in Hv as [->|Hv]; [|by apply Hrem].
                 apply Hkeep. rewrite lookup_insert_eq. eauto.
              ** intros v Hv. apply Hkeep.
                 destruct (decide (view = v)) as [->|Hne];
                   [rewrite lookup_insert_eq; eauto | by rewrite lookup_insert_ne].
        -- intros v avg Hv. destruct (decide (view = v)) as [->|Hne].
           ++ rewrite lookup_insert_eq in Hv. by injection Hv as <-.
           ++ rewrite lookup_insert_ne in Hv by done. by eapply Hdict.
      * apply Ok_inj in Hrun. subst e. apply list_elem_of_here.
Qed.

Lemma triangulate_full_views (fr le ba ri : landmarks2d) (r : option landmarks3d) :
  0 < length fr → 0 < length le → 0 < length ba → 0 < length ri →
  Forall is_Some fr → Forall is_Some le → Forall is_Some ba → Forall is_Some ri →
  triangulate_4view (Some fr) (Some le) (Some ba) (Some ri) = Ok r →
  ∃ landmarks_3d,
    r = Some landmarks_3d ∧ length landmarks_3d = length fr
    ∧ Forall is_Some landmarks_3d.
Proof.
  intros H0 H1 H2 H3 Hfr Hle Hba Hri Hrun. unfold triangulate_4view in Hrun.
  rewrite !truthy_nonempty in Hrun by done. cbn [andb] in Hrun.
  apply bind_Ok_inv in Hrun as (out & Hm & Hret). apply Ok_inj in Hret. subst r.
  exists out. split; [reflexivity|]. apply mapM_Ok_inv in Hm.
  split; [by rewrite <- (Forall2_length _ _ _ Hm), length_seq|].
  apply Forall_forall. intros pt Hpt. apply list_elem_of_lookup in Hpt as [i Hi].
  destruct (Forall2_lookup_r _ _ _ i pt Hm Hi) as (idx & _ & Hpt).
  assert (∀ (view : landmarks2d) c,
            Forall is_Some view → index view idx = Ok c → is_Some c) as Hcell.
  { intros view c Hview Hc. unfold index in Hc.
    destruct (view !! idx) eqn:Hl; [|discriminate]. apply Ok_inj in Hc. subst.
    rewrite Forall_forall in Hview. apply Hview. by eapply list_elem_of_lookup_2. }
  apply bind_Ok_inv in Hpt as (c0 & Hc0 & Hpt).
  apply bind_Ok_inv in Hpt as (c1 & Hc1 & Hpt).
  apply bind_Ok_inv in Hpt as (c2 & Hc2 & Hpt).
  apply bind_Ok_inv in Hpt as (c3 & Hc3 & Hpt). apply Ok_inj in Hpt. subst pt.
  destruct (Hcell _ _ Hfr Hc0) as [? ->], (Hcell _ _ Hle Hc1) as [? ->],
           (Hcell _ _ Hba Hc2) as [? ->], (Hcell _ _ Hri Hc3) as [? ->].
  cbn. eauto.
Qed.

(** X11. A session started on a fresh instance ends in one of two ways
    only: a view failed to be captured (a quit by 'q' is reported that way
    too, with [capture_complete] set), or the measurements were saved, and
    then all eleven measurements are present, under the user's height and
    the time of saving. It never reports a failure to reconstruct or to
    calculate, nor a cancellation; a session started with [capture_complete]
    already set is reported as cancelled without a frame being read. *)
Theorem fresh_session_outcomes (H : float) (now : string) (frames : list camera_frame) :
  (∀ out,
     run_full_capture (init H) false now frames = Ok out →
     match out with
     | SessionWaiting => True
     | SessionFailed _ why => ∃ view, view ∈ views ∧ why = CaptureFailed view
     | SessionSaved output_file output =>
         dom (measurements output) = list_to_set MEASUREMENTS_TO_CAPTURE
         ∧ saved_height_cm output = H
         ∧ timestamp output = now
         ∧ output_file = "body_measurements_" +:+ replace_char colon hyphen now +:+ ".json"
     end)
  ∧ run_full_capture (init H) true now frames = Ok (SessionFailed true CancelledByUser).
Proof.
  split; [|reflexivity]. intros out Hrun. unfold run_full_capture in Hrun.
  apply bind_Ok_inv in Hrun as (e & He & Hrun).
  apply capture_views_fresh in He; [|intros v avg Hv; by rewrite lookup_empty in Hv].
  destruct e as [|view quit|quit dict].
  - apply Ok_inj in Hrun. by subst out.
  - apply Ok_inj in Hrun. subst out. eauto.
  - destruct He as (-> & Hfull & Hall & _).
    assert (∀ v, v ∈ views →
              ∃ lms, dict_get_view dict v = Some lms ∧ 28 ≤ length lms
                     ∧ Forall is_Some lms) as Hview.
    { intros v Hv. destruct (Hall v Hv) as [avg Havg].
      destruct (Hfull v avg Havg) as (lms & -> & Hlen & Hsome).
      exists lms. unfold dict_get_view. rewrite Havg. done. }
    destruct (Hview "front"%string) as (fr & Efr & Hfr & Hfr');
      [apply list_elem_of_In; simpl; tauto|].
    destruct (Hview "left"%string) as (le & Ele & Hle & Hle');
      [apply list_elem_of_In; simpl; tauto|].
    destruct (Hview "back"%string) as (ba & Eba & Hba & Hba');
      [apply list_elem_of_In; simpl; tauto|].
    destruct (Hview "right"%string) as (ri & Eri & Hri & Hri');
      [apply list_elem_of_In; simpl; tauto|].
    rewrite Efr, Ele, Eba, Eri in Hrun.
    apply bind_Ok_inv in Hrun as (r & Htri & Hrun).
    apply triangulate_full_views in Htri as (lms3 & -> & Hlen3 & Hsome3);
      [|lia|lia|lia|lia|done..].
    apply bind_Ok_inv in Hrun as (sm & Hcalc & Hrun).
    assert (∃ m, sm = Some m) as [m ->].
    { unfold calculate_circumference_only in Hcalc.
      apply bind_Ok_inv in Hcalc as (scale & _ & Hret).
      apply bind_Ok_inv in Hret as (m & _ & Hret). apply Ok_inj in Hret. eauto. }
    destruct (measurement_keys H lms3 m Hcalc) as (_ & Hsub & Hnames).
    destruct (decide (m = ∅)) as [->|Hne].
    { exfalso. destruct (Hnames Hsome3 "chest"%string) as [v Hv];
        [apply list_elem_of_here|]. by rewrite lookup_empty in Hv. }
    unfold _save_measurements in Hrun. apply Ok_inj in Hrun. subst out.
    cbn [measurements saved_height_cm timestamp user_height_cm init].
    split; [|done]. apply set_eq. intros name.
    rewrite elem_of_dom, elem_of_list_to_set. split; [apply Hsub | by apply Hnames].
Qed.

Lemma accepted_length (H : float) (F : list camera_frame) (N : nat) (lms : landmarks2d) :
  Forall (pose_size N) F → accepted_from (init H) F lms → length lms = N.
Proof.
  intros Hsize (f & Hin & _ & _ & Hlms). rewrite Forall_forall in Hsize.
  specialize (Hsize f Hin). unfold frame_landmarks in Hlms.
  destruct (pose_landmarks f) as [pose|] eqn:Hpose; [|discriminate].
  destruct (extract_not_None (init H) pose (frame_shape f)) as (lms' & Hx & Hlen & _).
  rewrite Hx in Hlms. injection Hlms as <-. rewrite Hlen. by apply Hsize.
Qed.

Lemma average_same_length (N : nat) (first : landmarks2d) (rest : list landmarks2d) :
  Forall (λ frame, length frame = N) (first :: rest) →
  ∃ averaged, _average_landmarks (first :: rest) = Ok averaged.
Proof.
  intros Hlen. assert (length first = N) as HN by (by inversion Hlen).
  eexists. unfold _average_landmarks. rewrite HN.
  rewrite (mapM_Ok _ (λ idx, average_point (present_at idx (first :: rest))));
    [reflexivity|].
  intros idx Hin. apply elem_of_seq in Hin.
  rewrite (valid_points_Ok _ N) by (done || lia). reflexivity.
Qed.

Lemma view_from_total (H : float) (N : nat) (frames : list camera_frame) :
  Forall (pose_size N) frames →
  ∃ outcome rest,
    auto_capture_view_from (init H) frames = Ok (outcome, rest)
    ∧ Forall (pose_size N) rest
    ∧ ∀ quit averaged,
        outcome = Returned quit (true, averaged) →
        quit = false ∧ full_view_of N averaged.
Proof.
  intros Hsize.
  destruct (capture_loop_Ok H frames initial_state) as (e & He & Hinv).
  { apply initial_inv. simpl. lia. }
  pose proof He as Hfrom. rewrite capture_loop_from_fst in Hfrom.
  destruct (capture_loop_from (init H) initial_state frames) as [[e' rest]|err] eqn:Hloop;
    [|discriminate].
  rewrite bind_Ok in Hfrom. apply Ok_inj in Hfrom. cbn [fst] in Hfrom. subst e'.
  assert (Forall (pose_size N) rest) as Hrest.
  { apply capture_loop_from_suffix in Hloop as [consumed ->].
    by apply Forall_app in Hsize as [_ ?]. }
  unfold auto_capture_view_from. rewrite Hloop, bind_Ok.
  destruct e as [st|why st|].
  - eexists _, _. split; [reflexivity|]. split; [exact Hrest | discriminate].
  - pose proof (capture_loop_accepted H frames frames initial_state st (Broke why st)
                  (λ f Hf, Hf) (Forall_nil_2 _) He eq_refl) as Haccepted.
    assert (Forall full_frame (valid_landmarks_list st)) as Hfull.
    { destruct why; simpl in Hinv; unfold burst_inv, burst_done in Hinv; tauto. }
    destruct (valid_landmarks_list st) as [|first more] eqn:Hlist.
    + eexists _, _. split; [reflexivity|]. split; [exact Hrest | discriminate].
    + assert (Forall (λ frame : landmarks2d, length frame = N) (first :: more)) as Hlen.
      { eapply Forall_impl; [exact Haccepted|]. intros lms Hlms.
        exact (accepted_length H frames N lms Hsize Hlms). }
      destruct (average_same_length N first more Hlen) as [avg Havg].
      rewrite Havg, bind_Ok. eexists _, _. split; [reflexivity|]. split; [exact Hrest|].
      intros quit averaged [= <- <-]. split; [reflexivity|].
      destruct (average_full_frames first more avg) as (lms & -> & Hl & Hall).
      { eapply Forall_impl; [exact Hfull|]. by intros ? [_ ?]. }
      { exact Havg. }
      exists lms. split; [reflexivity|]. split; [|exact Hall].
      rewrite Hl. by inversion Hlen.
  - eexists _, _. split; [reflexivity|]. split; [exact Hrest | discriminate].
Qed.

Lemma capture_views_total (H : float) (N : nat) (remaining : list string)
    (landmarks_dict : gmap string (option landmarks2d)) (frames : list camera_frame)
    (capture_complete : bool) :
  Forall (pose_size N) frames →
  (∀ v avg, landmarks_dict !! v = Some avg → full_view_of N avg) →
  ∃ e,
    capture_views (init H) capture_complete remaining landmarks_dict frames = Ok e
    ∧ match e with
      | ViewsDone quit dict' =>
          (∀ v avg, dict' !! v = Some avg → full_view_of N avg)
          ∧ (quit = false → ∀ v, v ∈ remaining → is_Some (dict' !! v))
          ∧ (∀ v, is_Some (landmarks_dict !! v) → is_Some (dict' !! v))
      | _ => True
      end.
Proof.
  revert landmarks_dict frames capture_complete.
  induction remaining as [|view remaining IH]; intros dict frames cc Hsize Hdict.
  - eexists. split; [reflexivity|]. repeat split; try done.
    intros _ v Hv. by apply elem_of_nil in Hv.
  - cbn [capture_views]. destruct cc.
    { eexists. split; [reflexivity|]. repeat split; try done. }
    destruct (view_from_total H N frames Hsize) as (outcome & rest & -> & Hrest & Hsuccess).
    rewrite bind_Ok. destruct outcome as [st|quit [success landmarks]].
    + eexists. split; [reflexivity | done].
    + destruct success; [|eexists; split; [reflexivity | done]].
      destruct (Hsuccess quit landmarks eq_refl) as [-> Hfull].
      destruct (IH (<[view := landmarks]> dict) rest false Hrest) as (e & -> & He).
      { intros v avg Hv. destruct (decide (view = v)) as [->|Hne].
        - rewrite lookup_insert_eq in Hv. by injection Hv as <-.
        - rewrite lookup_insert_ne in Hv by done. by eapply Hdict. }
      eexists. split; [reflexivity|].
      destruct e as [|v q|q dict']; [done..|].
      destruct He as (Hd & Hrem & Hkeep). split; [exact Hd|]. split.
      * intros Hq v Hv. apply elem_of_cons in Hv as [->|Hv]; [|by apply Hrem].
        apply Hkeep. rewrite lookup_insert_eq. eauto.
      * intros v Hv. apply Hkeep.
        destruct (decide (view = v)) as [->|Hne];
          [rewrite lookup_insert_eq; eauto | by rewrite lookup_insert_ne].
Qed.

Lemma triangulate_same_length (N : nat) (fr le ba ri : landmarks2d) :
  0 < N → length fr = N → length le = N → length ba = N → length ri = N →
  ∃ r, triangulate_4view (Some fr) (Some le) (Some ba) (Some ri) = Ok r.
Proof.
  intros HN Hfr Hle Hba Hri. eexists. unfold triangulate_4view.
  rewrite !truthy_nonempty by lia. cbn [andb]. rewrite Hfr.
  rewrite (mapM_Ok _ (λ idx, combine_point (joint fr idx) (joint le idx)
                                           (joint ba idx) (joint ri idx)));
    [reflexivity|].
  intros idx Hin. apply elem_of_seq in Hin. rewrite !index_joint by lia. reflexivity.
Qed.

(** X12. With a pose model that gives a fixed number of at least 30
    landmarks for every pose it finds (MediaPipe gives 33), a session never
    raises [IndexError] or [ZeroDivisionError], whatever the frames and the
    keys: it returns, unless the square of a coordinate difference of the
    combined landmarks leaves the float range, the only case in which it
    raises, and then [OverflowError]. *)
Theorem session_never_raises (H : float) (N : nat) (now : string)
    (frames : list camera_frame) (capture_complete : bool) :
  30 ≤ N →
  Forall (pose_size N) frames →
  (∃ out, run_full_capture (init H) capture_complete now frames = Ok out)
  ∨ run_full_capture (init H) capture_complete now frames = Raise OverflowError.
Proof.
  intros HN Hsize. unfold run_full_capture.
  destruct (capture_views_total H N views ∅ frames capture_complete Hsize)
    as (e & -> & He).
  { intros v avg Hv. by rewrite lookup_empty in Hv. }
  rewrite bind_Ok. destruct e as [|view quit|quit dict]; [left; by eexists..|].
  destruct quit; [left; by eexists|]. destruct He as (Hfull & Hall & _).
  assert (∀ v, v ∈ views →
            ∃ lms, dict_get_view dict v = Some lms ∧ length lms = N
                   ∧ Forall is_Some lms) as Hview.
  { intros v Hv. destruct (Hall eq_refl v Hv) as [avg Havg].
    destruct (Hfull v avg Havg) as (lms & -> & Hlen & Hsome).
    exists lms. unfold dict_get_view. rewrite Havg. done. }
  destruct (Hview "front"%string) as (fr & -> & Hfr & Hfr');
    [apply list_elem_of_In; simpl; tauto|].
  destruct (Hview "left"%string) as (le & -> & Hle & Hle');
    [apply list_elem_of_In; simpl; tauto|].
  destruct (Hview "back"%string) as (ba & -> & Hba & Hba');
    [apply list_elem_of_In; simpl; tauto|].
  destruct (Hview "right"%string) as (ri & -> & Hri & Hri');
    [apply list_elem_of_In; simpl; tauto|].
  destruct (triangulate_same_length N fr le ba ri) as [r Htri]; [lia|done..|].
  rewrite Htri, bind_Ok.
  apply triangulate_full_views in Htri as (lms3 & -> & Hlen3 & _); [|lia..|done|done|done|done].
  destruct (calculate_cases H lms3) as [(_ & m & _ & -> & _)|[_ ->]];
    [lia| |by right].
  left. rewrite bind_Ok.
  destruct (decide (_ = ∅)); [by eexists|].
  destruct (_save_measurements _ _ _). by eexists.
Qed.

(** *** The saved file *)

Lemma has_char_app (c : Ascii.ascii) (s t : string) :
  has_char c (s +:+ t) = has_char c s || has_char c t.
Proof.
  induction s as [|c' s IH]; [reflexivity|]. simpl. rewrite IH. apply orb_assoc.
Qed.

Lemma has_char_replace (s : string) :
  has_char colon (replace_char colon hyphen s) = false.
Proof.
  induction s as [|c s IH]; [reflexivity|]. cbn [replace_char has_char]. rewrite IH.
  destruct (Ascii.eqb c colon) eqn:Hc; [reflexivity|]. rewrite Hc. reflexivity.
Qed.

(** X13. The name of the saved file contains no colon, whatever the
    timestamp, and a timestamp without colons appears in it unchanged; the
    saved data hold the measurements and the height as they are. *)
Theorem saved_file_name_has_no_colon (self : Reconstructor)
    (self_measurements : gmap string float) (now : string) :
  let '(output_file, output) := _save_measurements self self_measurements now in
  has_char colon output_file = false
  ∧ (has_char colon now = false →
     output_file = "body_measurements_" +:+ now +:+ ".json")
  ∧ measurements output = self_measurements
  ∧ saved_height_cm output = user_height_cm self.
Proof.
  unfold _save_measurements. split; [|split; [|done]].
  - rewrite !has_char_app, has_char_replace. reflexivity.
  - intros Hnone. do 2 f_equal.
    induction now as [|c now IH]; [reflexivity|]. cbn [has_char] in Hnone.
    apply orb_false_iff in Hnone as [Hc Hnow]. cbn [replace_char].
    rewrite Hc, IH by done. reflexivity.
Qed.

End Further.

(** ** The analyzer *)

Section AnalyzerProperties.
Context {lib : FloatLib} {loglib : LogLib}.

Lemma numbers_loaded_items (items : list (string * measurement_value))
    (cs : float_dict) :
  numbers items = Some cs → items = loaded_items cs.
Proof.
  unfold numbers, loaded_items. intros Hnum. apply mapM_Some in Hnum.
  induction Hnum as [|[k v] [k' x] items cs Hitem _ IH]; [reflexivity|].
  cbn [fst snd] in Hitem. destruct v as [y|]; [|discriminate].
  injection Hitem as <- <-. rewrite fmap_cons, <- IH. reflexivity.
Qed.

Lemma dict_get_loaded_items (cs : float_dict) (k : string) :
  dict_get (loaded_items cs) k = Number <$> dict_get cs k.
Proof.
  unfold loaded_items. induction cs as [|[k' x] cs IH]; [reflexivity|].
  rewrite fmap_cons. cbn [dict_get fst snd]. by destruct (decide (k' = k)).
Qed.

(** A loaded file of the expected types is an object without
    circumferences or with numbers only. *)
Lemma float_items_Some (data : loaded_json) (cs : float_dict) :
  float_items data = Some cs →
  ∃ file, data = Session file
          ∧ ((file_circumferences file = None ∧ cs = [])
             ∨ file_circumferences file = Some (Measurements (loaded_items cs))).
Proof.
  destruct data as [|file]; [discriminate|]. cbn [float_items].
  destruct (file_circumferences file) as [[t|items]|] eqn:Hc; [discriminate| |].
  - intros Hnum. apply numbers_loaded_items in Hnum. subst items. eauto.
  - intros [= <-]. eauto.
Qed.

Lemma compare_item_floats (previous : loaded_json) (ps : float_dict)
    (cmp : comparison) (name : string) (value : float) :
  float_items previous = Some ps →
  compare_item previous cmp (name, Number value)
  = Ok (match dict_get ps name with
        | Some previous_val => compare_entry cmp name value previous_val
        | None => cmp
        end).
Proof.
  intros Hps. apply float_items_Some in Hps as (file & -> & [[Hc ->]|Hc]);
    cbn [compare_item]; rewrite Hc; [reflexivity|].
  rewrite dict_get_loaded_items. by destruct (dict_get ps name).
Qed.

Lemma compare_entry_lists (cmp : comparison) (name : string)
    (value previous_val : float) :
  let change := (value - previous_val)%float in
  ∃ r, ch_measurement r = name
    ∧ ((PrimFloat.ltb (PrimFloat.abs change) 1 = true
        ∧ compare_entry cmp name value previous_val
          = Comparison (improvements cmp) (deterioration cmp) (stable cmp ++ [r]))
       ∨ (PrimFloat.ltb (PrimFloat.abs change) 1 = false
          ∧ PrimFloat.ltb change 0 = true
          ∧ compare_entry cmp name value previous_val
            = Comparison (improvements cmp ++ [r]) (deterioration cmp) (stable cmp))
       ∨ (PrimFloat.ltb (PrimFloat.abs change) 1 = false
          ∧ PrimFloat.ltb change 0 = false
          ∧ compare_entry cmp name value previous_val
            = Comparison (improvements cmp) (deterioration cmp ++ [r]) (stable cmp))).
Proof.
  unfold compare_entry. cbv zeta.
  exists {| ch_measurement := name;
            ch_previous := py_round2 previous_val;
            ch_current := py_round2 value;
            ch_change := py_round2 (value - previous_val);
            ch_change_percent :=
              if negb (PrimFloat.eqb previous_val 0)
              then py_round2 ((value - previous_val) / previous_val * 100)%float
              else 0%float |}.
  split; [reflexivity|].
  destruct (PrimFloat.ltb (PrimFloat.abs _) 1); [left; done|].
  destruct (PrimFloat.ltb _ 0); [right; left; done | right; right; done].
Qed.

(** The loop of [compare_circumferences] on the items of two files of the
    expected types, from any accumulator. *)
Lemma compare_loop (previous : loaded_json) (ps all cs : float_dict)
    (cmp0 : comparison) :
  float_items previous = Some ps →
  (∀ item, item ∈ cs → item ∈ all) →
  ∃ cmp,
    for_each (compare_item previous) cmp0 (loaded_items cs) = Ok cmp
    ∧ compared_names cmp ≡ₚ compared_names cmp0 ++ common_names cs ps
    ∧ (∀ r, r ∈ stable cmp →
            r ∈ stable cmp0
            ∨ compared all ps (λ change,
                PrimFloat.ltb (PrimFloat.abs change) 1 = true) r)
    ∧ (∀ r, r ∈ improvements cmp →
            r ∈ improvements cmp0
            ∨ compared all ps (λ change,
                PrimFloat.ltb (PrimFloat.abs change) 1 = false
                ∧ PrimFloat.ltb change 0 = true) r)
    ∧ (∀ r, r ∈ deterioration cmp →
            r ∈ deterioration cmp0
            ∨ compared all ps (λ change,
                PrimFloat.ltb (PrimFloat.abs change) 1 = false
                ∧ PrimFloat.ltb change 0 = false) r).
Proof.
  intros Hps. revert cmp0. induction cs as [|[name value] cs IH]; intros cmp0 Hall.
  - exists cmp0. split; [reflexivity|]. split; [by rewrite app_nil_r|].
    repeat split; intros r Hr; by left.
  - unfold loaded_items. rewrite fmap_cons. fold (loaded_items cs).
    cbn [for_each fst snd]. rewrite (compare_item_floats previous ps) by done.
    rewrite bind_Ok.
    assert (∀ item, item ∈ cs → item ∈ all) as Hall'.
    { intros item Hitem. by apply Hall, list_elem_of_further. }
    unfold common_names. rewrite fmap_cons, filter_cons. cbn [fst].
    fold (common_names cs ps).
    destruct (dict_get ps name) as [previous_val|] eqn:Hprev.
    + rewrite decide_True by eauto.
      destruct (IH (compare_entry cmp0 name value previous_val) Hall')
        as (cmp & Hrun & Hnames & Hst & Himp & Hdet).
      exists cmp. split; [exact Hrun|].
      assert (∀ P : float → Prop, P (value - previous_val)%float →
                ∀ r, ch_measurement r = name → compared all ps P r) as Hnew.
      { intros P HP r Hname. exists value, previous_val. rewrite Hname.
        split; [apply Hall, list_elem_of_here | done]. }
      destruct (compare_entry_lists cmp0 name value previous_val)
        as (r & Hname & [(Hlt & Heq)|[(Hge & Hneg & Heq)|(Hge & Hpos & Heq)]]);
        cbv zeta in *; rewrite Heq in Hnames, Hst, Himp, Hdet;
        cbn [improvements deterioration stable] in Hst, Himp, Hdet.
      * split.
        { rewrite Hnames. unfold compared_names.
          cbn [improvements deterioration stable]. rewrite !fmap_app.
          cbn [fmap list_fmap]. rewrite Hname. solve_Permutation. }
        repeat split; [|exact Himp|exact Hdet].
        intros r' Hr'. destruct (Hst r' Hr') as [Hin|Hc]; [|by right].
        apply elem_of_app in Hin as [Hin|Hin]; [by left|].
        apply list_elem_of_singleton in Hin as ->. right. by apply Hnew.
      * split.
        { rewrite Hnames. unfold compared_names.
          cbn [improvements deterioration stable]. rewrite !fmap_app.
          cbn [fmap list_fmap]. rewrite Hname. solve_Permutation. }
        repeat split; [exact Hst| |exact Hdet].
        intros r' Hr'. destruct (Himp r' Hr') as [Hin|Hc]; [|by right].
        apply elem_of_app in Hin as [Hin|Hin]; [by left|].
        apply list_elem_of_singleton in Hin as ->. right. by apply Hnew.
      * split.
        { rewrite Hnames. unfold compared_names.
          cbn [improvements deterioration stable]. rewrite !fmap_app.
          cbn [fmap list_fmap]. rewrite Hname. solve_Permutation. }
        repeat split; [exact Hst|exact Himp|].
        intros r' Hr'. destruct (Hdet r' Hr') as [Hin|Hc]; [|by right].
        apply elem_of_app in Hin as [Hin|Hin]; [by left|].
        apply list_elem_of_singleton in Hin as ->. right. by apply Hnew.
    + rewrite decide_False by (intros [? ?]; done).
      destruct (IH cmp0 Hall') as (cmp & Hrun & Hnames & Hst & Himp & Hdet).
      exists cmp. done.
Qed.

(** X14. On two loaded files of the expected types (objects whose
    "circumferences", when present, is an object of numbers),
    [compare_circumferences] returns, and puts every measurement that both
    sessions have in exactly one of its three lists, and nothing else: the
    names of the three lists together are the common names, each as often as
    the current session has it. An entry is under "stable" when the change is
    less than 1 in absolute value, under "improvements" when it is not and
    the change is negative, and under "deterioration" otherwise. *)
Theorem compare_circumferences_partition (current previous : loaded_json)
    (cs ps : float_dict) :
  float_items current = Some cs →
  float_items previous = Some ps →
  ∃ cmp,
    compare_circumferences current previous = Ok cmp
    ∧ compared_names cmp ≡ₚ common_names cs ps
    ∧ Forall (compared cs ps (λ change,
                PrimFloat.ltb (PrimFloat.abs change) 1 = true)) (stable cmp)
    ∧ Forall (compared cs ps (λ change,
                PrimFloat.ltb (PrimFloat.abs change) 1 = false
                ∧ PrimFloat.ltb change 0 = true)) (improvements cmp)
    ∧ Forall (compared cs ps (λ change,
                PrimFloat.ltb (PrimFloat.abs change) 1 = false
                ∧ PrimFloat.ltb change 0 = false)) (deterioration cmp).
Proof.
  intros Hcs Hps.
  destruct (compare_loop previous ps cs cs (Comparison [] [] []) Hps)
    as (cmp & Hrun & Hnames & Hst & Himp & Hdet); [done|].
  exists cmp. split.
  - apply float_items_Some in Hcs as (file & -> & [[Hc ->]|Hc]);
      cbn [compare_circumferences]; rewrite Hc; [|exact Hrun].
    apply Ok_inj in Hrun. by subst cmp.
  - split; [exact Hnames|]. cbn [stable improvements deterioration] in *.
    repeat split; apply Forall_forall; intros r Hr.
    + destruct (Hst r Hr) as [Hin|Hc]; [by apply elem_of_nil in Hin | done].
    + destruct (Himp r Hr) as [Hin|Hc]; [by apply elem_of_nil in Hin | done].
    + destruct (Hdet r Hr) as [Hin|Hc]; [by apply elem_of_nil in Hin | done].
Qed.






Lemma standards_cases (name : string) (std : standard) :
  CIRCUMFERENCE_STANDARDS !! name = Some std →
  (name, std) ∈ [("chest", Standard 75 120 95); ("waist", Standard 60 110 80);
                 ("hip", Standard 85 130 100); ("arm_bicep", Standard 22 38 30);
                 ("thigh_upper", Standard 40 70 55);
                 ("calf", Standard 30 45 38)]%string.
Proof. unfold CIRCUMFERENCE_STANDARDS. apply elem_of_list_to_map_2. Qed.

Lemma standards_bounds (name : string) (std : standard) :
  CIRCUMFERENCE_STANDARDS !! name = Some std →
  let lo := float_of_int (std_min std) in
  let hi := float_of_int (std_max std) in
  let target := float_of_int (std_target std) in
  PrimFloat.ltb lo lo = false ∧ PrimFloat.ltb hi lo = false
  ∧ PrimFloat.ltb hi hi = false ∧ PrimFloat.ltb hi lo = false
  ∧ PrimFloat.ltb PrimFloat.nan lo = false ∧ PrimFloat.ltb hi PrimFloat.nan = false
  ∧ PrimFloat.ltb (PrimFloat.abs (PrimFloat.nan - target)) 5 = false
  ∧ PrimFloat.ltb 0 (PrimFloat.nan - target) = false.
Proof.
  intros Hstd. apply standards_cases in Hstd.
  repeat (apply elem_of_cons in Hstd as [[= -> ->]|Hstd];
          [vm_compute; repeat split; reflexivity|]).
  by apply elem_of_nil in Hstd.
Qed.

Lemma validate_status (measurement_name : string) (std : standard) (value_cm : float) :
  CIRCUMFERENCE_STANDARDS !! measurement_name = Some std →
  ∃ st, status (validate_circumference measurement_name value_cm) = Some st
        ∧ (valid (validate_circumference measurement_name value_cm) = false
           ↔ out_of_range st)
        ∧ (valid (validate_circumference measurement_name value_cm) = true
           ↔ in_range st).
Proof.
  intros Hstd. unfold validate_circumference, out_of_range, in_range. rewrite Hstd.
  destruct (PrimFloat.ltb value_cm _).
  { exists "too_small"%string. cbn [status valid]. split; [reflexivity|].
    split; [split; [intros _; by left | done] | split; [done | intros [?|[?|?]]; done]]. }
  destruct (PrimFloat.ltb _ value_cm).
  { exists "too_large"%string. cbn [status valid]. split; [reflexivity|].
    split; [split; [intros _; by right | done] | split; [done | intros [?|[?|?]]; done]]. }
  cbv zeta. cbn [status valid]. eexists. split; [reflexivity|].
  split; [split; [done|] | split; [intros _ | done]].
  - destruct (PrimFloat.ltb (PrimFloat.abs _) 5); [intros [?|?]; done|].
    destruct (PrimFloat.ltb 0 _); intros [?|?]; done.
  - destruct (PrimFloat.ltb (PrimFloat.abs _) 5); [by left|].
    destruct (PrimFloat.ltb 0 _); [right; by left | right; by right].
Qed.

(** X16. For a measurement with a standard, [validate_circumference] always
    gives a status: the value is valid exactly when it is neither less than
    the minimum nor greater than the maximum, the status is too_small or
    too_large exactly when it is not valid and ideal, above_target or
    below_target when it is, and the difference from the target is reported
    exactly for valid values. Both bounds are themselves valid, and a NaN is
    reported valid, below the target. *)
Theorem validate_with_standard (measurement_name : string) (std : standard)
    (value_cm : float) :
  CIRCUMFERENCE_STANDARDS !! measurement_name = Some std →
  let v := validate_circumference measurement_name value_cm in
  (valid v = true ↔
   PrimFloat.ltb value_cm (float_of_int (std_min std)) = false
   ∧ PrimFloat.ltb (float_of_int (std_max std)) value_cm = false)
  ∧ (∃ st, status v = Some st
           ∧ (valid v = false ↔ out_of_range st)
           ∧ (valid v = true ↔ in_range st))
  ∧ (is_Some (diff_from_target v) ↔ valid v = true)
  ∧ valid (validate_circumference measurement_name (float_of_int (std_min std))) = true
  ∧ valid (validate_circumference measurement_name (float_of_int (std_max std))) = true
  ∧ valid (validate_circumference measurement_name PrimFloat.nan) = true
  ∧ status (validate_circumference measurement_name PrimFloat.nan)
    = Some "below_target"%string.
Proof.
  intros Hstd. cbv zeta.
  split; [|split; [by apply (validate_status _ std)|]].
  - unfold validate_circumference. rewrite Hstd.
    destruct (PrimFloat.ltb value_cm _);
      [cbn [valid]; split; [done | intros [? _]; done]|].
    destruct (PrimFloat.ltb _ value_cm);
      [cbn [valid]; split; [done | intros [_ ?]; done]|].
    done.
  - destruct (standards_bounds _ _ Hstd)
      as (Hlolo & Hhilo & Hhihi & _ & Hnanlo & Hhinan & Hnanabs & Hnanpos).
    unfold validate_circumference. rewrite Hstd.
    rewrite Hlolo, Hhilo, Hhihi, Hnanlo, Hhinan, Hnanabs, Hnanpos.
    split; [|done].
    destruct (PrimFloat.ltb value_cm _);
      [cbn [valid diff_from_target]; split; [intros [? ?]; done | done]|].
    destruct (PrimFloat.ltb _ value_cm);
      [cbn [valid diff_from_target]; split; [intros [? ?]; done | done]|].
    cbv zeta. cbn [valid diff_from_target]. split; [done | eauto].
Qed.

Lemma validate_loaded_Number (name : string) (value : float) :
  validate_loaded name (Number value) = Ok (validate_circumference name value).
Proof. unfold validate_loaded. by destruct (CIRCUMFERENCE_STANDARDS !! name). Qed.

Lemma validation_colors_KeyError (circumferences : float_dict) :
  Exists (λ item, CIRCUMFERENCE_STANDARDS !! item.1 = None) circumferences →
  validation_colors (loaded_items circumferences) = Raise (KeyError "status").
Proof.
  unfold loaded_items.
  induction circumferences as [|[name value] rest IH]; intros Hex.
  - by apply Exists_nil in Hex.
  - rewrite fmap_cons. cbn [validation_colors fst snd].
    rewrite validate_loaded_Number, bind_Ok.
    destruct (CIRCUMFERENCE_STANDARDS !! name) as [std|] eqn:Hstd.
    + apply Exists_cons in Hex as [Hhere|Hrest];
        [cbn [fst] in Hhere; rewrite Hstd in Hhere; discriminate|].
      rewrite (IH Hrest).
      destruct (validate_status name std value Hstd) as (st & -> & _). reflexivity.
    + unfold validate_circumference. rewrite Hstd. reflexivity.
Qed.

Lemma validation_colors_standards (circumferences : float_dict) :
  Forall (λ item, is_Some (CIRCUMFERENCE_STANDARDS !! item.1)) circumferences →
  ∃ colors,
    validation_colors (loaded_items circumferences) = Ok colors
    ∧ Forall2 (λ item color,
                 color ∈ ["green"; "orange"; "lightblue"; "red"]%string
                 ∧ (color = "red"%string
                    ↔ valid (validate_circumference item.1 item.2) = false))
              circumferences colors.
Proof.
  unfold loaded_items.
  induction circumferences as [|[name value] rest IH]; intros Hall.
  - exists []. split; [reflexivity | constructor].
  - apply Forall_cons in Hall as [[std Hstd] Hrest].
    destruct (IH Hrest) as (colors & Hcolors & Hrel).
    rewrite fmap_cons. cbn [validation_colors fst snd].
    rewrite validate_loaded_Number, bind_Ok, Hcolors.
    destruct (validate_status name std value Hstd)
      as (st & Hst & Hout & Hin).
    rewrite Hst, bind_Ok. eexists. split; [reflexivity|].
    constructor; [|exact Hrel]. cbn [fst snd]. unfold status_color.
    destruct (valid (validate_circumference name value)) eqn:Hvalid.
    + destruct (proj1 Hin eq_refl) as [Est|[Est|Est]]; rewrite Est;
        (split; [apply list_elem_of_In; vm_compute; tauto
                | vm_compute; split; intros; discriminate]).
    + destruct (proj1 Hout eq_refl) as [Est|Est]; rewrite Est;
        (split; [apply list_elem_of_In; vm_compute; tauto
                | vm_compute; split; intros; reflexivity]).
Qed.

Lemma plot_circumferences_cases (data : loaded_json) (cs : float_dict) :
  float_items data = Some cs →
  plot_circumferences data
  = Ok (match cs with
        | [] => NothingToPlot
        | _ :: _ => BarChart cs.*1 (Number <$> cs.*2)
                             (validation_colors (loaded_items cs))
        end).
Proof.
  intros Hcs. apply float_items_Some in Hcs as (file & -> & [[Hc ->]|Hc]);
    cbn [plot_circumferences]; rewrite Hc; [reflexivity|].
  destruct cs as [|[k v] cs]; [reflexivity|].
  unfold loaded_items. rewrite !fmap_cons. cbn [fst snd]. do 2 f_equal.
  - f_equal. rewrite <- list_fmap_compose. reflexivity.
  - f_equal. rewrite <- !list_fmap_compose. reflexivity.
Qed.

(** X17. On a loaded file of the expected types, [plot_circumferences]
    has nothing to plot without circumferences. With some, once the bar chart
    of the values is drawn, it raises [KeyError] for "status" as soon as one
    measurement has no standard, which is the case of every sided name of the
    pipeline; when all have one, it gives one colour per measurement, red
    exactly for the values that are not valid. *)
Theorem plot_circumferences_needs_standards (data : loaded_json) (cs : float_dict) :
  float_items data = Some cs →
  (cs = [] → plot_circumferences data = Ok NothingToPlot)
  ∧ (Exists (λ item, CIRCUMFERENCE_STANDARDS !! item.1 = None) cs →
     plot_circumferences data
     = Ok (BarChart cs.*1 (Number <$> cs.*2) (Raise (KeyError "status"))))
  ∧ (∀ name value,
       name ∈ MEASUREMENTS_TO_CAPTURE →
       name ∉ ["chest"; "waist"; "hip"]%string →
       (name, value) ∈ cs →
       plot_circumferences data
       = Ok (BarChart cs.*1 (Number <$> cs.*2) (Raise (KeyError "status"))))
  ∧ (cs ≠ [] →
     Forall (λ item, is_Some (CIRCUMFERENCE_STANDARDS !! item.1)) cs →
     ∃ colors,
       plot_circumferences data
       = Ok (BarChart cs.*1 (Number <$> cs.*2) (Ok colors))
       ∧ Forall2 (λ item color,
                    color ∈ ["green"; "orange"; "lightblue"; "red"]%string
                    ∧ (color = "red"%string
                       ↔ valid (validate_circumference item.1 item.2) = false))
                 cs colors).
Proof.
  intros Hcs. rewrite (plot_circumferences_cases data cs Hcs).
  assert (Hkey : Exists (λ item, CIRCUMFERENCE_STANDARDS !! item.1 = None) cs →
                 Ok (match cs with
                     | [] => NothingToPlot
                     | _ :: _ => BarChart cs.*1 (Number <$> cs.*2)
                                          (validation_colors (loaded_items cs))
                     end)
                 = Ok (BarChart cs.*1 (Number <$> cs.*2) (Raise (KeyError "status")))).
  { intros Hex. rewrite (validation_colors_KeyError _ Hex).
    destruct cs; [by apply Exists_nil in Hex | reflexivity]. }
  split; [|split; [|split]].
  - intros ->. reflexivity.
  - exact Hkey.
  - intros name value Hname Hnot Hin. apply Hkey. apply Exists_exists.
    exists (name, value). split; [exact Hin|]. cbn [fst].
    unfold MEASUREMENTS_TO_CAPTURE in Hname.
    repeat (apply elem_of_cons in Hname as [->|Hname];
            [first [ vm_compute; reflexivity
                   | exfalso; apply Hnot; apply list_elem_of_In; vm_compute; tauto ]|]).
    by apply elem_of_nil in Hname.
  - intros Hne Hall. destruct (validation_colors_standards _ Hall) as (colors & -> & Hrel).
    exists colors. split; [|exact Hrel].
    destruct cs; [done | reflexivity].
Qed.

(** X18. [calculate_body_fat_proxy] answers with the error exactly when the
    waist or the hip is absent or zero, whatever the height and the gender.
    Otherwise it gives a percentage that is 0, 100 or the rounding of an
    estimate strictly between the two; "m" and "M" give the same answer. *)
Theorem body_fat_needs_waist_and_hip (circumferences : float_dict)
    (height_cm : float) (gender : string) :
  let answer := calculate_body_fat_proxy circumferences height_cm gender in
  (absent_or_zero (dict_get circumferences "waist")
   ∨ absent_or_zero (dict_get circumferences "hip") →
   answer = BodyFatError "Missing required measurements")
  ∧ (¬ absent_or_zero (dict_get circumferences "waist") →
     ¬ absent_or_zero (dict_get circumferences "hip") →
     ∃ percentage,
       answer = BodyFat percentage "circumference_based_estimation" "±5-10% accuracy"
       ∧ (percentage = 0%float ∨ percentage = 100%float
          ∨ ∃ estimate, PrimFloat.ltb 0 estimate = true
                        ∧ PrimFloat.ltb estimate 100 = true
                        ∧ percentage = np_round2 estimate))
  ∧ calculate_body_fat_proxy circumferences height_cm "m"
    = calculate_body_fat_proxy circumferences height_cm "M".
Proof.
  cbv zeta. unfold calculate_body_fat_proxy, absent_or_zero. split; [|split].
  - intros [Hwaist|Hhip].
    + destruct (dict_get circumferences "waist") as [waist|]; cbn [default from_option id].
      * rewrite Hwaist. reflexivity.
      * reflexivity.
    + destruct (dict_get circumferences "hip") as [hip|]; cbn [default from_option id].
      * rewrite Hhip, orb_true_r. reflexivity.
      * replace (PrimFloat.eqb 0 0) with true by reflexivity.
        rewrite orb_true_r. reflexivity.
  - intros Hwaist Hhip.
    destruct (dict_get circumferences "waist") as [waist|]; [|done].
    destruct (dict_get circumferences "hip") as [hip|]; [|done].
    cbn [default from_option id]. apply not_true_is_false in Hwaist, Hhip.
    rewrite Hwaist, Hhip. cbn [orb]. eexists. split; [reflexivity|].
    unfold clamp_percentage.
    match goal with
    | |- context [PrimFloat.ltb ?x 100] =>
        destruct (PrimFloat.ltb x 100) eqn:Hhi;
        [destruct (PrimFloat.ltb 0 x) eqn:Hlo|]
    end.
    + right. right. eexists. split; [exact Hlo|]. split; [exact Hhi | reflexivity].
    + by left.
    + right. by left.
  - reflexivity.
Qed.

End AnalyzerProperties.

(** ** Runs of the further properties on the sample data *)

Section FurtherRuns.
Import Sample.
Local Existing Instance Sample.lib.

(** The sample body has all its joints: the eleven names are measured. *)
Lemma measurement_names_witness :
  ∃ measurements,
    calculate_circumference_only self (Some body) = Ok (Some measurements)
    ∧ dom measurements = list_to_set MEASUREMENTS_TO_CAPTURE.
Proof.
  assert (29 < length body) as Hlen by (vm_compute; lia).
  destruct (calculate_lookup 170 body Hlen (sample_in_range 170 body (or_introl eq_refl)))
    as (m & Hm & _).
  exists m. split; [exact Hm|].
  destruct (measurement_names 170 body m Hm) as (_ & _ & Hall).
  apply Hall. unfold body. apply Forall_fmap, Forall_forall.
  intros i _. by eexists.
Defined.

(** Twenty good frames: the loop is still waiting, in a burst, with a
    stable run of twenty. *)
Lemma capturing_after_stable_run_witness :
  ∃ st,
    capture_loop self initial_state (replicate 20 good_frame) = Ok (Waiting st)
    ∧ pose_stable_count st ≤ 20
    ∧ (auto_capture_started st = true ↔ 15 ≤ pose_stable_count st).
Proof.
  assert (∃ st, capture_loop self initial_state (replicate 20 good_frame)
                = Ok (Waiting st)) as [st Hrun] by (vm_compute; eauto).
  exists st. split; [exact Hrun|].
  destruct (capturing_after_stable_run 170 (replicate 20 good_frame) st Hrun)
    as (Hle & _ & _ & Hstarted).
  split; [exact Hle | exact Hstarted].
Defined.


(** Fourteen good frames, a frame with the wrists hidden, and twenty good
    frames more, ended by the key 's': the lists kept are full. *)
Lemma burst_from_valid_frames_witness :
  ∃ st,
    capture_loop self initial_state
      (replicate 14 good_frame ++ partial_frame :: replicate 20 good_frame
         ++ [stop_frame])
    = Ok (Broke StopKey st)
    ∧ Forall (λ lms, Forall is_Some lms ∧ 28 ≤ length lms) (valid_landmarks_list st).
Proof.
  set (frames := replicate 14 good_frame ++ partial_frame :: replicate 20 good_frame
                   ++ [stop_frame]).
  assert (∃ st, capture_loop self initial_state frames = Ok (Broke StopKey st))
    as [st Hrun] by (vm_compute; eauto).
  exists st. split; [exact Hrun|].
  pose proof (burst_from_valid_frames 170 frames (Broke StopKey st) st Hrun eq_refl)
    as Hall.
  eapply Forall_impl; [exact Hall|]. intros lms (_ & Hfull & Hsize). by split.
Defined.

(** A view of forty-four good frames succeeds with a full list. *)
Lemma view_result_has_all_joints_witness :
  ∃ averaged lms,
    auto_capture_view self (replicate 44 good_frame)
    = Ok (Returned false (true, averaged))
    ∧ averaged = Some lms ∧ 28 ≤ length lms ∧ Forall is_Some lms.
Proof.
  assert (∃ averaged, auto_capture_view self (replicate 44 good_frame)
                      = Ok (Returned false (true, averaged))) as [averaged Hview]
    by (vm_compute; eauto).
  exists averaged.
  destruct (view_result_has_all_joints 170 (replicate 44 good_frame) false averaged
              Hview) as (lms & Hlms & Hsize & Hfull).
  exists lms. split; [exact Hview|]. split; [exact Hlms|]. by split.
Defined.

(** A session of a good frame, an empty one and the key 'q', with a pose
    model of 33 landmarks. *)
Lemma session_never_raises_witness :
  30 ≤ 33
  ∧ Forall (pose_size 33) [good_frame; empty_frame; quit_frame]
  ∧ ∃ out, run_full_capture self false "2024-01-01T10:00:00"
             [good_frame; empty_frame; quit_frame] = Ok out.
Proof.
  assert (Forall (pose_size 33) [good_frame; empty_frame; quit_frame]) as Hsize.
  { repeat apply Forall_cons_2; try apply Forall_nil_2; intros pose Hpose;
      vm_compute in Hpose; try discriminate.
    injection Hpose as <-. reflexivity. }
  split; [lia|]. split; [exact Hsize|].
  destruct (session_never_raises 170 33 "2024-01-01T10:00:00"
              [good_frame; empty_frame; quit_frame] false) as [Hout|Hraise];
    [lia | exact Hsize | exact Hout |].
  exfalso. vm_compute in Hraise. discriminate Hraise.
Defined.

(** The chest: 75 to 120 cm. *)
Lemma validate_with_standard_witness :
  CIRCUMFERENCE_STANDARDS !! "chest"%string = Some (Standard 75 120 95)
  ∧ valid (validate_circumference "chest" 75) = true
  ∧ valid (validate_circumference "chest" 120) = true
  ∧ status (validate_circumference "chest" PrimFloat.nan) = Some "below_target"%string.
Proof.
  assert (CIRCUMFERENCE_STANDARDS !! "chest"%string = Some (Standard 75 120 95))
    as Hstd by (vm_compute; reflexivity).
  split; [exact Hstd|].
  destruct (validate_with_standard "chest" (Standard 75 120 95) 97.5 Hstd)
    as (_ & _ & _ & Hlo & Hhi & _ & Hnan).
  split; [exact Hlo|]. split; [exact Hhi | exact Hnan].
Defined.

(** The second sample session against the first: the chest and the waist
    are compared, the hip and the calf are not. *)
Lemma compare_circumferences_witness :
  ∃ cmp,
    compare_circumferences SampleSessions.second_session SampleSessions.first_session
    = Ok cmp
    ∧ compared_names cmp ≡ₚ ["chest"; "waist"]%string
    ∧ ch_measurement <$> stable cmp = ["chest"]%string
    ∧ ch_measurement <$> improvements cmp = ["waist"]%string.
Proof.
  destruct (compare_circumferences_partition
              SampleSessions.second_session SampleSessions.first_session
              [("chest", 96.5); ("waist", 81); ("calf", 38)]%string%float
              [("chest", 96); ("waist", 84); ("hip", 100)]%string%float
              eq_refl eq_refl) as (cmp & Hrun & Hnames & _).
  exists cmp. split; [exact Hrun|]. split; [exact Hnames|].
  vm_compute in Hrun. injection Hrun as <-. split; reflexivity.
Defined.

(** The first sample session has a standard for each of its three
    measurements: one colour each. *)
Lemma plot_circumferences_witness :
  ∃ colors,
    plot_circumferences SampleSessions.first_session
    = Ok (BarChart ["chest"; "waist"; "hip"]%string [Number 96; Number 84; Number 100]
                   (Ok colors))
    ∧ length colors = 3.
Proof.
  destruct (plot_circumferences_needs_standards SampleSessions.first_session
              [("chest", 96); ("waist", 84); ("hip", 100)]%string%float eq_refl)
    as (_ & _ & _ & Hall).
  destruct Hall as (colors & Hrun & Hrel); [done| |].
  - repeat apply Forall_cons_2; try apply Forall_nil_2; vm_compute; eauto.
  - exists colors. split; [exact Hrun|].
    apply Forall2_length in Hrel. by rewrite <- Hrel.
Defined.

(** A batch of the first sample session and a file whose "circumferences"
    is null ends with [TypeError]. *)
Lemma batch_with_null_raises :
  batch_compare_measurements
    [Some SampleSessions.first_session; None; Some SampleSessions.null_session]
  = Raise TypeError.
Proof. vm_compute. reflexivity. Qed.

(** The shoulder at [x = 1e200]: the square of the chest width is beyond
    the float range. *)
Lemma far_body_raises :
  29 < length far_body
  ∧ calculate_circumference_only self (Some far_body) = Raise OverflowError.
Proof. split; [vm_compute; lia | vm_compute; reflexivity]. Qed.

End FurtherRuns.
